(** * Tweet loaders: a shallow embedding of [load_tweets.py] and
      [load_tweets_batch.py], and the properties of their normalisation,
      sanitising, batching and insert-building code. *)

From Stdlib Require Import ZArith Ascii String List Bool Lia.
From stdpp Require Import base option list gmap strings pretty.

(** ** Python strings

    A [str] is modelled as a [string] over the ASCII repertoire; code points
    above 127 are outside the model. *)

Module PyStr.

Definition NUL : ascii := "000"%char.

(** [s.startswith(p)] *)
Fixpoint startswith (p s : string) : bool :=
  match p, s with
  | EmptyString, _ => true
  | String a p', String b s' => Ascii.eqb a b && startswith p' s'
  | String _ _, EmptyString => false
  end.

(** [s.replace(old, new)] for a non-empty [old]: the occurrences of [old] are
    found from left to right and do not overlap.  [skip] counts the characters
    of a matched occurrence that are still to be passed over. *)
Fixpoint replace_go (old new : string) (skip : nat) (s : string) : string :=
  match s with
  | EmptyString => EmptyString
  | String c s' =>
      match skip with
      | S k => replace_go old new k s'
      | O =>
          if startswith old s
          then new +:+ replace_go old new (String.length old - 1) s'
          else String c (replace_go old new 0 s')
      end
  end.

Definition replace (old new s : string) : string := replace_go old new 0 s.

(** [old in s] *)
Fixpoint contains (old s : string) : bool :=
  startswith old s ||
  match s with
  | EmptyString => false
  | String _ s' => contains old s'
  end.

(** [c in s] for a single character *)
Fixpoint has_char (c : ascii) (s : string) : bool :=
  match s with
  | EmptyString => false
  | String a s' => Ascii.eqb a c || has_char c s'
  end.

Definition is_upper (c : ascii) : bool :=
  let n := nat_of_ascii c in (65 <=? n)%nat && (n <=? 90)%nat.

Definition lower_char (c : ascii) : ascii :=
  if is_upper c then ascii_of_nat (nat_of_ascii c + 32) else c.

(** [s.lower()] on the ASCII range, where it maps character by
    character *)
Fixpoint lower (s : string) : string :=
  match s with
  | EmptyString => EmptyString
  | String c s' => String (lower_char c) (lower s')
  end.

(** [c.isspace()] on the ASCII range: TAB, LF, VT, FF, CR, FS, GS, RS, US and
    the space. *)
Definition is_space (c : ascii) : bool :=
  let n := nat_of_ascii c in
  ((9 <=? n)%nat && (n <=? 13)%nat) || ((28 <=? n)%nat && (n <=? 32)%nat).

(** [s.lstrip()] *)
Fixpoint lstrip (s : string) : string :=
  match s with
  | EmptyString => EmptyString
  | String c s' => if is_space c then lstrip s' else s
  end.

(** [s.rstrip()] *)
Fixpoint rstrip (s : string) : string :=
  match s with
  | EmptyString => EmptyString
  | String c s' =>
      match rstrip s' with
      | EmptyString => if is_space c then EmptyString else String c EmptyString
      | r => String c r
      end
  end.

(** [s.strip()] *)
Definition strip (s : string) : string := rstrip (lstrip s).

(** [s.split(sep)] for a one-character separator; the result is never empty. *)
Fixpoint split (sep : ascii) (s : string) : list string :=
  match s with
  | EmptyString => [EmptyString]
  | String c s' =>
      if Ascii.eqb c sep then EmptyString :: split sep s'
      else match split sep s' with
           | w :: ws => String c w :: ws
           | [] => [String c EmptyString]
           end
  end.

(** [s.split()]: the maximal runs of characters that are not white space *)
Fixpoint words (s : string) : list string :=
  match s with
  | EmptyString => []
  | String c s' =>
      if is_space c then words s'
      else match s' with
           | EmptyString => [String c EmptyString]
           | String d _ =>
               if is_space d then String c EmptyString :: words s'
               else match words s' with
                    | w :: ws => String c w :: ws
                    | [] => [String c EmptyString]
                    end
           end
  end.

(** [sep.join(parts)] *)
Fixpoint join (sep : string) (parts : list string) : string :=
  match parts with
  | [] => EmptyString
  | [p] => p
  | p :: ps => p +:+ sep +:+ join sep ps
  end.

End PyStr.

(** ** Exceptions and results *)

Inductive exn : Type :=
| KeyError | TypeError | IndexError | AttributeError | ValueError
| RecursionError.

Inductive result (A : Type) : Type :=
| Ok (a : A)
| Raise (e : exn).
Arguments Ok {A} a.
Arguments Raise {A} e.

#[global] Instance result_ret : MRet result := fun A a => Ok a.
#[global] Instance result_bind : MBind result := fun A B f m =>
  match m with
  | Ok a => f a
  | Raise e => Raise e
  end.

#[global] Instance result_fmap : FMap result := fun A B f m =>
  match m with
  | Ok a => Ok (f a)
  | Raise e => Raise e
  end.

#[global] Instance exn_eq_dec : EqDecision exn.
Proof. solve_decision. Defined.

(** [try: body except Exception: handler] *)
Definition try_except {A} (body : result A) (handler : result A) : result A :=
  match body with
  | Ok a => Ok a
  | Raise _ => handler
  end.

(** [try: body except E: handler] for one exception class [E] *)
Definition try_except_only {A} (E : exn) (body : result A) (handler : result A)
  : result A :=
  match body with
  | Ok a => Ok a
  | Raise e => if decide (e = E) then handler else Raise e
  end.

Definition is_ok {A} (r : result A) : bool :=
  match r with Ok _ => true | Raise _ => false end.

(** ** Values as [json.loads] yields them

    A dict is kept as its items in insertion order, with distinct keys; the
    numbers are a parameter of the development. *)

Set Warnings "-register-all".

Section Values.
Variable num : Type.

Inductive value : Type :=
| JNull
| JBool (b : bool)
| JNum (n : num)
| JStr (s : string)
| JList (l : list value)
| JDict (d : list (string * value)).

End Values.

#[global] Instance value_eq_dec {num : Type} `{EqDecision num} :
  EqDecision (value num).
Proof.
  unfold EqDecision, Decision. fix IH 1.
  decide equality.
  - apply Bool.bool_dec.
  - apply (decide (n = n0)).
  - apply String.string_dec.
  - apply (List.list_eq_dec IH).
  - apply List.list_eq_dec. decide equality. apply String.string_dec.
Defined.

Arguments JNull {num}.
Arguments JBool {num} b.
Arguments JNum {num} n.
Arguments JStr {num} s.
Arguments JList {num} l.
Arguments JDict {num} d.

(** What the interpreter supplies for numbers and for rendering: [==] on
    numbers, the number a [bool] counts as, the number of a non-negative
    integer, the truth value of a number, and [format(v)] as used by an
    f-string. *)
Class PyOps (num : Type) := {
  num_eq_dec :: EqDecision num;
  num_eqb : num -> num -> bool;
  num_of_bool : bool -> num;
  num_of_nat : nat -> num;
  num_nonzero : num -> bool;
  fmt : value num -> string
}.

Section Python.
Context {num : Type} `{PyOps num}.

#[local] Abbreviation value := (value num).

(** [k in d] and [d[k]] on the items of a dict *)
Fixpoint dict_lookup (k : string) (d : list (string * value)) : option value :=
  match d with
  | [] => None
  | (k', v) :: d' => if String.eqb k' k then Some v else dict_lookup k d'
  end.

Definition dict_keys (d : list (string * value)) : list string := map fst d.

(** [l[i]] with Python's negative indices *)
Definition list_index {A} (l : list A) (i : Z) : option A :=
  let n := Z.of_nat (length l) in
  let j := if (i <? 0)%Z then (i + n)%Z else i in
  if ((0 <=? j)%Z && (j <? n)%Z) then l !! Z.to_nat j else None.

(** [v[k]] for a string key *)
Definition getitem (v : value) (k : string) : result value :=
  match v with
  | JDict d => match dict_lookup k d with
               | Some x => Ok x
               | None => Raise KeyError
               end
  | _ => Raise TypeError
  end.

(** [v[i]] for an integer index *)
Definition getidx (v : value) (i : Z) : result value :=
  match v with
  | JList l => match list_index l i with
               | Some x => Ok x
               | None => Raise IndexError
               end
  | JStr s => match list_index (list_ascii_of_string s) i with
              | Some c => Ok (JStr (String c EmptyString))
              | None => Raise IndexError
              end
  | JDict _ => Raise KeyError
  | _ => Raise TypeError
  end.

(** [v.get(k, e)]: the method is looked up on [v] first, then the default
    expression [e] is evaluated (whether or not [k] is present), then the call
    is made. *)
Definition get_with (v : value) (k : string) (e : result value) : result value :=
  match v with
  | JDict d => dflt ← e; Ok (default dflt (dict_lookup k d))
  | _ => Raise AttributeError
  end.

(** [v.get(k, dflt)] for a default that is a literal; [v.get(k)] is
    [get v k JNull]. *)
Definition get (v : value) (k : string) (dflt : value) : result value :=
  get_with v k (Ok dflt).

(** [s.lower()], [s.strip()], [s.split(sep)] and [len(s)]: only a [str] has
    the three methods. *)
Definition str_lower (v : value) : result value :=
  match v with
  | JStr s => Ok (JStr (PyStr.lower s))
  | _ => Raise AttributeError
  end.

Definition str_strip (v : value) : result value :=
  match v with
  | JStr s => Ok (JStr (PyStr.strip s))
  | _ => Raise AttributeError
  end.

Definition str_split (v : value) (sep : ascii) : result value :=
  match v with
  | JStr s => Ok (JList (map JStr (PyStr.split sep s)))
  | _ => Raise AttributeError
  end.

Definition py_len (v : value) : result nat :=
  match v with
  | JStr s => Ok (String.length s)
  | JList l => Ok (length l)
  | JDict d => Ok (length d)
  | _ => Raise TypeError
  end.

(** [for x in v]: the elements of a list, the characters of a str, the keys
    of a dict. *)
Definition iterate (v : value) : result (list value) :=
  match v with
  | JList l => Ok l
  | JStr s => Ok (map (fun c => JStr (String c EmptyString)) (list_ascii_of_string s))
  | JDict d => Ok (map JStr (dict_keys d))
  | _ => Raise TypeError
  end.

(** [v.append(x)], giving the list after the call *)
Definition list_append (v x : value) : result value :=
  match v with
  | JList l => Ok (JList (l ++ [x]))
  | _ => Raise AttributeError
  end.

(** [a + b] where [a] is a str literal *)
Definition str_concat (a : string) (v : value) : result value :=
  match v with
  | JStr s => Ok (JStr (a +:+ s))
  | _ => Raise TypeError
  end.

(** [bool(v)] *)
Definition truthy (v : value) : bool :=
  match v with
  | JNull => false
  | JBool b => b
  | JNum n => num_nonzero n
  | JStr s => negb (String.eqb s "")
  | JList l => negb (Nat.eqb (length l) 0)
  | JDict d => negb (Nat.eqb (length d) 0)
  end.

(** The items of a dict display [{k1: e1, k2: e2, ...}], evaluated in order *)
Fixpoint dict_display (items : list (string * result value))
  : result (list (string * value)) :=
  match items with
  | [] => Ok []
  | (k, e) :: items' => v ← e; kvs ← dict_display items'; Ok ((k, v) :: kvs)
  end.

(** [[f(x) for x in xs]] for an [f] that may raise *)
Fixpoint mapM {A B} (f : A -> result B) (xs : list A) : result (list B) :=
  match xs with
  | [] => Ok []
  | x :: xs' => y ← f x; ys ← mapM f xs'; Ok (y :: ys)
  end.

(** [a == b]; [a != b] is its negation. Lists are compared element by
    element and dicts key by key. The interpreter's shortcut for identical
    objects only matters for NaN, which JSON does not have. *)
Fixpoint py_eqb (a b : value) : bool :=
  match a, b with
  | JNull, JNull => true
  | JBool x, JBool y => Bool.eqb x y
  | JBool x, JNum n => num_eqb (num_of_bool x) n
  | JNum n, JBool y => num_eqb n (num_of_bool y)
  | JNum n, JNum m => num_eqb n m
  | JStr s, JStr t => String.eqb s t
  | JList l1, JList l2 =>
      (fix go (xs ys : list value) : bool :=
         match xs, ys with
         | [], [] => true
         | x :: xs', y :: ys' => py_eqb x y && go xs' ys'
         | _, _ => false
         end) l1 l2
  | JDict d1, JDict d2 =>
      Nat.eqb (length d1) (length d2) &&
      (fix all (kvs : list (string * value)) : bool :=
         match kvs with
         | [] => true
         | (k, v) :: kvs' =>
             match dict_lookup k d2 with
             | Some v' => py_eqb v v'
             | None => false
             end && all kvs'
         end) d1
  | _, _ => false
  end.

End Python.

(** ** [load_tweets.py]: the row strategy *)

Module Row.
Section Row.
Context {num : Type} `{PyOps num}.
#[local] Abbreviation value := (value num).

(** [remove_nulls(s)] *)
Definition remove_nulls (s : value) : result value :=
  match s with
  | JNull => Ok JNull
  | JStr x => Ok (JStr (PyStr.replace (String PyStr.NUL "") "" x))
  | _ => Raise AttributeError
  end.

(** [clean_dict(d)] *)
Fixpoint clean_dict (d : value) : value :=
  match d with
  | JDict kvs => JDict (map (fun kv => (fst kv, clean_dict (snd kv))) kvs)
  | JList l => JList (map clean_dict l)
  | JStr s => JStr (PyStr.replace (String PyStr.NUL "") "" s)
  | _ => d
  end.

(** [clean_dict(d)] run by an interpreter whose recursion limit leaves room for
    [room] nested calls of [clean_dict]: every level of nesting of [d] takes
    one nested call, and a call for which no room is left raises
    [RecursionError]. The elements are cleaned in order, and the first error
    ends the comprehension. *)
Fixpoint clean_dict_within (room : nat) (d : value) : result value :=
  match room with
  | O => Raise RecursionError
  | S room' =>
      match d with
      | JDict kvs =>
          JDict <$> mapM (fun kv => v ← clean_dict_within room' (snd kv);
                                    Ok (fst kv, v)) kvs
      | JList l => JList <$> mapM (clean_dict_within room') l
      | JStr s => Ok (JStr (PyStr.replace (String PyStr.NUL "") "" s))
      | _ => Ok d
      end
  end.

(** The first [try] of the WKT block: [tweet['geo']['coordinates']] rendered
    as a point. *)
Definition point_wkt (tweet : value) : result value :=
  geo ← getitem tweet "geo";
  coords ← getitem geo "coordinates";
  c0 ← getidx coords 0;
  c1 ← getidx coords 1;
  Ok (JStr ("POINT(" +:+ fmt c0 +:+ " " +:+ fmt c1 +:+ ")")).

(** [ring = ...[0]] and the closing [append] *)
Definition closed_ring (tweet : value) : result value :=
  place ← getitem tweet "place";
  bb ← getitem place "bounding_box";
  cs ← getitem bb "coordinates";
  ring ← getidx cs 0;
  first ← getidx ring 0;
  last ← getidx ring (-1);
  if negb (py_eqb first last) then list_append ring first else Ok ring.

(** [f"{pt[0]} {pt[1]}"] *)
Definition fmt_point (pt : value) : result string :=
  p0 ← getidx pt 0;
  p1 ← getidx pt 1;
  Ok (fmt p0 +:+ " " +:+ fmt p1).

(** The inner [try]: the polygon of the first ring of the bounding box *)
Definition polygon_wkt (tweet : value) : result value :=
  ring ← closed_ring tweet;
  items ← iterate ring;
  pts ← mapM fmt_point items;
  Ok (JStr ("POLYGON((" +:+ PyStr.join ", " pts +:+ "))")).

(** [wkt], after both [try] blocks *)
Definition geo_wkt (tweet : value) : result value :=
  try_except (point_wkt tweet) (try_except (polygon_wkt tweet) (Ok JNull)).

(** [text] *)
Definition body_text (tweet : value) : result value :=
  ext ← get tweet "extended_tweet" (JDict []);
  t ← get_with ext "full_text" (getitem tweet "text");
  remove_nulls t.

(** [country_code] *)
Definition country_code (tweet : value) : result value :=
  try_except
    (place ← getitem tweet "place";
     cc ← getitem place "country_code";
     str_lower cc)
    (Ok JNull).

(** [state_code], given the [country_code] just computed *)
Definition state_code (tweet country : value) : result value :=
  if py_eqb country (JStr "us") then
    place ← getitem tweet "place";
    full_name ← getitem place "full_name";
    parts ← str_split full_name ","%char;
    comp ← getidx parts (-1);
    stripped ← str_strip comp;
    sc ← str_lower stripped;
    n ← py_len sc;
    Ok (if (n <=? 2)%nat then sc else JNull)
  else Ok JNull.

(** [country_code] and [state_code], one after the other *)
Definition codes (tweet : value) : result (value * value) :=
  country ← country_code tweet;
  state ← state_code tweet country;
  Ok (country, state).

(** [place_name] *)
Definition place_name (tweet : value) : result value :=
  place ← get tweet "place" (JDict []);
  get place "full_name" JNull.

(** [tweet.get('extended_tweet', {}).get('entities', {}).get(kind,
    tweet['entities'][kind])] *)
Definition entity_list (tweet : value) (kind : string) : result value :=
  ext ← get tweet "extended_tweet" (JDict []);
  ents ← get ext "entities" (JDict []);
  get_with ents kind (e ← getitem tweet "entities"; getitem e kind).

Definition urls (tweet : value) : result value := entity_list tweet "urls".
Definition mentions (tweet : value) : result value :=
  entity_list tweet "user_mentions".
Definition hashtags (tweet : value) : result value :=
  entity_list tweet "hashtags".
Definition cashtags (tweet : value) : result value :=
  entity_list tweet "symbols".

(** [tags = ['#'+h['text'] for h in hashtags] + ['$'+c['text'] for c in cashtags]] *)
Definition tags (hashtags cashtags : value) : result (list value) :=
  hs ← iterate hashtags;
  hs' ← mapM (fun h => t ← getitem h "text"; str_concat "#" t) hs;
  cs ← iterate cashtags;
  cs' ← mapM (fun c => t ← getitem c "text"; str_concat "$" t) cs;
  Ok (hs' ++ cs').

(** [media] *)
Definition media (tweet : value) : result value :=
  ext ← get tweet "extended_tweet" (JDict []);
  xe ← get ext "extended_entities" (JDict []);
  get_with xe "media"
    (ee ← get tweet "extended_entities" (JDict []); get ee "media" (JList [])).

(** *** The store and the connection *)

(** Modelled from the spec: the relational store, which is outside the
    sources. The relations are those of the persisted schema; every one has a
    uniqueness constraint on its key, and every insert is insert-if-absent:
    it has no effect when a row with the same key exists. The key of [urls] is
    the URL, those of [users] and [tweets] their id, and an association row is
    its own key. *)
Record store : Type := {
  tbl_urls : list (value * value);
  tbl_users : list (value * list (string * value));
  tbl_tweets : list (value * list (string * value));
  tbl_tweet_urls : list (value * value);
  tbl_tweet_mentions : list (value * value);
  tbl_tweet_tags : list (value * value);
  tbl_tweet_media : list (value * value * value)
}.

(** What a connection is asked to do, in order *)
Inductive event : Type :=
| Begin
| Commit
| Rollback
| Execute (statement : string) (binds : list (string * value)).

Record conn : Type := { db : store; log : list event }.

(** A call on a connection: how it ends, and the connection after it *)
Definition M (A : Type) : Type := conn -> result A * conn.

#[global] Instance M_ret : MRet M := fun A a c => (Ok a, c).
#[global] Instance M_bind : MBind M := fun A B f m c =>
  match m c with
  | (Ok a, c') => f a c'
  | (Raise e, c') => (Raise e, c')
  end.

(** A computation that does not touch the connection *)
Definition lift {A} (r : result A) : M A := fun c => (r, c).

(** [for x in xs: f(x)] *)
Fixpoint forM {A} (f : A -> M unit) (xs : list A) : M unit :=
  match xs with
  | [] => mret ()
  | x :: xs' => f x ;; forM f xs'
  end.

(** [connection.execute(statement, binds)] applied to a change of the store
    that yields [A] *)
Definition execute {A} (statement : string) (binds : list (string * value))
  (run : store -> A * store) : M A := fun c =>
  let '(a, s) := run (db c) in
  (Ok a, {| db := s; log := log c ++ [Execute statement binds] |}).

(** [with connection.begin(): body]: the changes of a body that raises are
    rolled back. *)
Definition transaction {A} (body : M A) : M A := fun c =>
  match body {| db := db c; log := log c ++ [Begin] |} with
  | (Ok a, c') => (Ok a, {| db := db c'; log := log c' ++ [Commit] |})
  | (Raise e, c') => (Raise e, {| db := db c; log := log c' ++ [Rollback] |})
  end.

(** Modelled from the spec: insert-if-absent on a relation with key [key] *)
Definition insert_if_absent {R K} `{EqDecision K} (key : R -> K) (r : R)
  (t : list R) : list R :=
  if existsb (fun x => bool_decide (key x = key r)) t then t else t ++ [r].

(** Modelled from the spec: the row with a given key, if any *)
Definition find_key {R K} `{EqDecision K} (key : R -> K) (k : K) (t : list R)
  : option R :=
  List.find (fun x => bool_decide (key x = k)) t.

(** [SELECT id_tweets FROM tweets WHERE id_tweets = :id_tweets], then
    [.first()] *)
Definition select_tweet (id : value) : M (option value) :=
  execute "SELECT id_tweets FROM tweets" [("id_tweets", id)]
    (fun s => (fst <$> find_key fst id (tbl_tweets s), s)).

(** [insert into urls (url) values (:url) on conflict do nothing returning
    id_urls], then [.first()]: the new id, or nothing on a conflict *)
Definition insert_url (url : value) : M (option value) :=
  execute "insert into urls" [("url", url)]
    (fun s =>
       match find_key snd url (tbl_urls s) with
       | Some _ => (None, s)
       | None =>
           let id := JNum (num_of_nat (S (length (tbl_urls s)))) in
           (Some id,
            {| tbl_urls := tbl_urls s ++ [(id, url)];
               tbl_users := tbl_users s;
               tbl_tweets := tbl_tweets s;
               tbl_tweet_urls := tbl_tweet_urls s;
               tbl_tweet_mentions := tbl_tweet_mentions s;
               tbl_tweet_tags := tbl_tweet_tags s;
               tbl_tweet_media := tbl_tweet_media s |})
       end).

(** [select id_urls from urls where url = :url], then [.first()] *)
Definition select_url (url : value) : M (option value) :=
  execute "select id_urls from urls" [("url", url)]
    (fun s => (fst <$> find_key snd url (tbl_urls s), s)).

(** [get_id_urls(url, connection)] *)
Definition get_id_urls (url : value) : M value :=
  res ← insert_url url;
  res ← match res with
        | None => select_url url
        | Some _ => mret res
        end;
  match res with
  | Some id => mret id
  | None => lift (Raise TypeError)
  end.

(** [INSERT INTO users ... ON CONFLICT DO NOTHING] *)
Definition insert_user (statement : string) (binds : list (string * value))
  (id : value) : M unit :=
  execute statement binds
    (fun s =>
       ((), {| tbl_urls := tbl_urls s;
               tbl_users := insert_if_absent fst (id, binds) (tbl_users s);
               tbl_tweets := tbl_tweets s;
               tbl_tweet_urls := tbl_tweet_urls s;
               tbl_tweet_mentions := tbl_tweet_mentions s;
               tbl_tweet_tags := tbl_tweet_tags s;
               tbl_tweet_media := tbl_tweet_media s |})).

(** [INSERT INTO tweets ... ON CONFLICT DO NOTHING] *)
Definition insert_tweet_row (binds : list (string * value)) (id : value)
  : M unit :=
  execute "INSERT INTO tweets" binds
    (fun s =>
       ((), {| tbl_urls := tbl_urls s;
               tbl_users := tbl_users s;
               tbl_tweets := insert_if_absent fst (id, binds) (tbl_tweets s);
               tbl_tweet_urls := tbl_tweet_urls s;
               tbl_tweet_mentions := tbl_tweet_mentions s;
               tbl_tweet_tags := tbl_tweet_tags s;
               tbl_tweet_media := tbl_tweet_media s |})).

(** [INSERT INTO tweet_urls (id_tweets, id_urls) ... ON CONFLICT DO NOTHING] *)
Definition insert_tweet_url (t u : value) : M unit :=
  execute "INSERT INTO tweet_urls" [("t", t); ("u", u)]
    (fun s =>
       ((), {| tbl_urls := tbl_urls s;
               tbl_users := tbl_users s;
               tbl_tweets := tbl_tweets s;
               tbl_tweet_urls := insert_if_absent id (t, u) (tbl_tweet_urls s);
               tbl_tweet_mentions := tbl_tweet_mentions s;
               tbl_tweet_tags := tbl_tweet_tags s;
               tbl_tweet_media := tbl_tweet_media s |})).

(** [INSERT INTO tweet_mentions (id_tweets, id_users) ... ON CONFLICT DO
    NOTHING] *)
Definition insert_tweet_mention (t u : value) : M unit :=
  execute "INSERT INTO tweet_mentions" [("t", t); ("u", u)]
    (fun s =>
       ((), {| tbl_urls := tbl_urls s;
               tbl_users := tbl_users s;
               tbl_tweets := tbl_tweets s;
               tbl_tweet_urls := tbl_tweet_urls s;
               tbl_tweet_mentions :=
                 insert_if_absent id (t, u) (tbl_tweet_mentions s);
               tbl_tweet_tags := tbl_tweet_tags s;
               tbl_tweet_media := tbl_tweet_media s |})).

(** [INSERT INTO tweet_tags (id_tweets, tag) ... ON CONFLICT DO NOTHING] *)
Definition insert_tweet_tag (t tag : value) : M unit :=
  execute "INSERT INTO tweet_tags" [("t", t); ("tag", tag)]
    (fun s =>
       ((), {| tbl_urls := tbl_urls s;
               tbl_users := tbl_users s;
               tbl_tweets := tbl_tweets s;
               tbl_tweet_urls := tbl_tweet_urls s;
               tbl_tweet_mentions := tbl_tweet_mentions s;
               tbl_tweet_tags := insert_if_absent id (t, tag) (tbl_tweet_tags s);
               tbl_tweet_media := tbl_tweet_media s |})).

(** [INSERT INTO tweet_media (id_tweets, id_urls, type) ... ON CONFLICT DO
    NOTHING] *)
Definition insert_tweet_medium (t u type : value) : M unit :=
  execute "INSERT INTO tweet_media" [("t", t); ("u", u); ("type", type)]
    (fun s =>
       ((), {| tbl_urls := tbl_urls s;
               tbl_users := tbl_users s;
               tbl_tweets := tbl_tweets s;
               tbl_tweet_urls := tbl_tweet_urls s;
               tbl_tweet_mentions := tbl_tweet_mentions s;
               tbl_tweet_tags := tbl_tweet_tags s;
               tbl_tweet_media :=
                 insert_if_absent id (t, u, type) (tbl_tweet_media s) |})).

(** *** [insert_tweet] *)

(** The parameters of the [INSERT INTO users] of the author *)
Definition user_binds (tweet user_url_id : value)
  : result (list (string * value)) :=
  let user_field k := (user ← getitem tweet "user"; getitem user k) in
  dict_display
    [("id_users", user_field "id");
     ("created_at", user_field "created_at");
     ("updated_at", user ← getitem tweet "user"; get user "updated_at" JNull);
     ("url", Ok user_url_id);
     ("friends_count", user_field "friends_count");
     ("listed_count", user_field "listed_count");
     ("favourites_count", user_field "favourites_count");
     ("statuses_count", user_field "statuses_count");
     ("protected", user_field "protected");
     ("verified", user_field "verified");
     ("screen_name", user_field "screen_name");
     ("name", user_field "name");
     ("location", user_field "location");
     ("description", user_field "description");
     ("withheld_in_countries",
      user ← getitem tweet "user"; get user "withheld_in_countries" (JList []))].

(** The parameters of the [INSERT INTO tweets] *)
Definition tweet_binds (tweet text country state place wkt : value)
  : result (list (string * value)) :=
  dict_display
    [("id_tweets", getitem tweet "id");
     ("id_users", user ← getitem tweet "user"; getitem user "id");
     ("created_at", getitem tweet "created_at");
     ("in_reply_to_status_id", get tweet "in_reply_to_status_id" JNull);
     ("in_reply_to_user_id", get tweet "in_reply_to_user_id" JNull);
     ("quoted_status_id", get tweet "quoted_status_id" JNull);
     ("retweet_count", get tweet "retweet_count" (JNum (num_of_nat 0)));
     ("favorite_count", get tweet "favorite_count" (JNum (num_of_nat 0)));
     ("quote_count", get tweet "quote_count" (JNum (num_of_nat 0)));
     ("withheld_copyright", get tweet "withheld_copyright" (JBool false));
     ("withheld_in_countries", get tweet "withheld_in_countries" (JList []));
     ("source", get tweet "source" JNull);
     ("text", Ok text);
     ("country_code", Ok country);
     ("state_code", Ok state);
     ("lang", get tweet "lang" JNull);
     ("place_name", Ok place);
     ("wkt", Ok wkt)].

(** The body of the transaction, on the sanitized record *)
Definition load (tweet : value) : M unit :=
  (* users *)
  user ← lift (getitem tweet "user");
  url ← lift (getitem user "url");
  user_url_id ← match url with
                | JNull => mret JNull
                | _ => get_id_urls url
                end;
  binds ← lift (user_binds tweet user_url_id);
  id_users ← lift (getitem user "id");
  insert_user "INSERT INTO users" binds id_users ;;
  (* tweets *)
  wkt ← lift (geo_wkt tweet);
  text ← lift (body_text tweet);
  country ← lift (country_code tweet);
  state ← lift (state_code tweet country);
  place ← lift (place_name tweet);
  reply ← lift (get tweet "in_reply_to_user_id" JNull);
  (if truthy reply
   then insert_user "INSERT INTO users (id_users)" [("id", reply)] reply
   else mret ()) ;;
  binds ← lift (tweet_binds tweet text country state place wkt);
  id_tweets ← lift (getitem tweet "id");
  insert_tweet_row binds id_tweets ;;
  (* tweet_urls *)
  us ← lift (urls tweet ≫= iterate);
  forM (fun u =>
          expanded ← lift (getitem u "expanded_url");
          url_id ← get_id_urls expanded;
          insert_tweet_url id_tweets url_id) us ;;
  (* tweet_mentions *)
  ms ← lift (mentions tweet ≫= iterate);
  forM (fun m =>
          id ← lift (getitem m "id");
          insert_user "INSERT INTO users (id_users)" [("id", id)] id ;;
          insert_tweet_mention id_tweets id) ms ;;
  (* tweet_tags *)
  hs ← lift (hashtags tweet);
  cs ← lift (cashtags tweet);
  ts ← lift (tags hs cs);
  forM (fun tag => insert_tweet_tag id_tweets tag) ts ;;
  (* tweet_media *)
  md ← lift (media tweet ≫= iterate);
  forM (fun m =>
          media_url ← lift (getitem m "media_url");
          media_id ← get_id_urls media_url;
          type ← lift (getitem m "type");
          insert_tweet_medium id_tweets media_id type) md.

(** [insert_tweet(connection, tweet)] *)
Definition insert_tweet (tweet : value) : M unit :=
  id ← lift (getitem tweet "id");
  found ← select_tweet id;
  match found with
  | Some _ => mret ()
  | None => transaction (load (clean_dict tweet))
  end.

End Row.
End Row.

(** ** [load_tweets_batch.py]: the batch strategy *)

Module Batch.
Section Batch.
Context {num : Type} `{PyOps num}.
#[local] Abbreviation value := (value num).

(** [remove_nulls(s)]: the replacement is the four characters backslash,
    [x], [0], [0]. *)
Definition remove_nulls (s : value) : result value :=
  match s with
  | JNull => Ok JNull
  | JStr x => Ok (JStr (PyStr.replace (String PyStr.NUL "") "\x00" x))
  | _ => Raise AttributeError
  end.

(** The indices [range(start, stop, step)] runs through for a positive
    [step]; [stop - start] iterations are always enough. *)
Fixpoint range_loop (fuel ndx stop step : nat) : list nat :=
  match fuel with
  | O => []
  | S fuel' =>
      if (ndx <? stop)%nat then ndx :: range_loop fuel' (ndx + step) stop step
      else []
  end.

(** [range(start, stop, step)] for [start <= stop]: a zero step is a
    [ValueError], a negative one gives no index. *)
Definition py_range (start stop : nat) (step : Z) : result (list nat) :=
  if (step =? 0)%Z then Raise ValueError
  else if (step <? 0)%Z then Ok []
  else Ok (range_loop (stop - start) start stop (Z.to_nat step)).

(** [l[a:b]] for [a <= b <= len(l)] *)
Definition slice {A} (l : list A) (a b : nat) : list A := take (b - a) (drop a l).

(** [list(batch(iterable, n))] *)
Definition batch {A} (iterable : list A) (n : Z) : result (list (list A)) :=
  let l := length iterable in
  ndxs ← py_range 0 l n;
  Ok (map (fun ndx => slice iterable ndx (Nat.min (ndx + Z.to_nat n) l)) ndxs).

(** A row handed to the insert builder: a dict from column names to values *)
Definition row_keys (row : list (string * value)) : gset string :=
  list_to_set (dict_keys row).

(** [enumerate(l)] *)
Definition enumerate {A} (l : list A) : list (nat * A) := zip (seq 0 (length l)) l.

(** [f':{key}{i}'] *)
Definition placeholder (key : string) (i : nat) : string :=
  ":" +:+ key +:+ pretty i.

(** ['(' + ','.join([f':{key}{i}' for key in keys]) + ')'] *)
Definition values_tuple (keys : gset string) (i : nat) : string :=
  "(" +:+ PyStr.join "," (map (fun key => placeholder key i) (elements keys)) +:+ ")".

(** [','.join(keys)] *)
Definition columns (keys : gset string) : string :=
  PyStr.join "," (elements keys).

Definition nl : string := String "010"%char "".

(** The text of the statement before the white space is normalised *)
Definition sql_text (table : string) (keys : gset string) (nrows : nat) : string :=
  nl +:+ "    INSERT INTO " +:+ table +:+ nl +:+
  "        (" +:+ columns keys +:+ ")" +:+ nl +:+
  "        VALUES" +:+ nl +:+
  "        " +:+ PyStr.join "," (map (values_tuple keys) (seq 0 nrows)) +:+ nl +:+
  "        ON CONFLICT DO NOTHING" +:+ nl +:+
  "        ".

(** [{ key+str(i): value for i,row in enumerate(rows) for key,value in
    row.items() }]: a later entry replaces an earlier one of the same name. *)
Definition bind_row (m : gmap string value) (ir : nat * list (string * value))
  : gmap string value :=
  foldl (fun m kv => <[fst kv +:+ pretty (fst ir) := snd kv]> m) m (snd ir).

Definition binds_of (rows : list (list (string * value))) : gmap string value :=
  foldl bind_row ∅ (enumerate rows).

(** [_bulk_insert_sql(table, rows)] *)
Definition _bulk_insert_sql (table : string) (rows : list (list (string * value)))
  : result (string * gmap string value) :=
  match rows with
  | [] => Raise ValueError
  | row0 :: _ =>
      let keys := row_keys row0 in
      if forallb (fun row => bool_decide (row_keys row = keys)) rows
      then Ok (PyStr.join " " (PyStr.words (sql_text table keys (length rows))),
               binds_of rows)
      else Raise ValueError
  end.

(** The connection, as far as the batch strategy's insert helper sees it: the
    statements executed so far, each with its bound parameters. *)
Definition connection : Type := list (string * gmap string value).

(** [bulk_insert(connection, table, rows)]: how the call ends, and the
    connection after it. *)
Definition bulk_insert (conn : connection) (table : string)
  (rows : list (list (string * value))) : result unit * connection :=
  if (length rows =? 0)%nat then (Ok (), conn)
  else
    match _bulk_insert_sql table rows with
    | Ok sb => (Ok (), conn ++ [sb])
    | Raise e => (Raise e, conn)
    end.

(** [geo_str] and [geo_coords]: only a [TypeError] is handled. *)
Definition geo (tweet : value) : result (value * value) :=
  try_except_only TypeError
    (g ← getitem tweet "geo";
     coords ← getitem g "coordinates";
     c0 ← getidx coords 0;
     c1 ← getidx coords 1;
     Ok (JStr "POINT", JStr (fmt c0 +:+ " " +:+ fmt c1)))
    (Ok (JNull, JNull)).

(** [text]: the bare [except] handles every exception. *)
Definition text (tweet : value) : result value :=
  try_except
    (ext ← getitem tweet "extended_tweet"; getitem ext "full_text")
    (getitem tweet "text").

(** The text as stored: [remove_nulls(text)] *)
Definition body_text (tweet : value) : result value :=
  text tweet ≫= remove_nulls.

(** [country_code] *)
Definition country_code (tweet : value) : result value :=
  try_except
    (place ← getitem tweet "place";
     cc ← getitem place "country_code";
     str_lower cc)
    (Ok JNull).

(** [state_code], given the [country_code] just computed *)
Definition state_code (tweet country : value) : result value :=
  if py_eqb country (JStr "us") then
    place ← getitem tweet "place";
    full_name ← getitem place "full_name";
    parts ← str_split full_name ","%char;
    comp ← getidx parts (-1);
    stripped ← str_strip comp;
    sc ← str_lower stripped;
    n ← py_len sc;
    Ok (if (n <=? 2)%nat then sc else JNull)
  else Ok JNull.

(** [country_code] and [state_code], one after the other *)
Definition codes (tweet : value) : result (value * value) :=
  country ← country_code tweet;
  state ← state_code tweet country;
  Ok (country, state).

(** [place_name] *)
Definition place_name (tweet : value) : result value :=
  try_except (place ← getitem tweet "place"; getitem place "full_name") (Ok JNull).

(** [tweet['extended_tweet']['entities'][kind]] *)
Definition extended_entity (tweet : value) (kind : string) : result value :=
  ext ← getitem tweet "extended_tweet";
  ents ← getitem ext "entities";
  getitem ents kind.

(** [tweet['entities'][kind]] *)
Definition default_entity (tweet : value) (kind : string) : result value :=
  ents ← getitem tweet "entities";
  getitem ents kind.

(** [urls] *)
Definition urls (tweet : value) : result value :=
  try_except_only KeyError (extended_entity tweet "urls")
    (default_entity tweet "urls").

(** [mentions] *)
Definition mentions (tweet : value) : result value :=
  try_except_only KeyError (extended_entity tweet "user_mentions")
    (default_entity tweet "user_mentions").

(** [hashtags] and [cashtags], taken in one [try] *)
Definition hashtags_cashtags (tweet : value) : result (value * value) :=
  try_except_only KeyError
    (hashtags ← extended_entity tweet "hashtags";
     cashtags ← extended_entity tweet "symbols";
     Ok (hashtags, cashtags))
    (hashtags ← default_entity tweet "hashtags";
     cashtags ← default_entity tweet "symbols";
     Ok (hashtags, cashtags)).

Definition hashtags (tweet : value) : result value :=
  fst <$> hashtags_cashtags tweet.
Definition cashtags (tweet : value) : result value :=
  snd <$> hashtags_cashtags tweet.

(** [media] *)
Definition media (tweet : value) : result value :=
  try_except_only KeyError
    (ext ← getitem tweet "extended_tweet";
     xe ← getitem ext "extended_entities";
     getitem xe "media")
    (try_except_only KeyError
       (xe ← getitem tweet "extended_entities"; getitem xe "media")
       (Ok (JList []))).

(** *** [_insert_tweets] and [insert_tweets] *)

(** The row lists that the first step fills *)
Record row_lists : Type := {
  users : list (list (string * value));
  tweets : list (list (string * value));
  users_unhydrated_from_tweets : list (list (string * value));
  users_unhydrated_from_mentions : list (list (string * value));
  tweet_mentions : list (list (string * value));
  tweet_tags : list (list (string * value));
  tweet_media : list (list (string * value));
  tweet_urls : list (list (string * value))
}.

Definition no_rows : row_lists :=
  {| users := []; tweets := []; users_unhydrated_from_tweets := [];
     users_unhydrated_from_mentions := []; tweet_mentions := [];
     tweet_tags := []; tweet_media := []; tweet_urls := [] |}.

(** The row appended to [users] *)
Definition user_row (tweet : value) : result (list (string * value)) :=
  let user_field k := (user ← getitem tweet "user"; getitem user k) in
  dict_display
    [("id_users", user_field "id");
     ("created_at", user_field "created_at");
     ("updated_at", getitem tweet "created_at");
     ("screen_name", user_field "screen_name" ≫= remove_nulls);
     ("name", user_field "name" ≫= remove_nulls);
     ("location", user_field "location" ≫= remove_nulls);
     ("url", user_field "url" ≫= remove_nulls);
     ("description", user_field "description" ≫= remove_nulls);
     ("protected", user_field "protected");
     ("verified", user_field "verified");
     ("friends_count", user_field "friends_count");
     ("listed_count", user_field "listed_count");
     ("favourites_count", user_field "favourites_count");
     ("statuses_count", user_field "statuses_count");
     ("withheld_in_countries",
      user ← getitem tweet "user"; get user "withheld_in_countries" JNull)].

(** The rows appended to [users_unhydrated_from_tweets] *)
Definition reply_rows (tweet : value) : result (list (list (string * value))) :=
  reply ← get tweet "in_reply_to_user_id" JNull;
  match reply with
  | JNull => Ok []
  | _ =>
      row ← dict_display
        [("id_users", getitem tweet "in_reply_to_user_id");
         ("screen_name", getitem tweet "in_reply_to_screen_name" ≫= remove_nulls)];
      Ok [row]
  end.

(** The row appended to [tweets], from the values computed before it *)
Definition tweet_row (tweet geo_coords geo_str text country state place : value)
  : result (list (string * value)) :=
  dict_display
    [("id_tweets", getitem tweet "id");
     ("id_users", user ← getitem tweet "user"; getitem user "id");
     ("created_at", getitem tweet "created_at");
     ("in_reply_to_status_id", get tweet "in_reply_to_status_id" JNull);
     ("in_reply_to_user_id", get tweet "in_reply_to_user_id" JNull);
     ("quoted_status_id", get tweet "quoted_status_id" JNull);
     ("geo_coords", Ok geo_coords);
     ("geo_str", Ok geo_str);
     ("retweet_count", get tweet "retweet_count" JNull);
     ("quote_count", get tweet "quote_count" JNull);
     ("favorite_count", get tweet "favorite_count" JNull);
     ("withheld_copyright", get tweet "withheld_copyright" JNull);
     ("withheld_in_countries", get tweet "withheld_in_countries" JNull);
     ("place_name", Ok place);
     ("country_code", Ok country);
     ("state_code", Ok state);
     ("lang", get tweet "lang" JNull);
     ("text", remove_nulls text);
     ("source", get tweet "source" JNull ≫= remove_nulls)].

(** One turn of the loop of the first step *)
Definition generate (ls : row_lists) (tweet : value) : result row_lists :=
  user ← user_row tweet;
  g ← geo tweet;
  text ← text tweet;
  country ← country_code tweet;
  state ← state_code tweet country;
  place ← place_name tweet;
  replies ← reply_rows tweet;
  trow ← tweet_row tweet (snd g) (fst g) text country state place;
  us ← urls tweet ≫= iterate;
  url_rows ← mapM (fun url_obj =>
                     dict_display
                       [("id_tweets", getitem tweet "id");
                        ("url", getitem url_obj "expanded_url" ≫= remove_nulls)]) us;
  ms ← mentions tweet ≫= iterate;
  mention_rows ← mapM (fun mention =>
                         stub ← dict_display
                           [("id_users", getitem mention "id");
                            ("name", getitem mention "name" ≫= remove_nulls);
                            ("screen_name",
                             getitem mention "screen_name" ≫= remove_nulls)];
                         link ← dict_display
                           [("id_tweets", getitem tweet "id");
                            ("id_users", getitem mention "id")];
                         Ok (stub, link)) ms;
  hc ← hashtags_cashtags tweet;
  hs ← iterate (fst hc);
  hs' ← mapM (fun h => t ← getitem h "text"; str_concat "#" t) hs;
  cs ← iterate (snd hc);
  cs' ← mapM (fun c => t ← getitem c "text"; str_concat "$" t) cs;
  tag_rows ← mapM (fun tag =>
                     dict_display
                       [("id_tweets", getitem tweet "id");
                        ("tag", remove_nulls tag)]) (hs' ++ cs');
  md ← media tweet ≫= iterate;
  media_rows ← mapM (fun medium =>
                       dict_display
                         [("id_tweets", getitem tweet "id");
                          ("url", getitem medium "media_url" ≫= remove_nulls);
                          ("type", getitem medium "type")]) md;
  Ok {| users := users ls ++ [user];
        tweets := tweets ls ++ [trow];
        users_unhydrated_from_tweets := users_unhydrated_from_tweets ls ++ replies;
        users_unhydrated_from_mentions :=
          users_unhydrated_from_mentions ls ++ map fst mention_rows;
        tweet_mentions := tweet_mentions ls ++ map snd mention_rows;
        tweet_tags := tweet_tags ls ++ tag_rows;
        tweet_media := tweet_media ls ++ media_rows;
        tweet_urls := tweet_urls ls ++ url_rows |}.

(** The first step: the loop over the batch *)
Fixpoint generate_all (ls : row_lists) (input_tweets : list value)
  : result row_lists :=
  match input_tweets with
  | [] => Ok ls
  | tweet :: rest => ls' ← generate ls tweet; generate_all ls' rest
  end.

(** The tuple of placeholders of row [i] in the statement for [tweets] *)
Definition tweets_tuple (i : nat) : string :=
  let p name := ":" +:+ name +:+ pretty i in
  "(" +:+ p "id_tweets" +:+ "," +:+ p "id_users" +:+ "," +:+ p "created_at" +:+
  "," +:+ p "in_reply_to_status_id" +:+ "," +:+ p "in_reply_to_user_id" +:+
  "," +:+ p "quoted_status_id" +:+
  ",ST_GeomFromText(" +:+ p "geo_str" +:+ " || '(' || " +:+ p "geo_coords" +:+
  " || ')')," +:+ p "retweet_count" +:+ "," +:+ p "quote_count" +:+
  "," +:+ p "favorite_count" +:+ "," +:+ p "withheld_copyright" +:+
  "," +:+ p "withheld_in_countries" +:+ "," +:+ p "place_name" +:+
  "," +:+ p "country_code" +:+ "," +:+ p "state_code" +:+ "," +:+ p "lang" +:+
  "," +:+ p "text" +:+ "," +:+ p "source" +:+ ")".

(** The statement for [tweets] *)
Definition tweets_sql (nrows : nat) : string :=
  "INSERT INTO tweets (id_tweets,id_users,created_at,in_reply_to_status_id,in_reply_to_user_id,quoted_status_id,geo,retweet_count,quote_count,favorite_count,withheld_copyright,withheld_in_countries,place_name,country_code,state_code,lang,text,source) VALUES "
  +:+ PyStr.join "," (map tweets_tuple (seq 0 nrows))
  +:+ " ON CONFLICT DO NOTHING".

(** The second step: one grouped insert after the other, stopping at the
    first that raises *)
Fixpoint bulk_inserts (conn : connection)
  (work : list (string * list (list (string * value))))
  : result unit * connection :=
  match work with
  | [] => (Ok (), conn)
  | (table, rows) :: work' =>
      match bulk_insert conn table rows with
      | (Ok _, conn') => bulk_inserts conn' work'
      | (Raise e, conn') => (Raise e, conn')
      end
  end.

(** [_insert_tweets(connection, input_tweets)] *)
Definition _insert_tweets (conn : connection) (input_tweets : list value)
  : result unit * connection :=
  match generate_all no_rows input_tweets with
  | Raise e => (Raise e, conn)
  | Ok ls =>
      match bulk_inserts conn
              [("users", users ls);
               ("users", users_unhydrated_from_tweets ls);
               ("users", users_unhydrated_from_mentions ls);
               ("tweet_mentions", tweet_mentions ls);
               ("tweet_tags", tweet_tags ls);
               ("tweet_media", tweet_media ls);
               ("tweet_urls", tweet_urls ls)] with
      | (Ok _, conn') =>
          (Ok (), conn' ++ [(tweets_sql (length (tweets ls)), binds_of (tweets ls))])
      | (Raise e, conn') => (Raise e, conn')
      end
  end.

(** [insert_tweets(connection, tweets, batch_size)] *)
Definition insert_tweets (conn : connection) (tweets : list value)
  (batch_size : Z) : result unit * connection :=
  match batch tweets batch_size with
  | Raise e => (Raise e, conn)
  | Ok chunks =>
      (fix loop (conn : connection) (chunks : list (list value)) :=
         match chunks with
         | [] => (Ok (), conn)
         | tweet_batch :: chunks' =>
             match _insert_tweets conn tweet_batch with
             | (Ok _, conn') => loop conn' chunks'
             | (Raise e, conn') => (Raise e, conn')
             end
         end) conn chunks
  end.

End Batch.
End Batch.

(** ** The record as objects of the interpreter

    The dicts and lists of a record are objects on a heap; a value is a
    scalar or a reference to such an object. [clean_dict] builds new objects
    and [ring.append] changes one in place. *)

Module Heap.

Definition loc : Type := positive.

Inductive hval (num : Type) : Type :=
| HNull
| HBool (b : bool)
| HNum (n : num)
| HStr (s : string)
| HRef (l : loc).
Arguments HNull {num}.
Arguments HBool {num} b.
Arguments HNum {num} n.
Arguments HStr {num} s.
Arguments HRef {num} l.

Inductive obj (num : Type) : Type :=
| ODict (items : list (string * hval num))
| OList (elems : list (hval num)).
Arguments ODict {num} items.
Arguments OList {num} elems.

Section Heap.
Context {num : Type} `{PyOps num}.
#[local] Abbreviation value := (value num).
#[local] Abbreviation hval := (hval num).
#[local] Abbreviation heap := (gmap loc (obj num)).

(** A new object *)
Definition alloc (o : obj num) (h : heap) : hval * heap :=
  let l := fresh (dom h) in (HRef l, <[l := o]> h).

(** [for x in xs] with a body [f] that yields a value and may change the heap *)
Fixpoint map_heap {A B} (f : A -> heap -> option (B * heap)) (xs : list A)
  (h : heap) : option (list B * heap) :=
  match xs with
  | [] => Some ([], h)
  | x :: xs' =>
      '(y, h1) ← f x h;
      '(ys, h2) ← map_heap f xs' h1;
      Some (y :: ys, h2)
  end.

(** [clean_dict(d)]: the comprehensions build a new dict or list; [fuel]
    bounds the depth of the calls. *)
Fixpoint clean_dict (fuel : nat) (d : hval) (h : heap) : option (hval * heap) :=
  match fuel with
  | O => None
  | S fuel' =>
      match d with
      | HRef l =>
          match h !! l with
          | Some (ODict items) =>
              '(items', h') ←
                map_heap (fun kv h0 =>
                            '(v', h1) ← clean_dict fuel' (snd kv) h0;
                            Some ((fst kv, v'), h1)) items h;
              Some (alloc (ODict items') h')
          | Some (OList elems) =>
              '(elems', h') ← map_heap (clean_dict fuel') elems h;
              Some (alloc (OList elems') h')
          | None => None
          end
      | HStr s => Some (HStr (PyStr.replace (String PyStr.NUL "") "" s), h)
      | _ => Some (d, h)
      end
  end.

(** [all of xs] read with [f] *)
Fixpoint map_option {A B} (f : A -> option B) (xs : list A) : option (list B) :=
  match xs with
  | [] => Some []
  | x :: xs' => y ← f x; ys ← map_option f xs'; Some (y :: ys)
  end.

(** The value a heap value stands for, read to depth [fuel] *)
Fixpoint denote (fuel : nat) (h : heap) (v : hval) : option value :=
  match fuel with
  | O => None
  | S fuel' =>
      match v with
      | HNull => Some JNull
      | HBool b => Some (JBool b)
      | HNum n => Some (JNum n)
      | HStr s => Some (JStr s)
      | HRef l =>
          match h !! l with
          | Some (ODict items) =>
              JDict <$> map_option
                (fun kv => v' ← denote fuel' h (snd kv); Some (fst kv, v')) items
          | Some (OList elems) => JList <$> map_option (denote fuel' h) elems
          | None => None
          end
      end
  end.

Fixpoint items_lookup (k : string) (items : list (string * hval)) : option hval :=
  match items with
  | [] => None
  | (k', v) :: items' => if String.eqb k' k then Some v else items_lookup k items'
  end.

(** [v[k]] for a string key *)
Definition getitem (h : heap) (v : hval) (k : string) : result hval :=
  match v with
  | HRef l =>
      match h !! l with
      | Some (ODict items) =>
          match items_lookup k items with
          | Some x => Ok x
          | None => Raise KeyError
          end
      | _ => Raise TypeError
      end
  | _ => Raise TypeError
  end.

(** [v[i]] for an integer index *)
Definition getidx (h : heap) (v : hval) (i : Z) : result hval :=
  match v with
  | HRef l =>
      match h !! l with
      | Some (OList elems) =>
          match list_index elems i with
          | Some x => Ok x
          | None => Raise IndexError
          end
      | Some (ODict _) => Raise KeyError
      | None => Raise TypeError
      end
  | HStr s =>
      match list_index (list_ascii_of_string s) i with
      | Some c => Ok (HStr (String c EmptyString))
      | None => Raise IndexError
      end
  | _ => Raise TypeError
  end.

(** [ring = tweet['place']['bounding_box']['coordinates'][0]], [ring[0]] and
    [ring[-1]] *)
Definition ring_ends (h : heap) (tweet : hval) : result (hval * hval * hval) :=
  place ← getitem h tweet "place";
  bb ← getitem h place "bounding_box";
  cs ← getitem h bb "coordinates";
  ring ← getidx h cs 0;
  first ← getidx h ring 0;
  last ← getidx h ring (-1);
  Ok (ring, first, last).

(** [v.append(x)]: the list object is changed in place. *)
Definition append (h : heap) (v x : hval) : result heap :=
  match v with
  | HRef l =>
      match h !! l with
      | Some (OList elems) => Ok (<[l := OList (elems ++ [x])]> h)
      | _ => Raise AttributeError
      end
  | _ => Raise AttributeError
  end.

(** The heap after the inner [try] of the WKT block: only the [append] can
    change it. *)
Definition close_ring (fuel : nat) (tweet : hval) (h : heap) : heap :=
  match ring_ends h tweet with
  | Ok (ring, first, last) =>
      match denote fuel h first, denote fuel h last with
      | Some a, Some b =>
          if negb (py_eqb a b)
          then match append h ring first with
               | Ok h' => h'
               | Raise _ => h
               end
          else h
      | _, _ => h
      end
  | Raise _ => h
  end.

(** The heap after the WKT block: the inner [try] runs when the point cannot
    be built. *)
Definition wkt_block (fuel : nat) (tweet : hval) (h : heap) : option heap :=
  t ← denote fuel h tweet;
  Some (if is_ok (Row.point_wkt t) then h else close_ring fuel tweet h).

(** The heap after [insert_tweet(connection, tweet)]. [found] is the answer
    of the existence check and [reached] tells whether the statements between
    [clean_dict] and the WKT block returned; nothing after the WKT block
    changes an object. *)
Definition insert_tweet (fuel : nat) (found reached : bool) (tweet : hval)
  (h : heap) : option heap :=
  if found then Some h
  else
    '(tweet', h1) ← clean_dict fuel tweet h;
    if reached then wkt_block fuel tweet' h1 else Some h1.

End Heap.
End Heap.

(** ** An interpreter instance for the examples

    A number is carried by the text Python prints for it, so that rendering a
    number or a string is the identity. *)

Definition lit_fmt (v : value string) : string :=
  match v with
  | JNull => "None"
  | JBool true => "True"
  | JBool false => "False"
  | JNum s => s
  | JStr s => s
  | JList _ => "[...]"
  | JDict _ => "{...}"
  end.

#[global] Instance lit_ops : PyOps string := {|
  num_eqb := String.eqb;
  num_of_bool := fun b : bool => if b then "1" else "0";
  num_of_nat := fun n : nat => pretty n;
  num_nonzero := fun s : string => negb (String.eqb s "0");
  fmt := lit_fmt
|}.

(** ** Example records *)

Definition ex_user : value string :=
  JDict [("id", JNum "7"); ("created_at", JStr "Mon Jan 01 00:00:00 +0000 2018");
         ("screen_name", JStr "alice"); ("name", JStr "Alice");
         ("location", JNull); ("url", JNull); ("description", JNull);
         ("protected", JBool false); ("verified", JBool false);
         ("friends_count", JNum "1"); ("listed_count", JNum "0");
         ("favourites_count", JNum "0"); ("statuses_count", JNum "3")].

Definition ex_entities (hashtags : list (value string)) : value string :=
  JDict [("urls", JList []); ("user_mentions", JList []);
         ("hashtags", JList hashtags); ("symbols", JList [])].

Definition sf_ring : list (value string) :=
  [JList [JNum "-122.5"; JNum "37.7"]; JList [JNum "-122.5"; JNum "37.9"];
   JList [JNum "-122.3"; JNum "37.9"]; JList [JNum "-122.3"; JNum "37.7"]].

Definition sf_place : value string :=
  JDict [("country_code", JStr "US"); ("full_name", JStr "San Francisco, CA");
         ("bounding_box", JDict [("coordinates", JList [JList sf_ring])])].

(** A post from a place with a bounding box and without direct coordinates *)
Definition place_tweet : value string :=
  JDict [("id", JNum "1"); ("created_at", JStr "Mon Jan 01 00:00:01 +0000 2018");
         ("text", JStr "hello"); ("user", ex_user); ("entities", ex_entities []);
         ("geo", JNull); ("place", sf_place)].

(** A post with direct coordinates and no place *)
Definition point_tweet : value string :=
  JDict [("id", JNum "3"); ("created_at", JStr "Mon Jan 01 00:00:03 +0000 2018");
         ("text", JStr "here"); ("user", ex_user); ("entities", ex_entities []);
         ("geo", JDict [("coordinates", JList [JNum "-122.4"; JNum "37.8"])]);
         ("place", JNull)].

(** A post whose extended container has the text and the hashtags only *)
Definition extended_tweet : value string :=
  JDict [("id", JNum "2"); ("created_at", JStr "Mon Jan 01 00:00:02 +0000 2018");
         ("text", JStr "short"); ("user", ex_user);
         ("entities", ex_entities [JDict [("text", JStr "cut")]]);
         ("extended_tweet",
          JDict [("full_text", JStr "short with more");
                 ("entities",
                  JDict [("hashtags", JList [JDict [("text", JStr "whole")]])])]);
         ("geo", JNull); ("place", JNull)].

(** Eleven rows over the columns [a] and [a1] *)
(** A post from a place whose full name holds a NUL *)
Definition nul_place_tweet : value string :=
  JDict [("id", JNum "4"); ("text", JStr "hi"); ("user", ex_user);
         ("entities", ex_entities []); ("geo", JNull);
         ("place",
          JDict [("country_code", JStr "US");
                 ("full_name",
                  JStr ("San Francisco, C" +:+ String PyStr.NUL "A"))])].

(** A post from a place that has a country code and no full name *)
Definition unnamed_place_tweet : value string :=
  JDict [("id", JNum "5"); ("text", JStr "hi"); ("user", ex_user);
         ("entities", ex_entities []); ("geo", JNull);
         ("place", JDict [("country_code", JStr "US")])].

(** A post that has the extended text only *)
Definition only_extended_tweet : value string :=
  JDict [("id", JNum "6"); ("user", ex_user); ("entities", ex_entities []);
         ("extended_tweet", JDict [("full_text", JStr "short with more")])].

(** A post whose extended container is [null] *)
Definition null_extended_tweet : value string :=
  JDict [("id", JNum "7"); ("text", JStr "short"); ("user", ex_user);
         ("entities", ex_entities []); ("extended_tweet", JNull)].

(** A post without any text *)
Definition textless_tweet : value string :=
  JDict [("id", JNum "8"); ("user", ex_user); ("entities", ex_entities [])].


(** The objects of a record with a place whose ring is open, and no direct
    coordinates; the record is the object at 1 and the ring the one at 5. *)
Definition ex_heap : gmap Heap.loc (Heap.obj string) :=
  list_to_map
    [(1%positive, Heap.ODict [("geo", Heap.HNull); ("place", Heap.HRef 2%positive)]);
     (2%positive, Heap.ODict [("bounding_box", Heap.HRef 3%positive)]);
     (3%positive, Heap.ODict [("coordinates", Heap.HRef 4%positive)]);
     (4%positive, Heap.OList [Heap.HRef 5%positive]);
     (5%positive, Heap.OList [Heap.HRef 6%positive; Heap.HRef 7%positive]);
     (6%positive, Heap.OList [Heap.HNum "-122.5"; Heap.HNum "37.7"]);
     (7%positive, Heap.OList [Heap.HNum "-122.5"; Heap.HNum "37.9"])].

Definition ex_record : value string :=
  JDict [("geo", JNull);
         ("place",
          JDict [("bounding_box",
                  JDict [("coordinates",
                          JList [JList [JList [JNum "-122.5"; JNum "37.7"];
                                        JList [JNum "-122.5"; JNum "37.9"]]])])])].

Definition empty_store : Row.store (num:=string) :=
  {| Row.tbl_urls := []; Row.tbl_users := []; Row.tbl_tweets := [];
     Row.tbl_tweet_urls := []; Row.tbl_tweet_mentions := [];
     Row.tbl_tweet_tags := []; Row.tbl_tweet_media := [] |}.

Definition fresh_conn : Row.conn (num:=string) :=
  {| Row.db := empty_store; Row.log := [] |}.

(** ** Notions used to state the properties *)

(** Every occurrence of the character [c] replaced by the string [r] *)
Fixpoint replace_each (c : ascii) (r s : string) : string :=
  match s with
  | EmptyString => EmptyString
  | String a s' =>
      (if Ascii.eqb a c then r else String a EmptyString) +:+ replace_each c r s'
  end.

(** Number of occurrences of the character [c] *)
Fixpoint count_char (c : ascii) (s : string) : nat :=
  match s with
  | EmptyString => 0
  | String a s' => (if Ascii.eqb a c then 1 else 0) + count_char c s'
  end.

(** The final comma-delimited component of a place's full name, trimmed *)
Definition final_component (full_name : string) : string :=
  PyStr.strip (List.last (PyStr.split ","%char full_name) "").

(** The characters of [s] are ASCII: on such a string the model's
    [lower], [strip] and [len] are the interpreter's. *)
Definition ascii_only (s : string) : bool :=
  forallb (fun c => (nat_of_ascii c <? 128)%nat) (list_ascii_of_string s).




(** Undoing the batch sanitizer's escape: every occurrence of the escape
    sequence is turned back into a NUL. *)
Definition reverse_escape (s : string) : string :=
  PyStr.replace "\x00" (String PyStr.NUL "") s.

Section Notions.
Context {num : Type}.
#[local] Abbreviation value := (value num).

(** The string leaves of a value, from left to right; the keys of a dict are
    not leaves. *)
Fixpoint str_leaves (v : value) : list string :=
  match v with
  | JStr s => [s]
  | JList l => concat (map str_leaves l)
  | JDict d => concat (map (fun kv => str_leaves (snd kv)) d)
  | _ => []
  end.

(** [strict_image v w]: [w] has the shape of [v] (the same keys in the same
    order, the same number of elements in the same order, the same leaves that
    are not strings) and each string leaf of [w] is the leaf of [v] with its
    NUL characters deleted. *)
Inductive strict_image : value -> value -> Prop :=
| si_null : strict_image JNull JNull
| si_bool b : strict_image (JBool b) (JBool b)
| si_num n : strict_image (JNum n) (JNum n)
| si_str s : strict_image (JStr s) (JStr (replace_each PyStr.NUL "" s))
| si_list l l' : Forall2 strict_image l l' -> strict_image (JList l) (JList l')
| si_dict d d' :
    Forall2 (fun kv kv' => fst kv = fst kv' /\ strict_image (snd kv) (snd kv')) d d' ->
    strict_image (JDict d) (JDict d').

(** The number of levels of a value: one for a leaf, one more than its
    deepest element or field for a list or a dict. *)
Fixpoint value_depth (v : value) : nat :=
  match v with
  | JList l => S (foldr Nat.max 0 (map value_depth l))
  | JDict d => S (foldr Nat.max 0 (map (fun kv => value_depth (snd kv)) d))
  | _ => 1
  end.

(** The empty list inside [n] lists, as [json.loads] yields it from [n + 1]
    opening and as many closing brackets. *)
Fixpoint nested (n : nat) : value :=
  match n with
  | O => JList []
  | S n' => JList [nested n']
  end.


(** The entries of the bind dict, in the order in which they are stored *)
Definition bind_entries (rows : list (list (string * value)))
  : list (string * value) :=
  flat_map (fun ir => map (fun kv => (fst kv +:+ pretty (fst ir), snd kv)) (snd ir))
           (Batch.enumerate rows).

Definition store_entry (m : gmap string value) (nv : string * value)
  : gmap string value := <[fst nv := snd nv]> m.

(** Every object reachable from [v] within [fuel] steps lies outside [X]. *)
Fixpoint fresh_tree (fuel : nat) (X : gset Heap.loc)
  (h : gmap Heap.loc (Heap.obj num)) (v : Heap.hval num) : Prop :=
  match v with
  | Heap.HRef l =>
      match fuel with
      | O => False
      | S fuel' =>
          (l ∉ X) /\
          match h !! l with
          | Some (Heap.ODict items) =>
              Forall (fun kv => fresh_tree fuel' X h (snd kv)) items
          | Some (Heap.OList elems) => Forall (fresh_tree fuel' X h) elems
          | None => False
          end
      end
  | _ => True
  end.

End Notions.

Section StoreNotions.
Context {num : Type} `{PyOps num}.
#[local] Abbreviation value := (value num).
#[local] Abbreviation conn := (@Row.conn num).
#[local] Abbreviation store := (@Row.store num).
#[local] Abbreviation M := (@Row.M num).
Implicit Types (c : conn) (s : store) (tweet id : value).

(** The post [id] has a row in [tweets]. *)
Definition has_tweet id s : Prop := In id (map fst (Row.tbl_tweets s)).

(** [m], when it returns, leaves a store satisfying [Q]. *)
Definition post {A} (m : M A) (Q : store -> Prop) : Prop :=
  forall c a c', m c = (Ok a, c') -> Q (Row.db c').

(** [m], when it returns, keeps [Q]. *)
Definition keeps {A} (Q : store -> Prop) (m : M A) : Prop :=
  forall c a c', m c = (Ok a, c') -> Q (Row.db c) -> Q (Row.db c').

(** What [m] returns and the store it leaves depend on the store only, not
    on what the connection was asked before. *)
Definition db_only {A} (m : M A) : Prop :=
  forall c c', Row.db c = Row.db c' ->
    fst (m c) = fst (m c') /\ Row.db (snd (m c)) = Row.db (snd (m c')).

End StoreNotions.

Section PlaceNotions.
Context {num : Type} `{PyOps num}.

(** [s] is the country code or the full name of the place of [tweet]. *)
Definition place_string (tweet : value num) (s : string) : Prop :=
  exists place k,
    getitem tweet "place" = Ok place /\
    (k = "country_code" \/ k = "full_name") /\
    getitem place k = Ok (JStr s).

End PlaceNotions.

(** *** Notions for the further properties *)

(** The columns of the rows that [_insert_tweets] prepares, list by list *)
Definition user_columns : list string :=
  ["id_users"; "created_at"; "updated_at"; "screen_name"; "name"; "location";
   "url"; "description"; "protected"; "verified"; "friends_count";
   "listed_count"; "favourites_count"; "statuses_count"; "withheld_in_countries"].

Definition tweet_columns : list string :=
  ["id_tweets"; "id_users"; "created_at"; "in_reply_to_status_id";
   "in_reply_to_user_id"; "quoted_status_id"; "geo_coords"; "geo_str";
   "retweet_count"; "quote_count"; "favorite_count"; "withheld_copyright";
   "withheld_in_countries"; "place_name"; "country_code"; "state_code"; "lang";
   "text"; "source"].

Section BatchNotions.
Context {num : Type} `{PyOps num}.
#[local] Abbreviation value := (value num).

(** Every row of [rows] has exactly the columns [ks], in that order. *)
Definition columns_are (ks : list string) (rows : list (list (string * value)))
  : Prop :=
  Forall (fun row => dict_keys row = ks) rows.

(** Every list has the columns that its rows are built with. *)
Definition lists_shaped (ls : Batch.row_lists) : Prop :=
  columns_are user_columns (Batch.users ls) /\
  columns_are tweet_columns (Batch.tweets ls) /\
  columns_are ["id_users"; "screen_name"] (Batch.users_unhydrated_from_tweets ls) /\
  columns_are ["id_users"; "name"; "screen_name"]
              (Batch.users_unhydrated_from_mentions ls) /\
  columns_are ["id_tweets"; "id_users"] (Batch.tweet_mentions ls) /\
  columns_are ["id_tweets"; "tag"] (Batch.tweet_tags ls) /\
  columns_are ["id_tweets"; "url"; "type"] (Batch.tweet_media ls) /\
  columns_are ["id_tweets"; "url"] (Batch.tweet_urls ls).

(** The row [row] carries the post id of the record [tweet]. *)
Definition row_of_tweet (tweet : value) (row : list (string * value)) : Prop :=
  exists v, getitem tweet "id" = Ok v /\ dict_lookup "id_tweets" row = Some v.

(** The row [row] carries the author id of the record [tweet]. *)
Definition row_of_author (tweet : value) (row : list (string * value)) : Prop :=
  exists u v, getitem tweet "user" = Ok u /\ getitem u "id" = Ok v /\
              dict_lookup "id_users" row = Some v.

(** The extended container of the record with items [d] is absent or is a
    dict whose [entities] are absent or a dict. *)
Definition extended_shaped (d : list (string * value)) : Prop :=
  match dict_lookup "extended_tweet" d with
  | None => True
  | Some (JDict ext) =>
      match dict_lookup "entities" ext with
      | None | Some (JDict _) => True
      | Some _ => False
      end
  | Some _ => False
  end.

End BatchNotions.

Section MoreStoreNotions.
Context {num : Type} `{PyOps num}.
#[local] Abbreviation value := (value num).
#[local] Abbreviation store := (@Row.store num).

(** Every relation of [s'] starts with the rows of the same relation of [s],
    unchanged and in the same order. *)
Definition store_le (s s' : store) : Prop :=
  Row.tbl_urls s `prefix_of` Row.tbl_urls s' /\
  Row.tbl_users s `prefix_of` Row.tbl_users s' /\
  Row.tbl_tweets s `prefix_of` Row.tbl_tweets s' /\
  Row.tbl_tweet_urls s `prefix_of` Row.tbl_tweet_urls s' /\
  Row.tbl_tweet_mentions s `prefix_of` Row.tbl_tweet_mentions s' /\
  Row.tbl_tweet_tags s `prefix_of` Row.tbl_tweet_tags s' /\
  Row.tbl_tweet_media s `prefix_of` Row.tbl_tweet_media s'.

(** A property of the store that more rows cannot break *)
Definition upward (Q : store -> Prop) : Prop :=
  forall s s', store_le s s' -> Q s -> Q s'.

(** No relation of [s] has two rows with the same key. *)
Definition store_unique (s : store) : Prop :=
  List.NoDup (map snd (Row.tbl_urls s)) /\
  List.NoDup (map fst (Row.tbl_users s)) /\
  List.NoDup (map fst (Row.tbl_tweets s)) /\
  List.NoDup (Row.tbl_tweet_urls s) /\
  List.NoDup (Row.tbl_tweet_mentions s) /\
  List.NoDup (Row.tbl_tweet_tags s) /\
  List.NoDup (Row.tbl_tweet_media s).

(** The account [id] has a row in [users]. *)
Definition has_user (id : value) (s : store) : Prop :=
  In id (map fst (Row.tbl_users s)).



End MoreStoreNotions.

(** * Properties *)

(** Running the binds and the handlers of a result whose head is known *)
Ltac py_simpl :=
  cbn [mbind result_bind mret result_ret fmap result_fmap
       try_except try_except_only].

(** ** Strings *)

Example replace_doc_1 : PyStr.replace "l" "LL" "hello" = "heLLLLo".
Proof. reflexivity. Qed.
Example replace_doc_2 : PyStr.replace "aa" "b" "aaa" = "ba".
Proof. reflexivity. Qed.
Example split_doc : PyStr.split ","%char "San Francisco, CA" = ["San Francisco"; " CA"].
Proof. reflexivity. Qed.
Example strip_doc : PyStr.strip "  C A " = "C A".
Proof. reflexivity. Qed.


Lemma startswith_cons (a b : ascii) (p s : string) :
  PyStr.startswith (String a p) (String b s) =
  Ascii.eqb a b && PyStr.startswith p s.
Proof. reflexivity. Qed.

Lemma replace_single (a : ascii) (new s : string) :
  PyStr.replace (String a "") new s = replace_each a new s.
Proof.
  unfold PyStr.replace.
  induction s as [|c s IH]; simpl; [reflexivity|].
  rewrite (Ascii.eqb_sym a c), andb_true_r.
  destruct (Ascii.eqb c a); simpl; now rewrite IH.
Qed.

Lemma has_char_app (c : ascii) (s t : string) :
  PyStr.has_char c (s +:+ t) = PyStr.has_char c s || PyStr.has_char c t.
Proof.
  induction s as [|a s IH]; simpl; [reflexivity|].
  now rewrite IH, orb_assoc.
Qed.

Lemma length_app (s t : string) :
  String.length (s +:+ t) = String.length s + String.length t.
Proof. induction s as [|a s IH]; simpl; [reflexivity|now rewrite IH]. Qed.

Lemma replace_each_no_char (c : ascii) (r s : string) :
  PyStr.has_char c r = false ->
  PyStr.has_char c (replace_each c r s) = false.
Proof.
  intros Hr. induction s as [|a s IH]; simpl; [reflexivity|].
  rewrite has_char_app, IH, orb_false_r.
  destruct (Ascii.eqb a c) eqn:E; simpl; [exact Hr|now rewrite E].
Qed.

Lemma replace_each_length (c : ascii) (r s : string) :
  String.length (replace_each c r s) + count_char c s =
  String.length s + count_char c s * String.length r.
Proof.
  induction s as [|a s IH]; simpl; [reflexivity|].
  rewrite length_app.
  destruct (Ascii.eqb a c); simpl; lia.
Qed.

Lemma delete_length_le (c : ascii) (s : string) :
  String.length (replace_each c "" s) <= String.length s.
Proof.
  pose proof (replace_each_length c "" s) as E. simpl in E. lia.
Qed.

(** A pattern free of NUL and of backslash is a prefix of the escaped string
    exactly when it is a prefix of the string. *)
Lemma replace_each_absent (c : ascii) (r s : string) :
  PyStr.has_char c s = false -> replace_each c r s = s.
Proof.
  induction s as [|a s IH]; simpl; [reflexivity|].
  intros Hs. apply orb_false_elim in Hs as [Ha Hs].
  rewrite Ha, IH by exact Hs. reflexivity.
Qed.

Lemma delete_nul_twice (s : string) :
  replace_each PyStr.NUL "" (replace_each PyStr.NUL "" s) =
  replace_each PyStr.NUL "" s.
Proof. apply replace_each_absent. now apply replace_each_no_char. Qed.

Lemma startswith_escaped (p s : string) :
  PyStr.has_char PyStr.NUL p = false ->
  PyStr.has_char "\"%char p = false ->
  PyStr.startswith p (replace_each PyStr.NUL "\x00" s) = PyStr.startswith p s.
Proof.
  revert s. induction p as [|a p IH]; intros s Hn Hb; [now destruct s|].
  simpl in Hn, Hb.
  apply orb_false_elim in Hn as [Hn1 Hn2], Hb as [Hb1 Hb2].
  destruct s as [|d s]; [reflexivity|]. simpl.
  destruct (Ascii.eqb d PyStr.NUL) eqn:E.
  - apply Ascii.eqb_eq in E. subst d. simpl. now rewrite Hb1, Hn1.
  - change (String d "" +:+ ?t) with (String d t). cbn [PyStr.startswith].
    now rewrite IH.
Qed.

Lemma reverse_escape_escaped (s : string) :
  PyStr.contains "\x00" s = false ->
  reverse_escape (replace_each PyStr.NUL "\x00" s) = s.
Proof.
  unfold reverse_escape, PyStr.replace.
  induction s as [|c s IH]; intros Hc; [reflexivity|].
  cbn [PyStr.contains] in Hc. apply orb_false_elim in Hc as [Hp Hc].
  cbn [replace_each].
  destruct (Ascii.eqb c PyStr.NUL) eqn:E.
  - apply Ascii.eqb_eq in E. subst c.
    change ("\x00" +:+ ?t) with (String "\" (String "x" (String "0" (String "0" t)))).
    cbn. rewrite IH by assumption.
    reflexivity.
  - change (String c "" +:+ ?t) with (String c t). cbn [PyStr.replace_go].
    assert (PyStr.startswith "\x00" (String c (replace_each PyStr.NUL "\x00" s))
            = false) as ->.
    { rewrite startswith_cons in Hp |- *.
      now rewrite (startswith_escaped "x00" s). }
    now rewrite IH.
Qed.

(** The doctests of the two [remove_nulls] *)
Example row_remove_nulls_doc :
  Row.remove_nulls (num:=string) (JStr (String PyStr.NUL "")) = Ok (JStr "") /\
  Row.remove_nulls (num:=string) (JStr ("hello" +:+ String PyStr.NUL " world"))
  = Ok (JStr "hello world").
Proof. split; reflexivity. Qed.

Example batch_remove_nulls_doc :
  Batch.remove_nulls (num:=string) (JStr (String PyStr.NUL "")) = Ok (JStr "\x00") /\
  Batch.remove_nulls (num:=string) (JStr ("hello" +:+ String PyStr.NUL " world"))
  = Ok (JStr "hello\x00 world").
Proof. split; reflexivity. Qed.

(** ** Values *)

Section ValueInduction.
Context {num : Type}.
#[local] Abbreviation value := (value num).

Lemma value_ind' (P : value -> Prop) :
  P JNull ->
  (forall b, P (JBool b)) ->
  (forall n, P (JNum n)) ->
  (forall s, P (JStr s)) ->
  (forall l, Forall P l -> P (JList l)) ->
  (forall d, Forall (fun kv => P (snd kv)) d -> P (JDict d)) ->
  forall v, P v.
Proof.
  intros Hnull Hbool Hnum Hstr Hlist Hdict.
  fix IH 1. intros [ | b | n | s | l | d ].
  - exact Hnull.
  - apply Hbool.
  - apply Hnum.
  - apply Hstr.
  - apply Hlist. induction l as [|x l IHl]; constructor; [apply IH|exact IHl].
  - apply Hdict. induction d as [|[k x] d IHd]; constructor; [apply IH|exact IHd].
Qed.

End ValueInduction.

(** ** The sanitizers *)

Section Sanitizers.
Context {num : Type} `{PyOps num}.
#[local] Abbreviation value := (value num).

Lemma clean_dict_image (d : value) : strict_image d (Row.clean_dict d).
Proof.
  induction d as [ | b | n | s | l IH | kvs IH ] using value_ind'; simpl;
    try constructor.
  - rewrite replace_single. constructor.
  - induction IH as [|x l Hx _ IHl]; simpl; constructor; assumption.
  - induction IH as [|[k x] l Hx _ IHl]; simpl; constructor;
      [split; [reflexivity|exact Hx]|assumption].
Qed.

Lemma strict_image_leaves (v w : value) :
  strict_image v w ->
  str_leaves w = map (replace_each PyStr.NUL "") (str_leaves v).
Proof.
  revert w. induction v as [ | b | n | s | l IH | kvs IH ] using value_ind';
    intros w Hvw; inversion Hvw; subst; simpl; try reflexivity.
  - clear Hvw. match goal with Hf : Forall2 _ l _ |- _ =>
      induction Hf as [|x y xs ys Hxy _ IHf] end; [reflexivity|].
    apply Forall_cons in IH as [Hx Hxs]. simpl.
    rewrite map_app, (Hx _ Hxy), (IHf Hxs). reflexivity.
  - clear Hvw. match goal with Hf : Forall2 _ kvs _ |- _ =>
      induction Hf as [|x y xs ys [_ Hxy] _ IHf] end; [reflexivity|].
    apply Forall_cons in IH as [Hx Hxs]. simpl.
    rewrite map_app, (Hx _ Hxy), (IHf Hxs). reflexivity.
Qed.

(** Within the room the interpreter has, [clean_dict] gives what the
    recursion on the value gives; with less room it raises. *)
Lemma mapM_within {A B} (f : A -> result B) (g : A -> B) (h : A -> nat)
  (room : nat) (l : list A) :
  (forall x, f x = if (h x <=? room)%nat then Ok (g x) else Raise RecursionError) ->
  mapM f l = if (foldr Nat.max 0 (map h l) <=? room)%nat
             then Ok (map g l) else Raise RecursionError.
Proof.
  intros Hf. induction l as [|x l IH]; [reflexivity|].
  cbn [mapM map foldr]. rewrite Hf, IH.
  destruct (Nat.leb_spec (h x) room), (Nat.leb_spec (foldr Nat.max 0 (map h l)) room),
    (Nat.leb_spec (Nat.max (h x) (foldr Nat.max 0 (map h l))) room);
    try reflexivity; lia.
Qed.

Lemma clean_dict_within_spec (room : nat) (d : value) :
  Row.clean_dict_within room d =
  if (value_depth d <=? room)%nat then Ok (Row.clean_dict d)
  else Raise RecursionError.
Proof.
  revert d. induction room as [|room IH]; intros d.
  - destruct d; reflexivity.
  - destruct d as [ | b | n | s | l | kvs ]; try reflexivity.
    + cbn [Row.clean_dict_within Row.clean_dict value_depth].
      rewrite (mapM_within _ Row.clean_dict value_depth room l IH).
      change (S ?a <=? S ?b)%nat with (a <=? b)%nat.
      destruct (_ <=? _)%nat; reflexivity.
    + cbn [Row.clean_dict_within Row.clean_dict value_depth].
      rewrite (mapM_within _ (fun kv => (fst kv, Row.clean_dict (snd kv)))
                 (fun kv => value_depth (snd kv)) room kvs).
      * change (S ?a <=? S ?b)%nat with (a <=? b)%nat.
        destruct (_ <=? _)%nat; reflexivity.
      * intros kv. rewrite IH. destruct (_ <=? _)%nat; reflexivity.
Qed.

Lemma value_depth_nested (n : nat) : value_depth (nested (num:=num) n) = S n.
Proof. induction n as [|n IH]; simpl; [reflexivity|]. rewrite IH. lia. Qed.

(** C7 (amended). On a value with no more levels of nesting than the
    interpreter's recursion limit leaves room for, [clean_dict] returns, and on
    a deeper one it raises [RecursionError]. What it returns has the shape of
    the input (same keys, same element order and counts, leaves that are not
    strings unchanged) and every string leaf is the input's leaf with its NUL
    characters deleted: it holds no NUL and is no longer than the input's. The
    row strategy's [remove_nulls] does the same on one string and passes
    [None] through. *)
Theorem clean_dict_strict (room : nat) (d : value) :
  (value_depth d <= room ->
   Row.clean_dict_within room d = Ok (Row.clean_dict d)) /\
  (room < value_depth d ->
   Row.clean_dict_within room d = Raise RecursionError) /\
  strict_image d (Row.clean_dict d) /\
  Forall (fun s => PyStr.has_char PyStr.NUL s = false)
         (str_leaves (Row.clean_dict d)) /\
  Forall2 (fun s s' => String.length s' <= String.length s)
          (str_leaves d) (str_leaves (Row.clean_dict d)) /\
  (forall s, exists s',
      Row.remove_nulls (num:=num) (JStr s) = Ok (JStr s') /\
      Row.clean_dict (num:=num) (JStr s) = JStr s' /\
      s' = replace_each PyStr.NUL "" s /\
      PyStr.has_char PyStr.NUL s' = false /\
      String.length s' <= String.length s) /\
  Row.remove_nulls (num:=num) JNull = Ok JNull.
Proof.
  split; [|split].
  { intros Hd. rewrite clean_dict_within_spec.
    destruct (Nat.leb_spec (value_depth d) room); [reflexivity|lia]. }
  { intros Hd. rewrite clean_dict_within_spec.
    destruct (Nat.leb_spec (value_depth d) room); [lia|reflexivity]. }
  pose proof (strict_image_leaves _ _ (clean_dict_image d)) as E.
  split; [apply clean_dict_image|]. rewrite E.
  split; [|split; [|split; [|reflexivity]]].
  - apply Forall_forall. intros s Hin. apply list_elem_of_In, in_map_iff in Hin.
    destruct Hin as (s0 & <- & _). now apply replace_each_no_char.
  - apply Forall2_fmap_r, Forall_Forall2_diag, Forall_forall.
    intros s _. apply delete_length_le.
  - intros s. exists (replace_each PyStr.NUL "" s). simpl.
    rewrite replace_single. repeat split.
    + now apply replace_each_no_char.
    + apply delete_length_le.
Qed.

(** C2 (amended). The batch strategy's [remove_nulls] replaces each NUL by the
    four characters backslash, [x], [0], [0]: the result holds no NUL and is
    three characters longer per NUL. Reversing the escape gives the original
    string back for every string that does not already contain that
    four-character sequence. *)
Theorem remove_nulls_escape (s : string) :
  exists e,
    Batch.remove_nulls (num:=num) (JStr s) = Ok (JStr e) /\
    e = replace_each PyStr.NUL "\x00" s /\
    PyStr.has_char PyStr.NUL e = false /\
    String.length e = String.length s + 3 * count_char PyStr.NUL s /\
    (PyStr.contains "\x00" s = false -> reverse_escape e = s).
Proof.
  exists (replace_each PyStr.NUL "\x00" s). simpl. rewrite replace_single.
  repeat split.
  - now apply replace_each_no_char.
  - pose proof (replace_each_length PyStr.NUL "\x00" s) as E. simpl in E. lia.
  - apply reverse_escape_escaped.
Qed.

End Sanitizers.

Lemma remove_nulls_escape_witness :
  PyStr.contains "\x00" ("hello" +:+ String PyStr.NUL " world") = false /\
  reverse_escape (replace_each PyStr.NUL "\x00" ("hello" +:+ String PyStr.NUL " world"))
  = "hello" +:+ String PyStr.NUL " world".
Proof.
  split; [reflexivity|].
  destruct (remove_nulls_escape (num:=string) ("hello" +:+ String PyStr.NUL " world"))
    as (e & _ & -> & _ & _ & Hrev).
  apply Hrev. reflexivity.
Defined.

Lemma clean_dict_strict_witness :
  let d : value string :=
    JDict [("text", JStr (String "a" (String PyStr.NUL "b")));
           ("tags", JList [JStr "x"; JNull])] in
  Row.clean_dict_within 3 d =
  Ok (JDict [("text", JStr "ab"); ("tags", JList [JStr "x"; JNull])]) /\
  Row.clean_dict_within 2 d = Raise RecursionError.
Proof.
  intros d. split.
  - destruct (clean_dict_strict 3 d) as (Hin & _). rewrite Hin; [reflexivity|].
    vm_compute. lia.
  - destruct (clean_dict_strict 2 d) as (_ & Hout & _). apply Hout.
    vm_compute. lia.
Defined.

(** The claim C7 as stated fails: whatever room the interpreter has,
    [clean_dict] raises [RecursionError] on the empty list nested once more
    than that, a value that [json.loads] yields; so it does not return on
    every input. *)
Lemma clean_dict_recursion_limit :
  (forall room : nat,
      Row.clean_dict_within (num:=string) room (nested room)
      = Raise RecursionError) /\
  Row.clean_dict_within (num:=string) 2 (JList [JList [JList []]])
  = Raise RecursionError /\
  Row.clean_dict_within (num:=string) 3 (JList [JList [JList []]])
  = Ok (JList [JList [JList []]]).
Proof.
  split; [|split; reflexivity].
  intros room. rewrite clean_dict_within_spec, value_depth_nested.
  destruct (Nat.leb_spec (S room) room); [lia|reflexivity].
Qed.

(** The claim C2 as stated fails: the escape of one NUL is four characters
    long, and a string that already holds the escape sequence is sent to the
    same output as the string with a NUL in its place, so that reversing the
    escape does not give it back. *)
Lemma remove_nulls_escape_not_invertible :
  Batch.remove_nulls (num:=string) (JStr (String PyStr.NUL "")) = Ok (JStr "\x00") /\
  String.length "\x00" = 4 /\
  Batch.remove_nulls (num:=string) (JStr "\x00") = Ok (JStr "\x00") /\
  reverse_escape "\x00" <> "\x00".
Proof. repeat split; discriminate. Qed.

(** ** The batch assembler *)

Section Batching.
Context {A : Type}.
Implicit Types (xs : list A) (k m : nat).

Lemma div_up_bounds (l k : nat) :
  0 < k -> l <= (l + k - 1) / k * k /\ (0 < l -> ((l + k - 1) / k - 1) * k < l).
Proof.
  intros Hk.
  pose proof (Nat.div_mod_eq (l + k - 1) k) as E.
  pose proof (Nat.mod_upper_bound (l + k - 1) k ltac:(lia)) as U.
  split; [nia|]. intros Hl.
  assert (1 <= (l + k - 1) / k) by (apply Nat.div_le_lower_bound; lia).
  nia.
Qed.

Lemma range_loop_spec (step fuel ndx stop : nat) :
  0 < step -> stop - ndx <= fuel ->
  Batch.range_loop fuel ndx stop step =
  map (fun j => ndx + j * step) (seq 0 ((stop - ndx + step - 1) / step)).
Proof.
  intros Hstep. revert ndx.
  induction fuel as [|fuel IH]; intros ndx Hfuel; simpl.
  - replace (stop - ndx) with 0 by lia.
    rewrite Nat.div_small by lia. reflexivity.
  - destruct (Nat.ltb_spec ndx stop) as [Hlt|Hge].
    + rewrite IH by lia.
      replace ((stop - ndx + step - 1) / step)
        with (S ((stop - (ndx + step) + step - 1) / step)).
      * cbn [seq map]. f_equal; [lia|]. rewrite <- seq_shift, map_map.
        apply map_ext. intros j. lia.
      * destruct (Nat.le_gt_cases step (stop - ndx)) as [Hs|Hs].
        -- replace (stop - ndx + step - 1)
             with (stop - (ndx + step) + step - 1 + 1 * step) by lia.
           rewrite Nat.div_add by lia. lia.
        -- replace (stop - (ndx + step)) with 0 by lia.
           rewrite (Nat.div_small (0 + step - 1)) by lia.
           apply Nat.div_unique with (r := stop - ndx - 1); lia.
    + replace (stop - ndx) with 0 by lia.
      rewrite Nat.div_small by lia. reflexivity.
Qed.

Lemma chunks_concat xs k m :
  concat (map (fun ndx => Batch.slice xs ndx (Nat.min (ndx + k) (length xs)))
              (map (fun j => 0 + j * k) (seq 0 m)))
  = take (m * k) xs.
Proof.
  induction m as [|m IH]; [reflexivity|].
  rewrite seq_S, !map_app, concat_app, IH. cbn [map concat].
  rewrite app_nil_r. unfold Batch.slice.
  replace (S m * k) with (m * k + k) by lia.
  rewrite <- take_take_drop. f_equal. rewrite !Nat.add_0_l.
  destruct (Nat.le_gt_cases (m * k + k) (length xs)) as [Hle|Hgt].
  - f_equal. lia.
  - rewrite !take_ge; [reflexivity| |]; rewrite length_drop; lia.
Qed.

(** C9. For a positive batch size [n], [batch] yields ceil(len/n) chunks whose
    concatenation in order is the input; every chunk has at most [n] records
    and every chunk but the last has exactly [n]. *)
Theorem batch_partition xs (n : Z) :
  (0 < n)%Z ->
  exists chunks,
    Batch.batch xs n = Ok chunks /\
    Z.of_nat (length chunks) = ((Z.of_nat (length xs) + n - 1) / n)%Z /\
    concat chunks = xs /\
    Forall (fun c => (Z.of_nat (length c) <= n)%Z) chunks /\
    (forall i c, S i < length chunks -> chunks !! i = Some c ->
                 Z.of_nat (length c) = n).
Proof.
  intros Hn. unfold Batch.batch, Batch.py_range.
  destruct (Z.eqb_spec n 0) as [?|_]; [lia|].
  destruct (Z.ltb_spec n 0) as [?|_]; [lia|].
  set (k := Z.to_nat n). set (l := length xs).
  assert (Hk : 0 < k) by (subst k; lia).
  rewrite range_loop_spec by lia. rewrite Nat.sub_0_r.
  set (m := (l + k - 1) / k).
  destruct (div_up_bounds l k Hk) as [Hup Hlow]. fold m in Hup, Hlow.
  eexists. split; [reflexivity|]. cbn [mbind].
  split; [|split; [|split]].
  - rewrite !length_map, length_seq. subst m.
    rewrite Nat2Z.inj_div, Nat2Z.inj_sub, Nat2Z.inj_add by lia.
    subst k. rewrite Z2Nat.id by lia. reflexivity.
  - subst l. rewrite chunks_concat. apply take_ge. lia.
  - apply Forall_forall. intros c Hc.
    apply list_elem_of_In, in_map_iff in Hc as (ndx & <- & _).
    unfold Batch.slice. rewrite length_take. lia.
  - intros i c Hi Hc. rewrite !length_map, length_seq in Hi.
    change (map ?f ?l) with (f <$> l) in Hc.
    rewrite !list_lookup_fmap, lookup_seq_lt in Hc by lia.
    simpl in Hc. injection Hc as <-.
    unfold Batch.slice. rewrite length_take, length_drop.
    assert (S i * k <= (m - 1) * k) by (apply Nat.mul_le_mono_r; lia).
    assert (0 < l) by (destruct l; [subst m; rewrite Nat.div_small in Hi; lia|lia]).
    specialize (Hlow ltac:(lia)). fold l. lia.
Qed.

End Batching.

(** The doctests of [batch] *)
Example batch_doc :
  Batch.batch [1; 2; 3; 4; 5] 2 = Ok [[1; 2]; [3; 4]; [5]] /\
  Batch.batch [1; 2; 3; 4; 5; 6] 2 = Ok [[1; 2]; [3; 4]; [5; 6]] /\
  Batch.batch [1; 2; 3; 4; 5] 3 = Ok [[1; 2; 3]; [4; 5]] /\
  Batch.batch [1; 2; 3; 4; 5; 6] 3 = Ok [[1; 2; 3]; [4; 5; 6]] /\
  Batch.batch [1; 2; 3] 0 = Raise ValueError.
Proof. repeat split. Qed.

Lemma batch_partition_witness :
  (0 < 2)%Z /\
  Batch.batch [1; 2; 3; 4; 5] 2 = Ok [[1; 2]; [3; 4]; [5]] /\
  Batch.batch [1; 2; 3; 4; 5; 6] 3 = Ok [[1; 2; 3]; [4; 5; 6]].
Proof.
  split; [lia|].
  destruct (batch_partition [1; 2; 3; 4; 5] 2 ltac:(lia)) as (c & Hc & _).
  split; [rewrite Hc; vm_compute in Hc; congruence | reflexivity].
Defined.

(** ** Reading the sanitized record *)

Section SanitizedReads.
Context {num : Type} `{PyOps num}.
#[local] Abbreviation value := (value num).

Lemma dict_lookup_clean (k : string) (d : list (string * value)) :
  dict_lookup k (map (fun kv => (fst kv, Row.clean_dict (snd kv))) d) =
  Row.clean_dict <$> dict_lookup k d.
Proof.
  induction d as [|[k' x] d IH]; simpl; [reflexivity|].
  destruct (String.eqb k' k); [reflexivity|exact IH].
Qed.

Lemma getitem_clean_fmap (v : value) (k : string) :
  getitem (Row.clean_dict v) k = Row.clean_dict <$> getitem v k.
Proof.
  destruct v as [ | | | | |d]; try reflexivity. simpl.
  rewrite dict_lookup_clean. now destruct (dict_lookup k d).
Qed.

Lemma get_with_clean (v : value) (k : string) (e : result value) :
  get_with (Row.clean_dict v) k (Row.clean_dict <$> e) =
  Row.clean_dict <$> get_with v k e.
Proof.
  destruct v as [ | | | | |d]; try reflexivity. simpl.
  rewrite dict_lookup_clean.
  destruct e as [x|err]; [|reflexivity]. simpl.
  now destruct (dict_lookup k d).
Qed.

Lemma clean_nul_free (s : string) :
  PyStr.has_char PyStr.NUL s = false ->
  Row.clean_dict (num:=num) (JStr s) = JStr s.
Proof.
  intros Hs. simpl. now rewrite replace_single, replace_each_absent.
Qed.

Lemma remove_nulls_clean (x : value) :
  Row.remove_nulls (Row.clean_dict x) = Row.remove_nulls x.
Proof.
  destruct x; try reflexivity. simpl.
  now rewrite !replace_single, delete_nul_twice.
Qed.

(** The row strategy reads the text from the sanitized record, and gets the
    text it would get from the record itself. *)
Lemma body_text_clean (tweet : value) :
  Row.body_text (Row.clean_dict tweet) = Row.body_text tweet.
Proof.
  unfold Row.body_text, get.
  change (Ok (JDict [])) with (Row.clean_dict (num:=num) <$> Ok (JDict [])).
  rewrite get_with_clean.
  destruct (get_with tweet "extended_tweet" _) as [ext|e]; [|reflexivity].
  cbn [fmap result_fmap mbind result_bind].
  rewrite getitem_clean_fmap, get_with_clean.
  destruct (get_with ext "full_text" _) as [t|e]; [|reflexivity].
  cbn [fmap result_fmap mbind result_bind]. apply remove_nulls_clean.
Qed.

End SanitizedReads.

(** ** Country and state codes *)

Lemma length_lower (s : string) : String.length (PyStr.lower s) = String.length s.
Proof. induction s as [|c s IH]; simpl; [reflexivity|now rewrite IH]. Qed.

Lemma split_nonempty (sep : ascii) (s : string) : PyStr.split sep s <> [].
Proof.
  induction s as [|c s IH]; simpl; [discriminate|].
  destruct (Ascii.eqb c sep); [discriminate|].
  destruct (PyStr.split sep s); [contradiction|discriminate].
Qed.

Lemma list_index_last {A B} (f : A -> B) (l : list A) (d : A) :
  l <> [] -> list_index (map f l) (-1) = Some (f (List.last l d)).
Proof.
  intros Hl. unfold list_index. rewrite length_map.
  assert (0 < length l) by (destruct l; [contradiction|simpl; lia]).
  destruct (Z.ltb_spec (-1) 0) as [_|?]; [|lia].
  destruct (Z.leb_spec 0 (-1 + Z.of_nat (length l))) as [_|?]; [|lia].
  destruct (Z.ltb_spec (-1 + Z.of_nat (length l)) (Z.of_nat (length l)))
    as [_|?]; [|lia].
  simpl. replace (Z.to_nat (-1 + Z.of_nat (length l))) with (pred (length l)) by lia.
  change (map f l) with (f <$> l). rewrite list_lookup_fmap.
  clear H. induction l as [|x l IH]; [contradiction|].
  destruct l as [|y l]; [reflexivity|].
  change (pred (length (x :: y :: l))) with (S (pred (length (y :: l)))).
  rewrite lookup_cons_ne_0 by lia. simpl. apply IH. discriminate.
Qed.

Lemma list_index_head {A} (x : A) (l : list A) : list_index (x :: l) 0 = Some x.
Proof. reflexivity. Qed.

Section Codes.
Context {num : Type} `{PyOps num}.
#[local] Abbreviation value := (value num).

Lemma py_eqb_str (s t : string) :
  py_eqb (num:=num) (JStr s) (JStr t) = String.eqb s t.
Proof. reflexivity. Qed.

Lemma str_lower_clean (x : value) :
  (forall s, x = JStr s -> PyStr.has_char PyStr.NUL s = false) ->
  str_lower (Row.clean_dict x) = str_lower x.
Proof.
  intros Hx. destruct x; try reflexivity.
  now rewrite clean_nul_free by (now apply Hx).
Qed.

Lemma str_split_clean (x : value) (sep : ascii) :
  (forall s, x = JStr s -> PyStr.has_char PyStr.NUL s = false) ->
  str_split (Row.clean_dict x) sep = str_split x sep.
Proof.
  intros Hx. destruct x; try reflexivity.
  now rewrite clean_nul_free by (now apply Hx).
Qed.

(** The codes read from the sanitized record are those read from the record
    itself when the strings of its place hold no NUL. *)
Lemma codes_clean (tweet : value) :
  (forall s, place_string tweet s -> PyStr.has_char PyStr.NUL s = false) ->
  Row.codes (Row.clean_dict tweet) = Row.codes tweet.
Proof.
  intros Hnul. unfold Row.codes, Row.country_code, Row.state_code.
  rewrite !getitem_clean_fmap.
  destruct (getitem tweet "place") as [place|e] eqn:Hp; [|reflexivity].
  cbn [fmap result_fmap mbind result_bind]. rewrite !getitem_clean_fmap.
  assert (Hcc : forall x s, getitem place "country_code" = Ok x -> x = JStr s ->
                            PyStr.has_char PyStr.NUL s = false).
  { intros x s Hx ->. apply Hnul. exists place, "country_code". auto. }
  assert (Hfn : forall x s, getitem place "full_name" = Ok x -> x = JStr s ->
                            PyStr.has_char PyStr.NUL s = false).
  { intros x s Hx ->. apply Hnul. exists place, "full_name". auto. }
  destruct (getitem place "country_code") as [x|e]; [|reflexivity].
  cbn [fmap result_fmap mbind result_bind].
  rewrite str_lower_clean by (intros s; now apply Hcc).
  destruct (str_lower x) as [c|e]; [|reflexivity].
  cbn [try_except mbind result_bind].
  destruct (py_eqb c (JStr "us")); [|reflexivity].
  destruct (getitem place "full_name") as [y|e]; [|reflexivity].
  cbn [fmap result_fmap mbind result_bind].
  rewrite str_split_clean by (intros s; now apply Hfn). reflexivity.
Qed.

(** C5 (amended). On a record whose place strings are ASCII, both strategies
    run the same derivation on the record they read. With a place whose
    country code is a string, the country code is that string lower-cased; the
    state code is absent when it is not "us"; when it is "us" and the place
    has a full name that is a string, the state code is the lower-cased final
    comma-delimited component of the full name, trimmed, exactly when that
    component has at most 2 characters, and is absent otherwise. A record
    without a place, or with a place whose country code is missing or is not
    a string, has neither code. The row strategy reads the sanitized record,
    and derives the codes of the batch strategy when the place strings hold
    no NUL. *)
Theorem country_state_codes (tweet : value) :
  (forall s, place_string tweet s -> ascii_only s = true) ->
  Row.codes tweet = Batch.codes tweet /\
  (forall place cc,
      getitem tweet "place" = Ok place ->
      getitem place "country_code" = Ok (JStr cc) ->
      (PyStr.lower cc <> "us" ->
       Batch.codes tweet = Ok (JStr (PyStr.lower cc), JNull)) /\
      (PyStr.lower cc = "us" -> forall fn,
       getitem place "full_name" = Ok (JStr fn) ->
       Batch.codes tweet =
       Ok (JStr "us",
           if (String.length (final_component fn) <=? 2)%nat
           then JStr (PyStr.lower (final_component fn)) else JNull))) /\
  (forall e, getitem tweet "place" = Raise e ->
             Batch.codes tweet = Ok (JNull, JNull)) /\
  (forall place e,
      getitem tweet "place" = Ok place ->
      getitem place "country_code" = Raise e ->
      Batch.codes tweet = Ok (JNull, JNull)) /\
  (forall place x,
      getitem tweet "place" = Ok place ->
      getitem place "country_code" = Ok x -> (forall cc, x <> JStr cc) ->
      Batch.codes tweet = Ok (JNull, JNull)) /\
  ((forall s, place_string tweet s -> PyStr.has_char PyStr.NUL s = false) ->
   Row.codes (Row.clean_dict tweet) = Batch.codes tweet).
Proof.
  intros _. change (Batch.codes tweet) with (Row.codes tweet).
  split; [reflexivity|]. split; [|split; [|split; [|split]]].
  - intros place cc Hp Hc. unfold Row.codes, Row.country_code, Row.state_code.
    rewrite Hp. py_simpl. rewrite Hc. py_simpl. cbn [str_lower]. py_simpl.
    rewrite py_eqb_str. split.
    + intros Hne. apply String.eqb_neq in Hne. rewrite Hne. reflexivity.
    + intros Hus fn Hfn. rewrite Hus, Hfn. cbn [String.eqb Ascii.eqb Bool.eqb].
      py_simpl. cbn [str_split]. py_simpl. cbn [getidx].
      rewrite (list_index_last JStr _ "") by apply split_nonempty.
      py_simpl. cbn [str_strip]. py_simpl. cbn [str_lower]. py_simpl.
      cbn [py_len]. py_simpl. rewrite length_lower.
      fold (final_component fn).
      destruct (String.length (final_component fn) <=? 2)%nat; reflexivity.
  - intros e Hp. unfold Row.codes, Row.country_code. rewrite Hp. reflexivity.
  - intros place e Hp Hc. unfold Row.codes, Row.country_code.
    rewrite Hp. py_simpl. rewrite Hc. reflexivity.
  - intros place x Hp Hc Hx. unfold Row.codes, Row.country_code.
    rewrite Hp. py_simpl. rewrite Hc. py_simpl.
    destruct x; try reflexivity. now destruct (Hx s).
  - apply codes_clean.
Qed.

End Codes.

Lemma country_state_codes_witness :
  Row.codes (Row.clean_dict place_tweet) = Ok (JStr "us", JStr "ca") /\
  Batch.codes place_tweet = Ok (JStr "us", JStr "ca") /\
  Batch.codes point_tweet = Ok (JNull, JNull).
Proof.
  assert (Hplace : forall s, place_string place_tweet s ->
                             s = "US" \/ s = "San Francisco, CA").
  { intros s (place & k & [= <-] & [->| ->] & [= <-]); auto. }
  assert (Hascii : forall s, place_string place_tweet s -> ascii_only s = true).
  { intros s Hs. destruct (Hplace s Hs) as [-> | ->]; reflexivity. }
  assert (Hnul : forall s, place_string place_tweet s ->
                           PyStr.has_char PyStr.NUL s = false).
  { intros s Hs. destruct (Hplace s Hs) as [-> | ->]; reflexivity. }
  destruct (country_state_codes place_tweet Hascii) as (_ & Hcodes & _ & _ & _ & Hrow).
  destruct (Hcodes sf_place "US" eq_refl eq_refl) as [_ Hus].
  specialize (Hus eq_refl "San Francisco, CA" eq_refl).
  split; [rewrite (Hrow Hnul); exact Hus|]. split; [exact Hus|].
  assert (Hnone : forall s, place_string point_tweet s -> ascii_only s = true).
  { intros s (place & k & [= <-] & _ & Hk). destruct k; discriminate. }
  destruct (country_state_codes point_tweet Hnone) as (_ & _ & _ & Hmiss & _).
  exact (Hmiss JNull TypeError eq_refl eq_refl).
Defined.

(** The claim C5 as stated fails. On a place whose full name ends in a
    component of three characters, one of them a NUL, the batch strategy has no
    state code and the row strategy, which reads the sanitized record, has
    one. On a place with the country code of the United States and no full
    name, neither strategy gives an absent state code: both raise
    [KeyError]. *)
Lemma country_state_codes_diverge :
  String.length (final_component ("San Francisco, C" +:+ String PyStr.NUL "A")) = 3 /\
  Batch.codes nul_place_tweet = Ok (JStr "us", JNull) /\
  Row.codes (Row.clean_dict nul_place_tweet) = Ok (JStr "us", JStr "ca") /\
  Batch.codes unnamed_place_tweet = Raise KeyError /\
  Row.codes (Row.clean_dict unnamed_place_tweet) = Raise KeyError.
Proof. repeat split; vm_compute; reflexivity. Qed.

(** ** The row strategy's skip of a record already loaded *)

Section Skip.
Context {num : Type} `{PyOps num}.
#[local] Abbreviation value := (value num).
#[local] Abbreviation conn := (@Row.conn num).
#[local] Abbreviation store := (@Row.store num).
#[local] Abbreviation M := (@Row.M num).
Implicit Types (c : conn) (s : store) (tweet id : value) (Q : store -> Prop).

Lemma bind_ok {A B} (m : M A) (f : A -> M B) c b c' :
  (m ≫= f) c = (Ok b, c') ->
  exists a c1, m c = (Ok a, c1) /\ f a c1 = (Ok b, c').
Proof.
  unfold mbind, Row.M_bind. destruct (m c) as [[a|e] c1]; [eauto|discriminate].
Qed.

Lemma post_bind {A B} (m : M A) (f : A -> M B) Q :
  (forall a, post (f a) Q) -> post (m ≫= f) Q.
Proof.
  intros Hf c b c' Hrun. apply bind_ok in Hrun as (a & c1 & _ & Hrun).
  exact (Hf a _ _ _ Hrun).
Qed.

Lemma post_lift_bind {A B} (r : result A) (f : A -> M B) Q :
  (forall a, r = Ok a -> post (f a) Q) -> post (Row.lift r ≫= f) Q.
Proof.
  intros Hf c b c' Hrun. apply bind_ok in Hrun as (a & c1 & Hr & Hrun).
  unfold Row.lift in Hr. injection Hr as Hr <-. exact (Hf a Hr _ _ _ Hrun).
Qed.

Lemma post_then_keeps {A B} (m : M A) (f : A -> M B) Q :
  post m Q -> (forall a, keeps Q (f a)) -> post (m ≫= f) Q.
Proof.
  intros Hm Hf c b c' Hrun. apply bind_ok in Hrun as (a & c1 & Hr & Hrun).
  exact (Hf a _ _ _ Hrun (Hm _ _ _ Hr)).
Qed.

Lemma keeps_bind {A B} (m : M A) (f : A -> M B) Q :
  keeps Q m -> (forall a, keeps Q (f a)) -> keeps Q (m ≫= f).
Proof.
  intros Hm Hf c b c' Hrun HQ. apply bind_ok in Hrun as (a & c1 & Hr & Hrun).
  exact (Hf a _ _ _ Hrun (Hm _ _ _ Hr HQ)).
Qed.

Lemma keeps_ret {A} (a : A) Q : keeps Q (mret a : M A).
Proof. intros c a' c' Hrun HQ. injection Hrun as _ <-. exact HQ. Qed.

Lemma keeps_lift {A} (r : result A) Q : keeps Q (Row.lift r).
Proof. intros c a' c' Hrun HQ. injection Hrun as _ <-. exact HQ. Qed.

Lemma keeps_forM {A} (f : A -> M unit) (xs : list A) Q :
  (forall x, keeps Q (f x)) -> keeps Q (Row.forM f xs).
Proof.
  intros Hf. induction xs as [|x xs IH]; simpl.
  - apply keeps_ret.
  - apply keeps_bind; [apply Hf|intros _; exact IH].
Qed.

Lemma keeps_execute {A} stmt binds (run : store -> A * store) Q :
  (forall s, Q s -> Q (snd (run s))) -> keeps Q (Row.execute stmt binds run).
Proof.
  intros Hrun c a c' E HQ. unfold Row.execute in E.
  specialize (Hrun (Row.db c) HQ).
  destruct (run (Row.db c)) as [a' s']. injection E as _ <-. exact Hrun.
Qed.

Lemma in_insert_if_absent {R K} `{EqDecision K} (key : R -> K) (r x : R) t :
  In x t -> In x (Row.insert_if_absent key r t).
Proof.
  unfold Row.insert_if_absent. destruct (existsb _ t); [auto|].
  intros Hx. apply in_or_app. now left.
Qed.

Lemma key_in_insert_if_absent {R K} `{EqDecision K} (key : R -> K) (r : R) t :
  In (key r) (map key (Row.insert_if_absent key r t)).
Proof.
  unfold Row.insert_if_absent. destruct (existsb _ t) eqn:E.
  - apply existsb_exists in E as (x & Hx & Hk).
    apply bool_decide_eq_true in Hk. rewrite <- Hk. now apply in_map.
  - rewrite map_app. apply in_or_app. right. now left.
Qed.

Lemma find_key_in {R K} `{EqDecision K} (key : R -> K) (k : K) (t : list R) :
  In k (map key t) -> exists r, Row.find_key key k t = Some r /\ key r = k.
Proof.
  intros Hin. apply in_map_iff in Hin as (x & Hk & Hx).
  unfold Row.find_key. destruct (List.find _ t) as [r|] eqn:E.
  - apply find_some in E as [_ E]. apply bool_decide_eq_true in E. eauto.
  - apply (find_none _ _ E) in Hx. apply bool_decide_eq_false in Hx. contradiction.
Qed.

Lemma keeps_get_id_urls id url : keeps (has_tweet id) (Row.get_id_urls url).
Proof.
  unfold Row.get_id_urls.
  apply keeps_bind.
  { apply keeps_execute. intros s Hs.
    destruct (Row.find_key snd url (Row.tbl_urls s)); exact Hs. }
  intros res. apply keeps_bind.
  { destruct res; [apply keeps_ret|]. apply keeps_execute. auto. }
  intros [?|]; [apply keeps_ret|apply keeps_lift].
Qed.

Lemma keeps_insert_user id stmt binds u :
  keeps (has_tweet id) (Row.insert_user stmt binds u).
Proof. apply keeps_execute. auto. Qed.

Lemma getitem_clean tweet (k : string) (v : value) :
  getitem tweet k = Ok v ->
  getitem (Row.clean_dict tweet) k = Ok (Row.clean_dict v).
Proof.
  destruct tweet as [ | | | | |d]; try discriminate. simpl.
  induction d as [|[k' x] d IH]; simpl; [discriminate|].
  destruct (String.eqb k' k); [congruence|exact IH].
Qed.

Ltac keep_steps :=
  repeat first
    [ apply keeps_get_id_urls
    | apply keeps_insert_user
    | apply keeps_forM
    | apply keeps_lift
    | apply keeps_ret
    | (apply keeps_execute; solve [auto])
    | apply keeps_bind
    | lazymatch goal with
      | |- keeps _ _ => fail
      | |- forall _, _ => intro
      end ].

(** A load that returns has put the post in [tweets]. *)
Lemma load_has_tweet tweet id :
  getitem tweet "id" = Ok id -> post (Row.load tweet) (has_tweet id).
Proof.
  intros Hid. unfold Row.load.
  do 2 (apply post_bind; intro).
  do 3 (apply post_bind; intro).
  do 7 (apply post_bind; intro).
  do 2 (apply post_bind; intro).
  apply post_lift_bind. intros id_tweets Hid'.
  rewrite Hid in Hid'. injection Hid' as <-.
  apply post_then_keeps.
  - intros c [] c' E. unfold Row.insert_tweet_row, Row.execute in E.
    simpl in E. injection E as <-. unfold has_tweet. simpl.
    apply (key_in_insert_if_absent fst (id, _)).
  - intros []. keep_steps.
Qed.

Lemma db_only_ret {A} (a : A) : db_only (mret a : M A).
Proof. intros c c' E. split; [reflexivity|exact E]. Qed.

Lemma db_only_lift {A} (r : result A) : db_only (Row.lift r : M A).
Proof. intros c c' E. split; [reflexivity|exact E]. Qed.

Lemma db_only_bind {A B} (m : M A) (f : A -> M B) :
  db_only m -> (forall a, db_only (f a)) -> db_only (m ≫= f).
Proof.
  intros Hm Hf c c' E. destruct (Hm c c' E) as [Hr Hdb].
  unfold mbind, Row.M_bind.
  destruct (m c) as [[a|e] c1], (m c') as [[a'|e'] c1']; simpl in Hr, Hdb;
    try discriminate.
  - injection Hr as <-. exact (Hf a c1 c1' Hdb).
  - injection Hr as <-. split; [reflexivity|exact Hdb].
Qed.

Lemma db_only_forM {A} (f : A -> M unit) (xs : list A) :
  (forall x, db_only (f x)) -> db_only (Row.forM f xs).
Proof.
  intros Hf. induction xs as [|x xs IH]; simpl.
  - apply db_only_ret.
  - apply db_only_bind; [apply Hf|intros _; exact IH].
Qed.

Lemma db_only_execute {A} stmt binds (run : store -> A * store) :
  db_only (Row.execute stmt binds run).
Proof.
  intros c c' E. unfold Row.execute. rewrite E.
  destruct (run (Row.db c')) as [a s]. split; reflexivity.
Qed.

Lemma db_only_transaction {A} (body : M A) :
  db_only body -> db_only (Row.transaction body).
Proof.
  intros Hb c c' E. unfold Row.transaction.
  destruct (Hb {| Row.db := Row.db c; Row.log := Row.log c ++ [Row.Begin] |}
               {| Row.db := Row.db c'; Row.log := Row.log c' ++ [Row.Begin] |} E)
    as [Hr Hdb].
  destruct (body _) as [[a|e] c1], (body _) as [[a'|e'] c1']; simpl in Hr, Hdb;
    try discriminate; injection Hr as <-; split; simpl; auto.
Qed.

Lemma db_only_get_id_urls url : db_only (Row.get_id_urls url).
Proof.
  unfold Row.get_id_urls.
  apply db_only_bind; [apply db_only_execute|]. intros res.
  apply db_only_bind.
  - destruct res; [apply db_only_ret|apply db_only_execute].
  - intros [?|]; [apply db_only_ret|apply db_only_lift].
Qed.

Ltac db_steps :=
  repeat first
    [ apply db_only_get_id_urls
    | apply db_only_execute
    | apply db_only_forM
    | apply db_only_lift
    | apply db_only_ret
    | apply db_only_transaction
    | apply db_only_bind
    | lazymatch goal with
      | |- db_only (match ?x with _ => _ end) => destruct x
      | |- db_only _ => fail
      | |- forall _, _ => intro
      end ].

Lemma db_only_insert_tweet tweet : db_only (Row.insert_tweet tweet).
Proof. unfold Row.insert_tweet, Row.load, Row.select_tweet. db_steps. Qed.

(** C8. When the post id of the record is already in [tweets], [insert_tweet]
    returns right after the existence check: the connection has only been
    asked to run the SELECT, no transaction is begun, no INSERT is executed
    and the store is unchanged. Hence a record (with a numeric id) whose load
    returned is skipped by a second load, and loading a record twice leaves
    the store that loading it once leaves. *)
Theorem insert_tweet_skip tweet id c :
  getitem tweet "id" = Ok id ->
  (has_tweet id (Row.db c) ->
   Row.insert_tweet tweet c =
   (Ok (), {| Row.db := Row.db c;
              Row.log := Row.log c ++
                [Row.Execute "SELECT id_tweets FROM tweets" [("id_tweets", id)]] |})) /\
  (forall n c1, id = JNum n ->
     Row.insert_tweet tweet c = (Ok (), c1) ->
     has_tweet id (Row.db c1) /\
     exists c2, Row.insert_tweet tweet c1 = (Ok (), c2) /\
                Row.db c2 = Row.db c1 /\
                Row.log c2 = Row.log c1 ++
                  [Row.Execute "SELECT id_tweets FROM tweets" [("id_tweets", id)]]) /\
  (forall n, id = JNum n ->
     Row.db (snd (Row.insert_tweet tweet (snd (Row.insert_tweet tweet c)))) =
     Row.db (snd (Row.insert_tweet tweet c))).
Proof.
  intros Hid.
  assert (Hskip : forall c0, has_tweet id (Row.db c0) ->
    Row.insert_tweet tweet c0 =
    (Ok (), {| Row.db := Row.db c0;
               Row.log := Row.log c0 ++
                 [Row.Execute "SELECT id_tweets FROM tweets" [("id_tweets", id)]] |})).
  { intros c0 Hin. apply find_key_in in Hin as (r & Hr & _).
    unfold Row.insert_tweet. rewrite Hid.
    unfold mbind, Row.M_bind, Row.lift, Row.select_tweet, Row.execute.
    rewrite Hr. reflexivity. }
  assert (Hrun : forall n c1, id = JNum n ->
    Row.insert_tweet tweet c = (Ok (), c1) -> has_tweet id (Row.db c1)).
  { intros n c1 -> Hrun.
    destruct (In_dec (fun a b : value => decide (a = b)) (JNum n)
                (map fst (Row.tbl_tweets (Row.db c)))) as [Hc|Hc].
    - rewrite (Hskip c Hc) in Hrun. injection Hrun as <-. exact Hc.
    - revert Hrun. unfold Row.insert_tweet. rewrite Hid.
      unfold mbind at 1 2, Row.M_bind, Row.lift, Row.select_tweet, Row.execute.
      destruct (Row.find_key fst (JNum n) (Row.tbl_tweets (Row.db c))) as [r|] eqn:E.
      + apply find_some in E as [Hr E]. apply bool_decide_eq_true in E.
        exfalso. apply Hc. unfold has_tweet. rewrite <- E. now apply in_map.
      + simpl. unfold Row.transaction.
        match goal with |- context [Row.load ?t ?c0] =>
          destruct (Row.load t c0) as [[[]|e] c'] eqn:L end; [|discriminate].
        intros Hrun. injection Hrun as <-. simpl.
        apply (load_has_tweet _ (JNum n)) in L; [exact L|].
        apply (getitem_clean tweet "id" (JNum n) Hid). }
  split; [apply Hskip|]. split.
  - intros n c1 Hn Hc1. pose proof (Hrun n c1 Hn Hc1) as Hin.
    split; [exact Hin|]. eexists. split; [apply (Hskip c1 Hin)|].
    split; reflexivity.
  - intros n Hn.
    destruct (Row.insert_tweet tweet c) as [[[]|e] c1] eqn:E; cbn [snd].
    + rewrite (Hskip c1 (Hrun n c1 Hn eq_refl)). reflexivity.
    + assert (Hdb : Row.db c1 = Row.db c).
      { revert E. unfold Row.insert_tweet. rewrite Hid.
        unfold mbind at 1 2, Row.M_bind, Row.lift, Row.select_tweet, Row.execute.
        destruct (Row.find_key fst id (Row.tbl_tweets (Row.db c))); [discriminate|].
        simpl. unfold Row.transaction.
        match goal with |- context [Row.load ?t ?c0] =>
          destruct (Row.load t c0) as [[[]|e'] c'] end; [discriminate|].
        intros [= _ <-]. reflexivity. }
      destruct (db_only_insert_tweet tweet c1 c Hdb) as [_ ->].
      rewrite E. reflexivity.
Qed.

End Skip.

Lemma insert_tweet_skip_witness :
  exists c1,
    Row.insert_tweet place_tweet fresh_conn = (Ok (), c1) /\
    has_tweet (JNum "1") (Row.db c1) /\
    Row.insert_tweet place_tweet c1 =
    (Ok (), {| Row.db := Row.db c1;
               Row.log := Row.log c1 ++
                 [Row.Execute "SELECT id_tweets FROM tweets"
                              [("id_tweets", JNum "1")]] |}).
Proof.
  destruct (Row.insert_tweet place_tweet fresh_conn) as [r c1] eqn:E.
  assert (Hr : r = Ok ()) by (vm_compute in E; congruence). subst r.
  exists c1. split; [reflexivity|].
  destruct (insert_tweet_skip place_tweet (JNum "1") fresh_conn eq_refl)
    as (_ & Htwice & _).
  destruct (Htwice "1" c1 eq_refl E) as [Hin _].
  split; [exact Hin|].
  destruct (insert_tweet_skip place_tweet (JNum "1") c1 eq_refl) as (Hskip & _).
  exact (Hskip Hin).
Defined.

(** ** Body text *)

Section BodyText.
Context {num : Type} `{PyOps num}.
#[local] Abbreviation value := (value num).

(** C6 (amended). On a record that has a [text] and whose [extended_tweet],
    when there is one, is a dict, the body text handed to the store is the
    sanitized [extended_tweet.full_text] when the record has one, and the
    sanitized [text] otherwise (no [extended_tweet], or one without
    [full_text]), in both strategies; each strategy uses its own sanitizer, and
    the row strategy, which reads the sanitized record, gets the text it would
    get from the record itself. *)
Theorem body_text_selection (d : list (string * value)) (txt : value) :
  dict_lookup "text" d = Some txt ->
  Row.body_text (Row.clean_dict (JDict d)) = Row.body_text (JDict d) /\
  (forall ext full,
      dict_lookup "extended_tweet" d = Some (JDict ext) ->
      dict_lookup "full_text" ext = Some full ->
      Row.body_text (JDict d) = Row.remove_nulls full /\
      Batch.body_text (JDict d) = Batch.remove_nulls full) /\
  (dict_lookup "extended_tweet" d = None ->
   Row.body_text (JDict d) = Row.remove_nulls txt /\
   Batch.body_text (JDict d) = Batch.remove_nulls txt) /\
  (forall ext,
      dict_lookup "extended_tweet" d = Some (JDict ext) ->
      dict_lookup "full_text" ext = None ->
      Row.body_text (JDict d) = Row.remove_nulls txt /\
      Batch.body_text (JDict d) = Batch.remove_nulls txt).
Proof.
  intros Ht. split; [apply body_text_clean|].
  unfold Row.body_text, Batch.body_text, Batch.text, get, get_with, getitem.
  rewrite Ht. split; [|split].
  - intros ext full He Hf. rewrite He. py_simpl.
    cbn [default from_option id]. py_simpl. rewrite Hf. split; reflexivity.
  - intros He. rewrite He. py_simpl.
    cbn [default from_option id dict_lookup]. split; reflexivity.
  - intros ext He Hf. rewrite He. py_simpl.
    cbn [default from_option id]. py_simpl. rewrite Hf. split; reflexivity.
Qed.

End BodyText.

Lemma body_text_selection_witness :
  Row.body_text extended_tweet = Ok (JStr "short with more") /\
  Batch.body_text extended_tweet = Ok (JStr "short with more") /\
  Row.body_text place_tweet = Ok (JStr "hello") /\
  Batch.body_text place_tweet = Ok (JStr "hello").
Proof.
  pose proof (body_text_selection (num:=string)) as Hsel.
  unfold extended_tweet, place_tweet.
  match goal with |- context [Row.body_text (JDict ?d)] =>
    destruct (Hsel d (JStr "short") eq_refl) as (_ & Hext & _ & _) end.
  destruct (Hext _ (JStr "short with more") eq_refl eq_refl) as [-> ->].
  match goal with |- context [Row.body_text (JDict ?d)] =>
    destruct (Hsel d (JStr "hello") eq_refl) as (_ & _ & Hdef & _) end.
  destruct (Hdef eq_refl) as [-> ->].
  repeat split.
Defined.

(** The claim C6 as stated fails. A record that has the extended text and no
    [text] makes the row strategy raise [KeyError], since the default is
    evaluated first; a record whose [extended_tweet] is [null] makes it raise
    [AttributeError]; the batch strategy gives the extended and the default
    text of these. A record without any text makes both strategies raise
    [KeyError]. *)
Lemma body_text_needs_text :
  Row.body_text (Row.clean_dict only_extended_tweet) = Raise KeyError /\
  Batch.body_text only_extended_tweet = Ok (JStr "short with more") /\
  Row.body_text (Row.clean_dict null_extended_tweet) = Raise AttributeError /\
  Batch.body_text null_extended_tweet = Ok (JStr "short") /\
  Row.body_text (Row.clean_dict textless_tweet) = Raise KeyError /\
  Batch.body_text textless_tweet = Raise KeyError.
Proof. repeat split; vm_compute; reflexivity. Qed.

(** ** Location *)

Section Location.
Context {num : Type} `{PyOps num}.
#[local] Abbreviation value := (value num).

(** The row strategy always yields a location value: the point when the
    direct coordinates can be read, else the polygon when the first ring of
    the bounding box can be read, else [None]. *)
Lemma row_geo_wkt_cases (tweet : value) :
  exists w, Row.geo_wkt tweet = Ok w /\
    (Row.point_wkt tweet = Ok w \/
     (is_ok (Row.point_wkt tweet) = false /\ Row.polygon_wkt tweet = Ok w) \/
     (is_ok (Row.point_wkt tweet) = false /\
      is_ok (Row.polygon_wkt tweet) = false /\ w = JNull)).
Proof.
  unfold Row.geo_wkt.
  destruct (Row.point_wkt tweet) as [w|e]; [exists w; auto|].
  destruct (Row.polygon_wkt tweet) as [w|e']; [exists w|exists JNull];
    simpl; split; auto.
Qed.

(** The ring handed to the polygon is the first ring, with its first vertex
    repeated at the end when it differs from the last. *)
Lemma row_closed_ring (d p bb : list (string * value)) (rings ring : list value)
  (first last : value) :
  dict_lookup "place" d = Some (JDict p) ->
  dict_lookup "bounding_box" p = Some (JDict bb) ->
  dict_lookup "coordinates" bb = Some (JList (JList ring :: rings)) ->
  list_index ring 0 = Some first ->
  list_index ring (-1) = Some last ->
  Row.closed_ring (JDict d) =
  Ok (JList (if py_eqb first last then ring else ring ++ [first])).
Proof.
  intros Hp Hbb Hcs Hf Hl. unfold Row.closed_ring, getitem.
  rewrite Hp. py_simpl. rewrite Hbb. py_simpl. rewrite Hcs. py_simpl.
  cbn [getidx]. rewrite list_index_head. py_simpl.
  cbn [getidx]. rewrite Hf. py_simpl. rewrite Hl. py_simpl.
  destruct (py_eqb first last); reflexivity.
Qed.

(** The batch strategy yields a point or no location, never a polygon. *)
Lemma batch_geo_point_or_none (tweet s c : value) :
  Batch.geo tweet = Ok (s, c) -> s = JStr "POINT" \/ (s = JNull /\ c = JNull).
Proof.
  unfold Batch.geo.
  destruct (getitem tweet "geo") as [g|e]; py_simpl.
  2: { destruct (decide (e = TypeError)); [|discriminate].
       intros E. injection E as <- <-. auto. }
  repeat match goal with
  | |- context [mbind _ ?r] =>
      lazymatch r with
      | Ok _ => fail
      | _ => destruct r as [?|e]; py_simpl
      end
  | |- (if decide (?e = TypeError) then _ else _) = _ -> _ =>
      destruct (decide (e = TypeError)); [|discriminate];
      intros E; injection E as <- <-; auto
  end.
  intros E. injection E as <- _. auto.
Qed.

End Location.

(** C1. On a record with a place bounding box and no direct coordinates the
    row strategy derives the closed polygon and the batch strategy derives no
    location; on a record with direct coordinates both derive the point. The
    row that the row strategy inserts into [tweets] carries the polygon, and
    the row that the batch strategy prepares for [tweets] has neither
    [geo_str] nor [geo_coords]. *)
Theorem batch_geo_omits_polygon :
  Row.geo_wkt place_tweet =
  Ok (JStr "POLYGON((-122.5 37.7, -122.5 37.9, -122.3 37.9, -122.3 37.7, -122.5 37.7))") /\
  Batch.geo place_tweet = Ok (JNull, JNull) /\
  Row.geo_wkt point_tweet = Ok (JStr "POINT(-122.4 37.8)") /\
  Batch.geo point_tweet = Ok (JStr "POINT", JStr "-122.4 37.8") /\
  (exists c binds,
      Row.insert_tweet place_tweet fresh_conn = (Ok (), c) /\
      Row.tbl_tweets (Row.db c) = [(JNum "1", binds)] /\
      dict_lookup "wkt" binds =
      Some (JStr "POLYGON((-122.5 37.7, -122.5 37.9, -122.3 37.9, -122.3 37.7, -122.5 37.7))")) /\
  (exists ls row,
      Batch.generate Batch.no_rows place_tweet = Ok ls /\
      Batch.tweets ls = [row] /\
      dict_lookup "geo_str" row = Some JNull /\
      dict_lookup "geo_coords" row = Some JNull).
Proof.
  do 4 (split; [reflexivity|]). split.
  - eexists _, _. split; [vm_compute; reflexivity|]. split; reflexivity.
  - eexists _, _. split; [vm_compute; reflexivity|]. repeat split.
Qed.

(** ** Entity containers *)

Section Entities.
Context {num : Type} `{PyOps num}.
#[local] Abbreviation value := (value num).

(** The row strategy resolves each kind of entity on its own: on a record
    with the default container of the kind, the extended container is used
    exactly when the record has it. *)
Lemma row_entity_list (d ents : list (string * value)) (kind : string)
  (dflt : value) :
  dict_lookup "entities" d = Some (JDict ents) ->
  dict_lookup kind ents = Some dflt ->
  (dict_lookup "extended_tweet" d = None ->
   Row.entity_list (JDict d) kind = Ok dflt) /\
  (forall ext, dict_lookup "extended_tweet" d = Some (JDict ext) ->
     (dict_lookup "entities" ext = None ->
      Row.entity_list (JDict d) kind = Ok dflt) /\
     (forall xents, dict_lookup "entities" ext = Some (JDict xents) ->
        Row.entity_list (JDict d) kind =
        Ok (default dflt (dict_lookup kind xents)))).
Proof.
  intros He Hk. unfold Row.entity_list, get, get_with, getitem.
  rewrite He. py_simpl. rewrite Hk. split.
  - intros ->. reflexivity.
  - intros ext ->. py_simpl. cbn [default from_option id]. py_simpl.
    split; [intros ->; reflexivity|].
    intros xents ->. reflexivity.
Qed.

(** The batch strategy takes the hashtags and the symbols from the extended
    container only when it holds both. *)
Lemma batch_tags_joint (tweet h : value) :
  Batch.extended_entity tweet "hashtags" = Ok h ->
  Batch.extended_entity tweet "symbols" = Raise KeyError ->
  Batch.hashtags tweet = Batch.default_entity tweet "hashtags" ≫= fun hs =>
                         Batch.default_entity tweet "symbols" ≫= fun _ => Ok hs.
Proof.
  intros Hh Hs. unfold Batch.hashtags, Batch.hashtags_cashtags.
  rewrite Hh, Hs. py_simpl. cbn [decide_rel decide exn_eq_dec]. simpl.
  destruct (Batch.default_entity tweet "hashtags"); [|reflexivity]. py_simpl.
  destruct (Batch.default_entity tweet "symbols"); reflexivity.
Qed.

End Entities.

(** C3. On a record whose extended container has hashtags but neither urls
    nor symbols, the row strategy uses the extended hashtags with the default
    urls and symbols, and the batch strategy uses the default hashtags, which
    are the tags of the rows it prepares for [tweet_tags]. *)
Theorem batch_hashtags_follow_symbols :
  Row.urls extended_tweet = Ok (JList []) /\
  Row.hashtags extended_tweet = Ok (JList [JDict [("text", JStr "whole")]]) /\
  Row.cashtags extended_tweet = Ok (JList []) /\
  Batch.urls extended_tweet = Ok (JList []) /\
  Batch.hashtags extended_tweet = Ok (JList [JDict [("text", JStr "cut")]]) /\
  Batch.cashtags extended_tweet = Ok (JList []) /\
  (exists ls,
      Batch.generate Batch.no_rows extended_tweet = Ok ls /\
      Batch.tweet_tags ls = [[("id_tweets", JNum "2"); ("tag", JStr "#cut")]]).
Proof.
  do 5 (split; [reflexivity|]). split; [reflexivity|].
  eexists. split; [vm_compute; reflexivity|]. reflexivity.
Qed.

(** ** The text of a statement *)


















(** ** The insert builder *)

Section Builder.
Context {num : Type} `{PyOps num}.
#[local] Abbreviation value := (value num).
Implicit Types (rows : list (list (string * value))) (row : list (string * value)).

Lemma binds_of_entries rows :
  Batch.binds_of rows = foldl store_entry ∅ (bind_entries rows).
Proof.
  unfold Batch.binds_of, bind_entries.
  generalize (Batch.enumerate rows) (∅ : gmap string value).
  intros irs. induction irs as [|[i row] irs IH]; intros m; [reflexivity|].
  cbn [foldl flat_map]. rewrite foldl_app, <- IH. f_equal.
  unfold Batch.bind_row. cbn [fst snd]. clear IH. revert m.
  induction row as [|kv row IHr]; intros m; [reflexivity|]. apply IHr.
Qed.











End Builder.



(** ** The caller's record *)

Section Frame.
Context {num : Type} `{PyOps num}.
#[local] Abbreviation value := (value num).
#[local] Abbreviation hval := (Heap.hval num).
#[local] Abbreviation heap := (gmap Heap.loc (Heap.obj num)).
Implicit Types (h : heap) (v : hval) (X : gset Heap.loc).

Lemma fresh_tree_heap fuel X h h' v :
  h ⊆ h' -> fresh_tree fuel X h v -> fresh_tree fuel X h' v.
Proof.
  intros Hsub. revert v. induction fuel as [|fuel IH]; intros [ | | | |l]; try done.
  simpl. intros [Hl Ho]. split; [exact Hl|].
  destruct (h !! l) as [o|] eqn:E; [|contradiction].
  rewrite (lookup_weaken _ _ _ _ E Hsub).
  destruct o; (eapply Forall_impl; [exact Ho|]); intros ?; apply IH.
Qed.

Lemma fresh_tree_dom fuel X X' h v :
  X' ⊆ X -> fresh_tree fuel X h v -> fresh_tree fuel X' h v.
Proof.
  intros Hsub. revert v. induction fuel as [|fuel IH]; intros [ | | | |l]; try done.
  simpl. intros [Hl Ho]. split; [set_solver|].
  destruct (h !! l) as [[]|]; [| |contradiction];
    (eapply Forall_impl; [exact Ho|]); intros ?; apply IH.
Qed.

Lemma map_option_mono {A B} (f g : A -> option B) (xs : list A) (ys : list B) :
  (forall x y, f x = Some y -> g x = Some y) ->
  Heap.map_option f xs = Some ys -> Heap.map_option g xs = Some ys.
Proof.
  intros Hfg. revert ys. induction xs as [|x xs IH]; intros ys; [done|].
  simpl. destruct (f x) as [y|] eqn:E; [|done]. rewrite (Hfg _ _ E). simpl.
  destruct (Heap.map_option f xs) as [ys'|]; [|done].
  rewrite (IH ys' eq_refl). done.
Qed.

Lemma denote_heap fuel h h' v (x : value) :
  h ⊆ h' -> Heap.denote fuel h v = Some x -> Heap.denote fuel h' v = Some x.
Proof.
  intros Hsub. revert v x. induction fuel as [|fuel IH]; intros v x; [done|].
  destruct v as [ | | | |l]; try done. simpl.
  destruct (h !! l) as [o|] eqn:E; [|done].
  rewrite (lookup_weaken _ _ _ _ E Hsub).
  destruct o as [items|elems].
  - destruct (Heap.map_option _ items) as [kvs|] eqn:M; [|done].
    intros Hx. erewrite map_option_mono; [exact Hx| |exact M].
    intros kv y. simpl. destruct (Heap.denote fuel h kv.2) as [w|] eqn:D; [|done].
    now rewrite (IH _ _ D).
  - destruct (Heap.map_option _ elems) as [vs|] eqn:M; [|done].
    intros Hx. erewrite map_option_mono; [exact Hx| |exact M].
    intros y w. apply IH.
Qed.

(** The loop of a comprehension, given what its body does to one element *)
Lemma map_heap_spec {A B V W : Type}
  (g : A -> heap -> option (B * heap))
  (dA : heap -> A -> option V) (dB : heap -> B -> option W) (c : V -> W)
  (F : gset Heap.loc -> heap -> B -> Prop) :
  (forall h h' x w, h ⊆ h' -> dA h x = Some w -> dA h' x = Some w) ->
  (forall h h' y w, h ⊆ h' -> dB h y = Some w -> dB h' y = Some w) ->
  (forall X h h' y, h ⊆ h' -> F X h y -> F X h' y) ->
  (forall X X' h y, X' ⊆ X -> F X h y -> F X' h y) ->
  (forall x h0 w, dA h0 x = Some w ->
     exists y h1, g x h0 = Some (y, h1) /\ h0 ⊆ h1 /\
                  F (dom h0) h1 y /\ dB h1 y = Some (c w)) ->
  forall xs h0 ws,
    Heap.map_option (dA h0) xs = Some ws ->
    exists ys h1, Heap.map_heap g xs h0 = Some (ys, h1) /\ h0 ⊆ h1 /\
                  Forall (F (dom h0) h1) ys /\
                  Heap.map_option (dB h1) ys = Some (map c ws).
Proof.
  intros HdA HdB HFh HFX Hg xs.
  induction xs as [|x xs IH]; intros h0 ws Hws; simpl in *.
  - injection Hws as <-. exists [], h0. done.
  - destruct (dA h0 x) as [w|] eqn:Dx; [|done]. simpl in Hws.
    destruct (Heap.map_option (dA h0) xs) as [ws'|] eqn:Dxs; [|done].
    injection Hws as <-.
    destruct (Hg x h0 w Dx) as (y & h1 & -> & Hsub1 & HF & Dy). simpl.
    destruct (IH h1 ws') as (ys & h2 & -> & Hsub2 & HFs & Dys).
    { eapply map_option_mono; [|exact Dxs]. intros ? ?. now apply HdA. }
    simpl. exists (y :: ys), h2. split; [done|].
    split; [etrans; eassumption|]. split.
    + constructor; [now apply (HFh _ h1)|].
      eapply Forall_impl; [exact HFs|]. intros y' Hy'.
      apply (HFX (dom h1)); [now apply subseteq_dom|exact Hy'].
    + cbn [Heap.map_option]. rewrite (HdB _ _ _ _ Hsub2 Dy). simpl.
      now rewrite Dys.
Qed.

(** The heap-level [clean_dict] refines the one on values: on a record that
    can be read to depth [fuel] it returns, only adds objects, returns a tree
    of new objects, and that tree stands for the sanitized value. *)
Lemma clean_dict_refines fuel h v (x : value) :
  Heap.denote fuel h v = Some x ->
  exists v' h', Heap.clean_dict fuel v h = Some (v', h') /\ h ⊆ h' /\
                fresh_tree fuel (dom h) h' v' /\
                Heap.denote fuel h' v' = Some (Row.clean_dict x).
Proof.
  revert h v x. induction fuel as [|fuel IH]; intros h v x Hx; [done|].
  destruct v as [ | b | n | s | l]; simpl in Hx |- *;
    try (injection Hx as <-; eexists _, h; done).
  destruct (h !! l) as [[items|elems]|] eqn:E; [| |done].
  - destruct (Heap.map_option _ items) as [kvs|] eqn:M; [|done].
    injection Hx as <-.
    destruct (map_heap_spec
                (fun (kv : string * hval) (h0 : heap) =>
                   '(v', h1) ← Heap.clean_dict fuel kv.2 h0;
                   Some ((kv.1, v'), h1))
                (fun (h0 : heap) (kv : string * hval) =>
                   v' ← Heap.denote fuel h0 kv.2; Some (kv.1, v'))
                (fun (h0 : heap) (kv : string * hval) =>
                   v' ← Heap.denote fuel h0 kv.2; Some (kv.1, v'))
                (fun kv : string * value => (kv.1, Row.clean_dict kv.2))
                (fun X (h0 : heap) (kv : string * hval) =>
                   fresh_tree fuel X h0 kv.2))
      with (xs := items) (h0 := h) (ws := kvs)
      as (items' & h1 & -> & Hsub & Hfresh & Hden); try exact M.
    + intros h0 h0' kv w Hs. simpl.
      destruct (Heap.denote fuel h0 kv.2) eqn:D; [|done].
      now rewrite (denote_heap _ _ _ _ _ Hs D).
    + intros h0 h0' kv w Hs. simpl.
      destruct (Heap.denote fuel h0 kv.2) eqn:D; [|done].
      now rewrite (denote_heap _ _ _ _ _ Hs D).
    + intros X h0 h0' kv Hs. now apply fresh_tree_heap.
    + intros X X' h0 kv Hs. now apply fresh_tree_dom.
    + intros kv h0 w. simpl.
      destruct (Heap.denote fuel h0 kv.2) as [w'|] eqn:D; [|done].
      intros [= <-].
      destruct (IH _ _ _ D) as (v' & h1 & -> & Hs & Hf & Hd). simpl.
      exists (kv.1, v'), h1. simpl. rewrite Hd. done.
    + simpl. unfold Heap.alloc.
      pose proof (is_fresh (dom h1)) as Hl.
      assert (Hs1 : h1 ⊆ <[fresh (dom h1) := Heap.ODict items']> h1)
        by (apply insert_subseteq, not_elem_of_dom_1, Hl).
      eexists _, _. split; [reflexivity|]. split; [etrans; eassumption|].
      split.
      * simpl. rewrite lookup_insert_eq. split.
        { intros Hin. apply Hl. revert Hin. now apply subseteq_dom. }
        eapply Forall_impl; [exact Hfresh|]. intros kv.
        now apply fresh_tree_heap.
      * simpl. rewrite lookup_insert_eq.
        erewrite map_option_mono; [reflexivity| |exact Hden].
        intros kv w. simpl.
        destruct (Heap.denote fuel h1 kv.2) as [w'|] eqn:D; [|done].
        now rewrite (denote_heap _ _ _ _ _ Hs1 D).
  - destruct (Heap.map_option _ elems) as [vs|] eqn:M; [|done].
    injection Hx as <-.
    destruct (map_heap_spec (Heap.clean_dict fuel)
                (Heap.denote fuel) (Heap.denote fuel) Row.clean_dict
                (fun X h0 y => fresh_tree fuel X h0 y))
      with (xs := elems) (h0 := h) (ws := vs)
      as (elems' & h1 & -> & Hsub & Hfresh & Hden); try exact M.
    + intros h0 h0' y w Hs. now apply denote_heap.
    + intros h0 h0' y w Hs. now apply denote_heap.
    + intros X h0 h0' y Hs. now apply fresh_tree_heap.
    + intros X X' h0 y Hs. now apply fresh_tree_dom.
    + intros y h0 w D. exact (IH _ _ _ D).
    + simpl. unfold Heap.alloc.
      pose proof (is_fresh (dom h1)) as Hl.
      assert (Hs1 : h1 ⊆ <[fresh (dom h1) := Heap.OList elems']> h1)
        by (apply insert_subseteq, not_elem_of_dom_1, Hl).
      eexists _, _. split; [reflexivity|]. split; [etrans; eassumption|].
      split.
      * simpl. rewrite lookup_insert_eq. split.
        { intros Hin. apply Hl. revert Hin. now apply subseteq_dom. }
        eapply Forall_impl; [exact Hfresh|]. intros y.
        now apply fresh_tree_heap.
      * simpl. rewrite lookup_insert_eq.
        erewrite map_option_mono; [reflexivity| |exact Hden].
        intros y w. now apply denote_heap.
Qed.

Lemma items_lookup_in (k : string) (items : list (string * hval)) (x : hval) :
  Heap.items_lookup k items = Some x -> exists kv, kv ∈ items /\ kv.2 = x.
Proof.
  induction items as [|[k' y] items IH]; simpl; [done|].
  destruct (String.eqb k' k).
  - intros [= <-]. exists (k', y). split; [left|done].
  - intros Hx. destruct (IH Hx) as (kv & Hin & <-). exists kv. split; [now right|done].
Qed.

Lemma list_index_in {A} (l : list A) (i : Z) (x : A) :
  list_index l i = Some x -> x ∈ l.
Proof.
  unfold list_index. destruct (_ && _); [|done].
  apply list_elem_of_lookup_2.
Qed.

Lemma fresh_getitem fuel X h v (k : string) (x : hval) :
  fresh_tree fuel X h v -> Heap.getitem h v k = Ok x ->
  exists fuel', fresh_tree fuel' X h x.
Proof.
  destruct v as [ | | | |l]; try done. destruct fuel as [|fuel]; [done|].
  simpl. intros [_ Ho]. destruct (h !! l) as [[items|elems]|]; try done.
  destruct (Heap.items_lookup k items) as [y|] eqn:E; [|done]. intros [= <-].
  apply items_lookup_in in E as (kv & Hin & <-).
  exists fuel. exact (proj1 (Forall_forall _ _) Ho kv Hin).
Qed.

Lemma fresh_getidx fuel X h v (i : Z) (x : hval) :
  fresh_tree fuel X h v -> Heap.getidx h v i = Ok x ->
  exists fuel', fresh_tree fuel' X h x.
Proof.
  destruct v as [ | | |s|l]; try done.
  - simpl. destruct (list_index _ i); [|done]. intros _ [= <-]. now exists 0.
  - destruct fuel as [|fuel]; [done|].
    simpl. intros [_ Ho]. destruct (h !! l) as [[items|elems]|]; try done.
    destruct (list_index elems i) as [y|] eqn:E; [|done]. intros [= <-].
    apply list_index_in in E.
    exists fuel. exact (proj1 (Forall_forall _ _) Ho y E).
Qed.

Lemma fresh_ring fuel X h tweet (ring first last : hval) :
  fresh_tree fuel X h tweet ->
  Heap.ring_ends h tweet = Ok (ring, first, last) ->
  exists fuel', fresh_tree fuel' X h ring.
Proof.
  intros Ht. unfold Heap.ring_ends.
  destruct (Heap.getitem h tweet "place") as [place|] eqn:E1; [|done].
  destruct (fresh_getitem _ _ _ _ _ _ Ht E1) as [f1 H1]. py_simpl.
  destruct (Heap.getitem h place "bounding_box") as [bb|] eqn:E2; [|done].
  destruct (fresh_getitem _ _ _ _ _ _ H1 E2) as [f2 H2]. py_simpl.
  destruct (Heap.getitem h bb "coordinates") as [cs|] eqn:E3; [|done].
  destruct (fresh_getitem _ _ _ _ _ _ H2 E3) as [f3 H3]. py_simpl.
  destruct (Heap.getidx h cs 0) as [r|] eqn:E4; [|done].
  destruct (fresh_getidx _ _ _ _ _ _ H3 E4) as [f4 H4]. py_simpl.
  destruct (Heap.getidx h r 0); [|done]. py_simpl.
  destruct (Heap.getidx h r (-1)); [|done]. py_simpl.
  intros [= <- _ _]. now exists f4.
Qed.

(** Closing the ring of a tree of new objects leaves the objects of [X]. *)
Lemma close_ring_frame fuel fuel' X h tweet (l : Heap.loc) :
  fresh_tree fuel' X h tweet -> l ∈ X ->
  Heap.close_ring fuel tweet h !! l = h !! l.
Proof.
  intros Ht Hl. unfold Heap.close_ring.
  destruct (Heap.ring_ends h tweet) as [[[ring first] last]|] eqn:E; [|done].
  destruct (fresh_ring _ _ _ _ _ _ _ Ht E) as [f Hring].
  destruct (Heap.denote fuel h first); [|done].
  destruct (Heap.denote fuel h last); [|done].
  destruct (negb _); [|done].
  destruct ring as [ | | | |l0]; try done. simpl.
  destruct f as [|f]; [done|]. destruct Hring as [Hl0 _].
  destruct (h !! l0) as [[items|elems]|]; try done.
  apply lookup_insert_ne. intros ->. contradiction.
Qed.

(** C10. On a record that can be read from the heap, [insert_tweet] returns
    and leaves every object of the caller's heap as it was, so that the
    caller's record stands for the same value afterwards: [clean_dict] only
    adds objects, and the list that [ring.append] changes is one of the
    objects it added. *)
Theorem insert_tweet_keeps_record fuel (found reached : bool) h tweet (x : value) :
  Heap.denote fuel h tweet = Some x ->
  exists h',
    Heap.insert_tweet fuel found reached tweet h = Some h' /\
    (forall l o, h !! l = Some o -> h' !! l = Some o) /\
    Heap.denote fuel h' tweet = Some x.
Proof.
  intros Hx.
  assert (Hgoal : exists h',
    Heap.insert_tweet fuel found reached tweet h = Some h' /\ h ⊆ h').
  { unfold Heap.insert_tweet. destruct found; [now exists h|].
    destruct (clean_dict_refines _ _ _ _ Hx) as (t' & h1 & -> & Hsub & Hfresh & Hd).
    simpl. destruct reached; [|now exists h1].
    unfold Heap.wkt_block. rewrite Hd. simpl. eexists. split; [reflexivity|].
    destruct (is_ok _); [exact Hsub|].
    apply map_subseteq_spec. intros l o Hl.
    rewrite (close_ring_frame _ _ (dom h) _ _ l Hfresh).
    - exact (lookup_weaken _ _ _ _ Hl Hsub).
    - exact (elem_of_dom_2 _ _ _ Hl). }
  destruct Hgoal as (h' & Hrun & Hsub). exists h'. split; [exact Hrun|]. split.
  - intros l o Hl. exact (lookup_weaken _ _ _ _ Hl Hsub).
  - exact (denote_heap _ _ _ _ _ Hsub Hx).
Qed.

End Frame.

Lemma insert_tweet_keeps_record_witness :
  Heap.denote 8 ex_heap (Heap.HRef 1%positive) = Some ex_record /\
  exists h',
    Heap.insert_tweet 8 false true (Heap.HRef 1%positive) ex_heap = Some h' /\
    (forall l o, ex_heap !! l = Some o -> h' !! l = Some o) /\
    h' !! 10%positive =
      Some (Heap.OList [Heap.HRef 8%positive; Heap.HRef 9%positive; Heap.HRef 8%positive]).
Proof.
  assert (Hd : Heap.denote 8 ex_heap (Heap.HRef 1%positive) = Some ex_record)
    by (vm_compute; reflexivity).
  split; [exact Hd|].
  destruct (insert_tweet_keeps_record 8 false true ex_heap (Heap.HRef 1%positive)
              ex_record Hd) as (h' & Hrun & Hframe & _).
  exists h'. split; [exact Hrun|]. split; [exact Hframe|].
  vm_compute in Hrun. injection Hrun as <-. vm_compute. reflexivity.
Defined.

(** * Further properties of the loaders *)

(** ** Sanitizing twice, and sanitized lookups *)

Section Resanitize.
Context {num : Type} `{PyOps num}.
#[local] Abbreviation value := (value num).

(** X1. [clean_dict] is idempotent: a sanitized record is left as it is by a
    second pass. *)
Theorem clean_dict_idempotent (d : value) :
  Row.clean_dict (Row.clean_dict d) = Row.clean_dict d.
Proof.
  induction d as [ | b | n | s | l IH | kvs IH ] using value_ind'; simpl;
    try reflexivity.
  - rewrite !replace_single. now rewrite delete_nul_twice.
  - f_equal. rewrite map_map. apply map_ext_Forall. exact IH.
  - f_equal. rewrite map_map. apply map_ext_Forall.
    eapply Forall_impl; [exact IH|]. intros [k v] Hv. simpl in *. now rewrite Hv.
Qed.

(** X2. Each [remove_nulls] returns a string without NUL as it is, and so
    does nothing more when it is applied to its own result; both pass [None]
    through and raise [AttributeError] on any other value. *)
Theorem remove_nulls_fixpoints (s : string) :
  (PyStr.has_char PyStr.NUL s = false ->
   Row.remove_nulls (num:=num) (JStr s) = Ok (JStr s) /\
   Batch.remove_nulls (num:=num) (JStr s) = Ok (JStr s)) /\
  (Row.remove_nulls (num:=num) (JStr s) ≫= Row.remove_nulls
   = Row.remove_nulls (JStr s)) /\
  (Batch.remove_nulls (num:=num) (JStr s) ≫= Batch.remove_nulls
   = Batch.remove_nulls (JStr s)) /\
  (forall v : value,
      (forall x, v <> JStr x) -> v <> JNull ->
      Row.remove_nulls v = Raise AttributeError /\
      Batch.remove_nulls v = Raise AttributeError).
Proof.
  split; [|split; [|split]].
  - intros Hs. simpl. rewrite !replace_single, !replace_each_absent by exact Hs.
    split; reflexivity.
  - simpl. rewrite !replace_single. now rewrite delete_nul_twice.
  - simpl. rewrite !replace_single.
    rewrite (replace_each_absent PyStr.NUL "\x00" (replace_each _ _ s));
      [reflexivity|].
    now apply replace_each_no_char.
  - intros v Hstr Hnull. destruct v; try (split; reflexivity);
      [contradiction|exfalso; eapply Hstr; reflexivity].
Qed.

(** X3. Looking a key up in the sanitized record gives the sanitized field,
    and fails in the same way when the record has no such key or is not a
    dict; the same holds for the elements of a list. [clean_dict] never adds,
    drops or renames a key. *)
Theorem clean_dict_lookups (d : value) (k : string) (l : list value) (i : Z) :
  getitem (Row.clean_dict d) k = Row.clean_dict <$> getitem d k /\
  getidx (Row.clean_dict (JList l)) i = Row.clean_dict <$> getidx (JList l) i /\
  (forall kvs, d = JDict kvs ->
     exists kvs', Row.clean_dict d = JDict kvs' /\ dict_keys kvs' = dict_keys kvs).
Proof.
  split; [|split].
  - destruct d as [ | | | | |kvs]; try reflexivity. simpl.
    induction kvs as [|[k' x] kvs IH]; simpl; [reflexivity|].
    destruct (String.eqb k' k); [reflexivity|exact IH].
  - simpl. unfold list_index. rewrite length_map.
    destruct (_ && _); [|reflexivity].
    change (map Row.clean_dict l) with (Row.clean_dict <$> l).
    rewrite list_lookup_fmap. now destruct (l !! _).
  - intros kvs ->. eexists. split; [reflexivity|].
    unfold dict_keys. rewrite map_map. reflexivity.
Qed.

End Resanitize.

Lemma remove_nulls_fixpoints_witness :
  Row.remove_nulls (num:=string) (JStr "hello world") = Ok (JStr "hello world") /\
  Batch.remove_nulls (num:=string) (JStr "hello world") = Ok (JStr "hello world").
Proof.
  destruct (remove_nulls_fixpoints (num:=string) "hello world") as [Hfix _].
  apply Hfix. reflexivity.
Defined.

(** ** Batches at the edges *)

Section BatchEdges.
Context {A : Type}.
Implicit Types (xs : list A).

(** X4. For a positive batch size no chunk that [batch] yields is empty, and
    it yields no chunk at all exactly when the input is empty. *)
Theorem batch_chunks_nonempty xs (n : Z) :
  (0 < n)%Z ->
  exists chunks,
    Batch.batch xs n = Ok chunks /\
    Forall (fun c => c <> []) chunks /\
    (chunks = [] <-> xs = []).
Proof.
  intros Hn. unfold Batch.batch, Batch.py_range.
  destruct (Z.eqb_spec n 0) as [?|_]; [lia|].
  destruct (Z.ltb_spec n 0) as [?|_]; [lia|].
  set (k := Z.to_nat n). set (l := length xs).
  assert (Hk : 0 < k) by (subst k; lia).
  rewrite range_loop_spec by lia. rewrite Nat.sub_0_r.
  set (m := (l + k - 1) / k).
  destruct (div_up_bounds l k Hk) as [Hup Hlow]. fold m in Hup, Hlow.
  eexists. split; [reflexivity|]. cbn [mbind]. split.
  - apply Forall_forall. intros c Hc.
    apply list_elem_of_In, in_map_iff in Hc as (ndx & <- & Hndx).
    apply in_map_iff in Hndx as (j & <- & Hj). apply in_seq in Hj.
    assert (0 < l) by (destruct l; [subst m; rewrite Nat.div_small in Hj; lia|lia]).
    specialize (Hlow ltac:(lia)).
    assert (j * k <= (m - 1) * k) by (apply Nat.mul_le_mono_r; lia).
    intros Hnil. apply (f_equal length) in Hnil.
    unfold Batch.slice in Hnil. rewrite length_take, length_drop in Hnil.
    fold l in Hnil. simpl in Hnil. lia.
  - split.
    + intros Hnil. apply (f_equal length) in Hnil.
      rewrite !length_map, length_seq in Hnil. simpl in Hnil.
      destruct xs; [reflexivity|]. simpl in l. lia.
    + intros ->. subst l m. simpl. rewrite Nat.div_small by lia. reflexivity.
Qed.

End BatchEdges.

Lemma batch_chunks_nonempty_witness :
  (0 < 2)%Z /\
  Forall (fun c : list nat => c <> []) [[1; 2]; [3; 4]; [5]] /\
  Batch.batch ([] : list nat) 2 = Ok [].
Proof.
  split; [lia|].
  destruct (batch_chunks_nonempty [1; 2; 3; 4; 5] 2 ltac:(lia)) as (c & Hc & Hne & _).
  vm_compute in Hc. injection Hc as <-. split; [exact Hne|reflexivity].
Defined.

Section BatchSizes.
Context {num : Type} `{PyOps num}.
#[local] Abbreviation value := (value num).

(** X5. [insert_tweets] with a batch size of zero raises [ValueError] before
    anything is executed; with a negative batch size it returns without
    executing anything and without an error, whatever the records; with no
    record it executes nothing. *)
Theorem insert_tweets_batch_size (conn : Batch.connection) (tweets : list value)
  (n : Z) :
  (n = 0%Z -> Batch.insert_tweets conn tweets n = (Raise ValueError, conn)) /\
  ((n < 0)%Z -> Batch.insert_tweets conn tweets n = (Ok (), conn)) /\
  ((0 < n)%Z -> Batch.insert_tweets conn [] n = (Ok (), conn)).
Proof.
  unfold Batch.insert_tweets, Batch.batch, Batch.py_range. split; [|split].
  - intros ->. reflexivity.
  - intros Hn. destruct (Z.eqb_spec n 0) as [?|_]; [lia|].
    destruct (Z.ltb_spec n 0) as [_|?]; [reflexivity|lia].
  - intros Hn. destruct (Z.eqb_spec n 0) as [?|_]; [lia|].
    destruct (Z.ltb_spec n 0) as [?|_]; [lia|]. reflexivity.
Qed.

End BatchSizes.

Lemma insert_tweets_batch_size_witness :
  Batch.insert_tweets [] [place_tweet; extended_tweet] 0 = (Raise ValueError, []) /\
  Batch.insert_tweets [] [place_tweet; extended_tweet] (-5) = (Ok (), []).
Proof.
  destruct (insert_tweets_batch_size [] [place_tweet; extended_tweet] 0)
    as (H0 & _ & _).
  destruct (insert_tweets_batch_size [] [place_tweet; extended_tweet] (-5))
    as (_ & Hneg & _).
  split; [apply H0; reflexivity|apply Hneg; lia].
Defined.

(** ** The rows of a batch *)

Section BatchRows.
Context {num : Type} `{PyOps num}.
#[local] Abbreviation value := (value num).
Implicit Types (tweet : value) (row : list (string * value))
  (rows : list (list (string * value))) (ls : @Batch.row_lists num).

Lemma bind_Ok_inv {A B} (r : result A) (f : A -> result B) (b : B) :
  r ≫= f = Ok b -> exists a, r = Ok a /\ f a = Ok b.
Proof. destruct r as [a|e]; [eauto|discriminate]. Qed.

Lemma dict_display_keys (items : list (string * result value)) row :
  dict_display items = Ok row -> dict_keys row = map fst items.
Proof.
  revert row. induction items as [|[k e] items IH]; intros row; simpl.
  - intros [= <-]. reflexivity.
  - intros Hd. apply bind_Ok_inv in Hd as (v & _ & Hd).
    apply bind_Ok_inv in Hd as (kvs & Hk & Hd). injection Hd as <-.
    simpl. now rewrite (IH _ Hk).
Qed.

Lemma dict_display_head (k : string) (e : result value)
  (items : list (string * result value)) row :
  dict_display ((k, e) :: items) = Ok row ->
  exists v, e = Ok v /\ dict_lookup k row = Some v.
Proof.
  simpl. intros Hd. apply bind_Ok_inv in Hd as (v & Hv & Hd).
  apply bind_Ok_inv in Hd as (kvs & _ & Hd). injection Hd as <-.
  exists v. split; [exact Hv|]. simpl. now rewrite String.eqb_refl.
Qed.

Lemma mapM_Forall {A B} (f : A -> result B) (P : B -> Prop) (xs : list A)
  (ys : list B) :
  (forall x y, f x = Ok y -> P y) -> mapM f xs = Ok ys -> Forall P ys.
Proof.
  intros Hf. revert ys. induction xs as [|x xs IH]; intros ys; simpl.
  - intros [= <-]. constructor.
  - intros Hm. apply bind_Ok_inv in Hm as (y & Hy & Hm).
    apply bind_Ok_inv in Hm as (ys' & Hys & Hm). injection Hm as <-.
    constructor; [exact (Hf _ _ Hy)|exact (IH _ Hys)].
Qed.

Lemma columns_are_app (ks : list string) rows rows' :
  columns_are ks rows -> columns_are ks rows' -> columns_are ks (rows ++ rows').
Proof. apply Forall_app_2. Qed.

(** One turn of the loop adds one row to [users] and one to [tweets], each
    with the ids of the record, and keeps the columns of every list. *)
Lemma generate_spec ls ls' tweet :
  Batch.generate ls tweet = Ok ls' ->
  (exists urow trow,
      Batch.users ls' = Batch.users ls ++ [urow] /\
      Batch.tweets ls' = Batch.tweets ls ++ [trow] /\
      row_of_author tweet urow /\ row_of_tweet tweet trow) /\
  (lists_shaped ls -> lists_shaped ls').
Proof.
  unfold Batch.generate. intros Hg.
  repeat match type of Hg with
  | _ ≫= _ = Ok _ =>
      let a := fresh "a" in let Ha := fresh "Ha" in
      apply bind_Ok_inv in Hg as (a & Ha & Hg)
  end.
  injection Hg as <-. cbn [Batch.users Batch.tweets].
  split.
  - eexists _, _. split; [reflexivity|]. split; [reflexivity|]. split.
    + unfold Batch.user_row in Ha. apply dict_display_head in Ha as (v & Hv & Hl).
      apply bind_Ok_inv in Hv as (u & Hu & Hv). exists u, v. auto.
    + match goal with Ht : Batch.tweet_row _ _ _ _ _ _ _ = Ok _ |- _ =>
        unfold Batch.tweet_row in Ht;
        apply dict_display_head in Ht as (v & Hv & Hl) end.
      exists v. auto.
  - intros (Hu & Ht & Hr & Hms & Hm & Htg & Hmd & Hur).
    unfold lists_shaped. cbn.
    repeat split; apply columns_are_app; try assumption.
    + constructor; [|constructor]. exact (dict_display_keys _ _ Ha).
    + constructor; [|constructor].
      match goal with Hrow : Batch.tweet_row _ _ _ _ _ _ _ = Ok _ |- _ =>
        exact (dict_display_keys _ _ Hrow) end.
    + match goal with Hrep : Batch.reply_rows _ = Ok _ |- _ =>
        unfold Batch.reply_rows in Hrep;
        apply bind_Ok_inv in Hrep as (reply & _ & Hrep);
        destruct reply;
        try (apply bind_Ok_inv in Hrep as (row & Hrow & Hrep);
             injection Hrep as <-; constructor; [|constructor];
             exact (dict_display_keys _ _ Hrow));
        injection Hrep as <-; constructor
      end.
    + match goal with Hmm : mapM _ _ = Ok ?rows |- columns_are _ (map fst ?rows) =>
        apply Forall_map;
        eapply mapM_Forall; [|exact Hmm] end.
      intros x [stub link] Hx. apply bind_Ok_inv in Hx as (s0 & Hs & Hx).
      apply bind_Ok_inv in Hx as (l0 & Hl & Hx). injection Hx as <- <-.
      exact (dict_display_keys _ _ Hs).
    + match goal with Hmm : mapM _ _ = Ok ?rows |- columns_are _ (map snd ?rows) =>
        apply Forall_map;
        eapply mapM_Forall; [|exact Hmm] end.
      intros x [stub link] Hx. apply bind_Ok_inv in Hx as (s0 & Hs & Hx).
      apply bind_Ok_inv in Hx as (l0 & Hl & Hx). injection Hx as <- <-.
      exact (dict_display_keys _ _ Hl).
    + match goal with Hmm : mapM _ (_ ++ _) = Ok _ |- _ =>
        eapply mapM_Forall; [|exact Hmm] end.
      intros x y Hx. exact (dict_display_keys _ _ Hx).
    + match goal with
      | Hmm : mapM (fun medium => _) _ = Ok ?rows |- columns_are _ ?rows =>
          eapply mapM_Forall; [|exact Hmm] end.
      intros x y Hx. exact (dict_display_keys _ _ Hx).
    + match goal with
      | Hmm : mapM (fun url_obj => _) _ = Ok ?rows |- columns_are _ ?rows =>
          eapply mapM_Forall; [|exact Hmm] end.
      intros x y Hx. exact (dict_display_keys _ _ Hx).
Qed.

Lemma generate_all_spec ls ls' (input_tweets : list value) :
  Batch.generate_all ls input_tweets = Ok ls' ->
  (exists urows trows,
      Batch.users ls' = Batch.users ls ++ urows /\
      Batch.tweets ls' = Batch.tweets ls ++ trows /\
      Forall2 row_of_author input_tweets urows /\
      Forall2 row_of_tweet input_tweets trows) /\
  (lists_shaped ls -> lists_shaped ls').
Proof.
  revert ls. induction input_tweets as [|tweet rest IH]; intros ls; simpl.
  - intros [= <-]. split; [|auto].
    exists [], []. rewrite !app_nil_r. repeat split; constructor.
  - intros Hg. apply bind_Ok_inv in Hg as (ls1 & H1 & Hg).
    destruct (generate_spec _ _ _ H1) as [(urow & trow & Hu & Ht & Ha & Hi) Hs1].
    destruct (IH _ Hg) as [(urows & trows & Hus & Hts & Has & His) Hs].
    split; [|auto].
    exists (urow :: urows), (trow :: trows).
    rewrite Hus, Hts, Hu, Ht, <- !app_assoc. repeat split; constructor; assumption.
Qed.

Lemma bulk_insert_shaped (ks : list string) (conn : Batch.connection)
  (table : string) rows :
  columns_are ks rows ->
  exists new, Batch.bulk_insert conn table rows = (Ok (), conn ++ new) /\
              length new <= 1.
Proof.
  intros Hks. unfold Batch.bulk_insert.
  destruct rows as [|row0 rows']; simpl.
  - exists []. rewrite app_nil_r. split; [reflexivity|simpl; lia].
  - assert (Hall : forallb (fun row => bool_decide
                      (Batch.row_keys row = Batch.row_keys row0)) (row0 :: rows')
                   = true).
    { apply forallb_forall. intros row Hin. apply bool_decide_eq_true.
      unfold Batch.row_keys.
      rewrite (proj1 (Forall_forall _ _) Hks row) by now apply list_elem_of_In.
      rewrite (proj1 (Forall_forall _ _) Hks row0) by left. reflexivity. }
    cbn [forallb] in Hall. rewrite Hall.
    eexists [_]. split; [reflexivity|simpl; lia].
Qed.

Lemma bulk_inserts_shaped (conn : Batch.connection)
  (work : list (string * list (list (string * value)))) :
  Forall (fun tr => exists ks, columns_are ks (snd tr)) work ->
  exists new, Batch.bulk_inserts conn work = (Ok (), conn ++ new) /\
              length new <= length work.
Proof.
  intros Hw. revert conn. induction Hw as [|[table rows] work [ks Hks] _ IH];
    intros conn; simpl.
  - exists []. rewrite app_nil_r. split; [reflexivity|simpl; lia].
  - destruct (bulk_insert_shaped ks conn table rows Hks) as (new1 & -> & H1).
    destruct (IH (conn ++ new1)) as (new2 & -> & H2).
    exists (new1 ++ new2). rewrite app_assoc, List.length_app.
    split; [reflexivity|lia].
Qed.

Lemma no_rows_shaped : lists_shaped (Batch.no_rows (num:=num)).
Proof. repeat split; constructor. Qed.

(** X6. [_insert_tweets] either fails while it prepares the rows, and then
    nothing at all has been executed, or it returns: the grouped inserts of
    the second step never raise, since all the rows of a list are built with
    the same columns. In that case at most seven grouped inserts are executed,
    followed by the one statement for [tweets], which has one tuple per
    record. *)
Theorem batch_insert_outcome (conn : Batch.connection) (input_tweets : list value) :
  (forall e, Batch.generate_all Batch.no_rows input_tweets = Raise e ->
             Batch._insert_tweets conn input_tweets = (Raise e, conn)) /\
  (forall ls, Batch.generate_all Batch.no_rows input_tweets = Ok ls ->
     exists stmts,
       Batch._insert_tweets conn input_tweets =
       (Ok (), (conn ++ stmts) ++
               [(Batch.tweets_sql (length input_tweets),
                 Batch.binds_of (Batch.tweets ls))]) /\
       length stmts <= 7).
Proof.
  unfold Batch._insert_tweets. split.
  - intros e ->. reflexivity.
  - intros ls Hls. rewrite Hls.
    destruct (generate_all_spec _ _ _ Hls)
      as [(urows & trows & _ & Ht & _ & Hf) Hshaped].
    destruct (Hshaped no_rows_shaped)
      as (Hu & _ & Hr & Hms & Hm & Htg & Hmd & Hur).
    match goal with |- context [Batch.bulk_inserts conn ?w] =>
      destruct (bulk_inserts_shaped conn w) as (stmts & -> & Hlen) end.
    { repeat (constructor; [eexists; simpl; eassumption|]). constructor. }
    exists stmts. split; [|exact Hlen].
    simpl in Ht. rewrite Ht. now rewrite (Forall2_length _ _ _ Hf).
Qed.

(** X7. When the rows of a batch can be prepared, [users] and [tweets] get
    one row per record, in the order of the records: the row of [users]
    carries the id of the record's author and the row of [tweets] the id of
    the record. Every row of every list has the full set of columns of that
    list. *)
Theorem batch_rows_follow_records (input_tweets : list value) ls :
  Batch.generate_all Batch.no_rows input_tweets = Ok ls ->
  Forall2 row_of_author input_tweets (Batch.users ls) /\
  Forall2 row_of_tweet input_tweets (Batch.tweets ls) /\
  lists_shaped ls.
Proof.
  intros Hls.
  destruct (generate_all_spec _ _ _ Hls) as [(urows & trows & -> & -> & Ha & Hi) Hs].
  simpl. split; [exact Ha|]. split; [exact Hi|]. exact (Hs no_rows_shaped).
Qed.

End BatchRows.

Lemma batch_insert_outcome_witness :
  exists ls stmts,
    Batch.generate_all Batch.no_rows [place_tweet; extended_tweet] = Ok ls /\
    Batch._insert_tweets [] [place_tweet; extended_tweet] =
    (Ok (), stmts ++ [(Batch.tweets_sql 2, Batch.binds_of (Batch.tweets ls))]) /\
    length stmts <= 7.
Proof.
  destruct (Batch.generate_all Batch.no_rows [place_tweet; extended_tweet])
    as [ls|e] eqn:E; [|vm_compute in E; discriminate].
  destruct (batch_insert_outcome [] [place_tweet; extended_tweet]) as [_ Hok].
  destruct (Hok ls E) as (stmts & Hrun & Hlen).
  exists ls, stmts. split; [reflexivity|]. split; [exact Hrun|exact Hlen].
Defined.

Lemma batch_rows_follow_records_witness :
  exists ls,
    Batch.generate_all Batch.no_rows [place_tweet; extended_tweet] = Ok ls /\
    Forall2 row_of_tweet [place_tweet; extended_tweet] (Batch.tweets ls) /\
    length (Batch.users ls) = 2.
Proof.
  destruct (Batch.generate_all Batch.no_rows [place_tweet; extended_tweet])
    as [ls|e] eqn:E; [|vm_compute in E; discriminate].
  destruct (batch_rows_follow_records [place_tweet; extended_tweet] ls E)
    as (Ha & Hi & _).
  exists ls. split; [reflexivity|]. split; [exact Hi|].
  now rewrite <- (Forall2_length _ _ _ Ha).
Defined.

(** ** The statement and the parameters of a grouped insert *)

Lemma Ok_pair_inj {A B} (a a' : A) (b b' : B) :
  Ok (a, b) = Ok (a', b') -> a = a' /\ b = b'.
Proof. intros E. now inversion E. Qed.

Lemma words_no_space (c : ascii) (s : string) :
  PyStr.is_space c = true ->
  Forall (fun w => PyStr.has_char c w = false) (PyStr.words s).
Proof.
  intros Hc.
  assert (Hne : forall a, PyStr.is_space a = false -> Ascii.eqb a c = false).
  { intros a Ha. destruct (Ascii.eqb_spec a c) as [->|]; congruence. }
  induction s as [|a s IH]; simpl; [constructor|].
  destruct (PyStr.is_space a) eqn:Ea; [exact IH|].
  destruct s as [|d s'].
  - constructor; [|constructor]. simpl. now rewrite (Hne _ Ea).
  - destruct (PyStr.is_space d) eqn:Ed.
    + constructor; [|exact IH]. simpl. now rewrite (Hne _ Ea).
    + destruct (PyStr.words (String d s')) as [|w ws].
      * constructor; [|constructor]. simpl. now rewrite (Hne _ Ea).
      * apply Forall_cons in IH as [Hw Hws]. constructor; [|exact Hws].
        simpl. now rewrite (Hne _ Ea), Hw.
Qed.

Lemma join_no_char (c : ascii) (sep : string) (ws : list string) :
  PyStr.has_char c sep = false ->
  Forall (fun w => PyStr.has_char c w = false) ws ->
  PyStr.has_char c (PyStr.join sep ws) = false.
Proof.
  intros Hsep Hws. induction Hws as [|w ws Hw Hws IH]; [reflexivity|].
  destruct ws as [|w' ws]; [exact Hw|].
  change (PyStr.join sep (w :: w' :: ws))
    with (w +:+ sep +:+ PyStr.join sep (w' :: ws)).
  rewrite !has_char_app, Hw, Hsep, IH. reflexivity.
Qed.

Section Statement.
Context {num : Type} `{PyOps num}.
#[local] Abbreviation value := (value num).
Implicit Types (rows : list (list (string * value))).

Lemma foldl_store_lookup_inv (es : list (string * value)) (n : string) (v : value) :
  foldl store_entry ∅ es !! n = Some v -> In (n, v) es.
Proof.
  induction es as [|[n' v'] es IH] using rev_ind; [done|].
  rewrite foldl_snoc. unfold store_entry at 1. cbn [fst snd].
  destruct (decide (n' = n)) as [->|Hne].
  - rewrite lookup_insert_eq. intros [= ->]. apply in_or_app. right. now left.
  - rewrite lookup_insert_ne by exact Hne. intros Hl.
    apply in_or_app. left. exact (IH Hl).
Qed.

Lemma enumerate_in {A} (l : list A) (i : nat) (x : A) :
  In (i, x) (Batch.enumerate l) -> l !! i = Some x.
Proof.
  intros Hin. apply list_elem_of_In, list_elem_of_lookup in Hin as [j Hj].
  unfold Batch.enumerate in Hj.
  apply lookup_zip_with_Some in Hj as (i' & x' & [= <- <-] & Hi & Hx).
  apply lookup_seq in Hi as [-> _]. exact Hx.
Qed.

(** X8. Every parameter that [_bulk_insert_sql] binds comes from a field of
    a row: its name is the key of the field followed by the index of the
    row, and its value is the value of that field. *)
Theorem bulk_insert_binds_sound (table : string) rows (sql : string)
  (binds : gmap string value) :
  Batch._bulk_insert_sql table rows = Ok (sql, binds) ->
  forall n v, binds !! n = Some v ->
    exists i row k, rows !! i = Some row /\ In (k, v) row /\ n = k +:+ pretty i.
Proof.
  unfold Batch._bulk_insert_sql. destruct rows as [|row0 rows']; [discriminate|].
  destruct (forallb _ _); [|discriminate]. intros E n v Hl.
  apply Ok_pair_inj in E as [_ <-].
  rewrite binds_of_entries in Hl. apply foldl_store_lookup_inv in Hl.
  unfold bind_entries in Hl. apply in_flat_map in Hl as ([i row] & Hir & Hkv).
  apply in_map_iff in Hkv as ([k v'] & [= <- <-] & Hk).
  exists i, row, k. split; [now apply enumerate_in|]. split; [exact Hk|reflexivity].
Qed.

(** X9. The text of the statement that [_bulk_insert_sql] returns is on one
    line: of the white space characters it contains only the space, whatever
    the table name and the keys. *)
Theorem bulk_insert_sql_one_line (table : string) rows (sql : string)
  (binds : gmap string value) (c : ascii) :
  Batch._bulk_insert_sql table rows = Ok (sql, binds) ->
  PyStr.is_space c = true -> c <> " "%char ->
  PyStr.has_char c sql = false.
Proof.
  unfold Batch._bulk_insert_sql. destruct rows as [|row0 rows']; [discriminate|].
  destruct (forallb _ _); [|discriminate]. intros E Hc Hne.
  apply Ok_pair_inj in E as [<- _].
  apply join_no_char; [|now apply words_no_space].
  cbn [PyStr.has_char]. rewrite orb_false_r.
  apply Ascii.eqb_neq. intros E. apply Hne. now symmetry.
Qed.

End Statement.

Lemma bulk_insert_binds_sound_witness :
  let rows : list (list (string * value string)) :=
    [[("id_tweets", JNum "1"); ("tag", JStr "#a")];
     [("id_tweets", JNum "1"); ("tag", JStr "#b")]] in
  exists sql binds,
    Batch._bulk_insert_sql "tweet_tags" rows = Ok (sql, binds) /\
    binds !! "tag1" = Some (JStr "#b") /\
    exists i row k, rows !! i = Some row /\ In (k, JStr "#b") row /\
                    "tag1" = k +:+ pretty i.
Proof.
  intros rows.
  destruct (Batch._bulk_insert_sql "tweet_tags" rows) as [[sql binds]|e] eqn:E;
    [|vm_compute in E; discriminate].
  exists sql, binds. split; [reflexivity|].
  assert (Hb : binds !! "tag1" = Some (JStr "#b")).
  { vm_compute in E. apply Ok_pair_inj in E as [_ <-]. vm_compute. reflexivity. }
  split; [exact Hb|].
  exact (bulk_insert_binds_sound "tweet_tags" rows sql binds E _ _ Hb).
Defined.

Lemma bulk_insert_sql_one_line_witness :
  let rows : list (list (string * value string)) :=
    [[("id_tweets", JNum "1"); ("tag", JStr "#a")];
     [("id_tweets", JNum "1"); ("tag", JStr "#b")]] in
  exists sql binds,
    Batch._bulk_insert_sql "tweet_tags" rows = Ok (sql, binds) /\
    sql = "INSERT INTO tweet_tags (id_tweets,tag) VALUES (:id_tweets0,:tag0),(:id_tweets1,:tag1) ON CONFLICT DO NOTHING" /\
    PyStr.has_char "010"%char sql = false.
Proof.
  intros rows.
  destruct (Batch._bulk_insert_sql "tweet_tags" rows) as [[sql binds]|e] eqn:E;
    [|vm_compute in E; discriminate].
  exists sql, binds. split; [reflexivity|]. split.
  - vm_compute in E. apply Ok_pair_inj in E as [<- _]. reflexivity.
  - apply (bulk_insert_sql_one_line "tweet_tags" rows sql binds _ E);
      [reflexivity|discriminate].
Defined.

(** ** The location, further *)

Lemma list_index_app_head {A} (l : list A) (x y : A) :
  list_index l 0 = Some x -> list_index (l ++ [y]) 0 = Some x.
Proof. destruct l as [|a l]; [discriminate|]. intros [= <-]. reflexivity. Qed.

Lemma list_index_snoc {A} (l : list A) (y : A) :
  list_index (l ++ [y]) (-1) = Some y.
Proof.
  pose proof (list_index_last id (l ++ [y]) y) as E.
  rewrite map_id, last_last in E. apply E. now destruct l.
Qed.

Section MoreLocation.
Context {num : Type} `{PyOps num}.
#[local] Abbreviation value := (value num).

(** X10. The ring that the row strategy hands to the polygon is closed: its
    first and its last vertex are equal for [==], or the last one is the
    first one, appended by the code. *)
Theorem closed_ring_is_closed (tweet ring : value) :
  Row.closed_ring tweet = Ok ring ->
  exists first last,
    getidx ring 0 = Ok first /\ getidx ring (-1) = Ok last /\
    (py_eqb first last = true \/ last = first).
Proof.
  unfold Row.closed_ring. intros Hr.
  repeat match type of Hr with
  | _ ≫= _ = Ok _ =>
      let a := fresh "a" in let Ha := fresh "Ha" in
      apply bind_Ok_inv in Hr as (a & Ha & Hr)
  end.
  match goal with
  | Hf : getidx ?r 0 = Ok ?f, Hl : getidx ?r (-1) = Ok ?l |- _ =>
      destruct (py_eqb f l) eqn:E; simpl in Hr
  end.
  - injection Hr as <-.
    match goal with
    | Hf : getidx ?r 0 = Ok ?f, Hl : getidx ?r (-1) = Ok ?l |- _ =>
        exists f, l; auto
    end.
  - match goal with Hf : getidx ?r 0 = Ok ?f |- _ =>
      destruct r as [ | | | |l0| ]; try discriminate;
      injection Hr as <-; exists f, f; simpl in Hf |- *;
      destruct (list_index l0 0) as [x|] eqn:E0; [|discriminate];
      injection Hf as ->;
      rewrite (list_index_app_head _ _ _ E0), list_index_snoc
    end.
    auto.
Qed.

(** X11. The WKT block of the row strategy never raises, whatever the record:
    its value is [None], or a string that starts with [POINT(] or with
    [POLYGON((]. The point comes first: when the direct coordinates can be
    read the value is the point, whether or not the place has a bounding
    box. *)
Theorem geo_wkt_shape (tweet : value) :
  exists w,
    Row.geo_wkt tweet = Ok w /\
    (w = JNull \/
     exists s, w = JStr ("POINT(" +:+ s) \/ w = JStr ("POLYGON((" +:+ s)) /\
    (forall p, Row.point_wkt tweet = Ok p -> w = p).
Proof.
  unfold Row.geo_wkt.
  destruct (Row.point_wkt tweet) as [p|e] eqn:Ep; simpl.
  - exists p. split; [reflexivity|]. split; [|now intros ? [= <-]].
    unfold Row.point_wkt in Ep.
    repeat match type of Ep with
    | _ ≫= _ = Ok _ =>
        let a := fresh "a" in let Ha := fresh "Ha" in
        apply bind_Ok_inv in Ep as (a & Ha & Ep)
    end.
    injection Ep as <-. right. eexists. left. reflexivity.
  - destruct (Row.polygon_wkt tweet) as [p|e'] eqn:Eq; simpl.
    + exists p. split; [reflexivity|]. split; [|discriminate].
      unfold Row.polygon_wkt in Eq.
      repeat match type of Eq with
      | _ ≫= _ = Ok _ =>
          let a := fresh "a" in let Ha := fresh "Ha" in
          apply bind_Ok_inv in Eq as (a & Ha & Eq)
      end.
      injection Eq as <-. right. eexists. right. reflexivity.
    + exists JNull. split; [reflexivity|]. split; [now left|discriminate].
Qed.

(** X12. The batch strategy handles only the [TypeError] of a [geo] that is
    [None]: a record without the key [geo], or whose [geo] has no
    [coordinates], makes it raise [KeyError], and one with fewer than two
    coordinates [IndexError]; the row strategy derives a location value for
    each of these records. *)
Theorem batch_geo_unhandled (d : list (string * value)) :
  (dict_lookup "geo" d = None -> Batch.geo (JDict d) = Raise KeyError) /\
  (forall g, dict_lookup "geo" d = Some (JDict g) ->
     dict_lookup "coordinates" g = None ->
     Batch.geo (JDict d) = Raise KeyError) /\
  (forall g l, dict_lookup "geo" d = Some (JDict g) ->
     dict_lookup "coordinates" g = Some (JList l) -> length l < 2 ->
     Batch.geo (JDict d) = Raise IndexError) /\
  (dict_lookup "geo" d = Some JNull -> Batch.geo (JDict d) = Ok (JNull, JNull)) /\
  is_ok (Row.geo_wkt (JDict d)) = true.
Proof.
  unfold Batch.geo, getitem. repeat split.
  - intros ->. reflexivity.
  - intros g -> Hc. py_simpl. rewrite Hc. reflexivity.
  - intros g l -> Hc Hl. py_simpl. rewrite Hc. py_simpl.
    destruct l as [|x [|y l]]; [reflexivity|reflexivity|simpl in Hl; lia].
  - intros ->. reflexivity.
  - unfold Row.geo_wkt. destruct (Row.point_wkt _); [reflexivity|].
    destruct (Row.polygon_wkt _); reflexivity.
Qed.

End MoreLocation.

Lemma closed_ring_is_closed_witness :
  exists ring,
    Row.closed_ring place_tweet = Ok ring /\
    getidx ring 0 = Ok (JList [JNum "-122.5"; JNum "37.7"]) /\
    getidx ring (-1) = Ok (JList [JNum "-122.5"; JNum "37.7"]).
Proof.
  destruct (Row.closed_ring place_tweet) as [ring|e] eqn:E;
    [|vm_compute in E; discriminate].
  destruct (closed_ring_is_closed place_tweet ring E) as (f & l & Hf & Hl & _).
  exists ring. split; [reflexivity|].
  vm_compute in E. injection E as <-. split; reflexivity.
Defined.

Lemma batch_geo_unhandled_witness :
  Batch.geo (num:=string) (JDict [("id", JNum "4"); ("text", JStr "no geo")])
  = Raise KeyError /\
  Batch.geo (num:=string)
    (JDict [("geo", JDict [("coordinates", JList [JNum "1.5"])])])
  = Raise IndexError.
Proof.
  split.
  - destruct (batch_geo_unhandled (num:=string)
                [("id", JNum "4"); ("text", JStr "no geo")]) as (Hno & _).
    apply Hno. reflexivity.
  - destruct (batch_geo_unhandled (num:=string)
                [("geo", JDict [("coordinates", JList [JNum "1.5"])])])
      as (_ & _ & Hshort & _).
    apply (Hshort _ [JNum "1.5"] eq_refl eq_refl). simpl. lia.
Defined.

(** ** The containers, further *)

Section MoreContainers.
Context {num : Type} `{PyOps num}.
#[local] Abbreviation value := (value num).

(** X13. On a record that has the default container of a kind, and whose
    extended container, when there is one, is a dict with [entities] absent or
    a dict, the row strategy's lookup with defaults and the batch strategy's
    [try] with [except KeyError] give the same container; so both strategies
    use the same urls and the same mentions. *)
Theorem entity_strategies_agree (d ents : list (string * value)) (kind : string)
  (dflt : value) :
  dict_lookup "entities" d = Some (JDict ents) ->
  dict_lookup kind ents = Some dflt ->
  extended_shaped d ->
  Row.entity_list (JDict d) kind =
  try_except_only KeyError (Batch.extended_entity (JDict d) kind)
                           (Batch.default_entity (JDict d) kind) /\
  (kind = "urls" -> Row.urls (JDict d) = Batch.urls (JDict d)) /\
  (kind = "user_mentions" -> Row.mentions (JDict d) = Batch.mentions (JDict d)).
Proof.
  intros He Hk Hx.
  assert (Hmain : Row.entity_list (JDict d) kind =
    try_except_only KeyError (Batch.extended_entity (JDict d) kind)
                             (Batch.default_entity (JDict d) kind)).
  { unfold Row.entity_list, Batch.extended_entity, Batch.default_entity,
      get, get_with, getitem, extended_shaped in *.
    rewrite He. py_simpl. rewrite Hk.
    destruct (dict_lookup "extended_tweet" d) as [[ | | | | |ext]|];
      try contradiction; py_simpl; cbn [default from_option id]; py_simpl;
      [|reflexivity].
    destruct (dict_lookup "entities" ext) as [[ | | | | |xents]|];
      try contradiction; py_simpl; cbn [default from_option id dict_lookup];
      py_simpl; [|reflexivity].
    destruct (dict_lookup kind xents); reflexivity. }
  split; [exact Hmain|]. split; intros ->; exact Hmain.
Qed.

(** X14. The row strategy evaluates the default before it looks at the
    extended container: a record without [entities] makes its container
    lookup raise [KeyError], and a record without [text] makes its text lookup
    raise [KeyError], even when the extended container has the field. The
    batch strategy uses the extended field of such a record. *)
Theorem row_defaults_are_required (d ext : list (string * value)) :
  dict_lookup "extended_tweet" d = Some (JDict ext) ->
  (forall xents kind v,
      dict_lookup "entities" d = None ->
      dict_lookup "entities" ext = Some (JDict xents) ->
      dict_lookup kind xents = Some v ->
      Row.entity_list (JDict d) kind = Raise KeyError /\
      try_except_only KeyError (Batch.extended_entity (JDict d) kind)
                               (Batch.default_entity (JDict d) kind) = Ok v) /\
  (forall full,
      dict_lookup "text" d = None ->
      dict_lookup "full_text" ext = Some full ->
      Row.body_text (JDict d) = Raise KeyError /\
      Batch.body_text (JDict d) = Batch.remove_nulls full).
Proof.
  intros Hx. split.
  - intros xents kind v He Hxe Hk.
    unfold Row.entity_list, Batch.extended_entity, Batch.default_entity,
      get, get_with, getitem.
    rewrite Hx, He. py_simpl. cbn [default from_option id]. py_simpl.
    rewrite Hxe. py_simpl. cbn [default from_option id]. py_simpl.
    rewrite Hk. split; reflexivity.
  - intros full Ht Hf.
    unfold Row.body_text, Batch.body_text, Batch.text, get, get_with, getitem.
    rewrite Hx, Ht. py_simpl. cbn [default from_option id]. py_simpl.
    rewrite Hf. split; reflexivity.
Qed.

Lemma mapM_Forall2 {A B} (f : A -> result B) (xs : list A) (ys : list B) :
  mapM f xs = Ok ys -> Forall2 (fun x y => f x = Ok y) xs ys.
Proof.
  revert ys. induction xs as [|x xs IH]; intros ys; simpl.
  - intros [= <-]. constructor.
  - intros Hm. apply bind_Ok_inv in Hm as (y & Hy & Hm).
    apply bind_Ok_inv in Hm as (ys' & Hys & Hm). injection Hm as <-.
    constructor; [exact Hy|exact (IH _ Hys)].
Qed.

(** X15. The tags of a record are the hashtags, each with [#] before its
    text, followed by the symbols, each with [$] before its text, in the
    order of the containers: there is one tag per entity. *)
Theorem tags_of_entities (hs cs : list value) (ts : list value) :
  Row.tags (JList hs) (JList cs) = Ok ts ->
  exists hts cts,
    ts = hts ++ cts /\
    Forall2 (fun h t => exists s, getitem h "text" = Ok (JStr s) /\
                                  t = JStr ("#" +:+ s)) hs hts /\
    Forall2 (fun c t => exists s, getitem c "text" = Ok (JStr s) /\
                                  t = JStr ("$" +:+ s)) cs cts.
Proof.
  unfold Row.tags. cbn [iterate]. py_simpl. intros Ht.
  apply bind_Ok_inv in Ht as (hts & Hh & Ht).
  apply bind_Ok_inv in Ht as (cts & Hc & Ht). injection Ht as <-.
  exists hts, cts. split; [reflexivity|].
  split; (eapply Forall2_impl; [apply mapM_Forall2; eassumption|]);
    intros x t Hx; simpl in Hx;
    apply bind_Ok_inv in Hx as (v & Hv & Hx);
    destruct v; try discriminate; injection Hx as <-; eauto.
Qed.

End MoreContainers.

Lemma entity_strategies_agree_witness :
  Row.urls extended_tweet = Batch.urls extended_tweet /\
  Row.mentions place_tweet = Batch.mentions place_tweet.
Proof.
  split.
  - unfold extended_tweet.
    match goal with |- Row.urls (JDict ?d) = _ =>
      destruct (entity_strategies_agree (num:=string) d _ "urls" (JList [])
                  eq_refl eq_refl I) as (_ & Hu & _) end.
    exact (Hu eq_refl).
  - unfold place_tweet.
    match goal with |- Row.mentions (JDict ?d) = _ =>
      destruct (entity_strategies_agree (num:=string) d _ "user_mentions"
                  (JList []) eq_refl eq_refl I) as (_ & _ & Hm) end.
    exact (Hm eq_refl).
Defined.

Lemma row_defaults_are_required_witness :
  let d : list (string * value string) :=
    [("id", JNum "5");
     ("extended_tweet",
      JDict [("full_text", JStr "long text");
             ("entities", JDict [("urls", JList [])])])] in
  Row.body_text (JDict d) = Raise KeyError /\
  Batch.body_text (JDict d) = Ok (JStr "long text") /\
  Row.urls (JDict d) = Raise KeyError /\
  Batch.urls (JDict d) = Ok (JList []).
Proof.
  intros d.
  destruct (row_defaults_are_required (num:=string) d _ eq_refl) as [He Ht].
  destruct (Ht (JStr "long text") eq_refl eq_refl) as [-> ->].
  destruct (He _ "urls" (JList []) eq_refl eq_refl eq_refl) as [Hr Hb].
  repeat split; assumption.
Defined.

Lemma tags_of_entities_witness :
  Row.tags (num:=string)
    (JList [JDict [("text", JStr "rocq")]]) (JList [JDict [("text", JStr "TWTR")]])
  = Ok [JStr "#rocq"; JStr "$TWTR"].
Proof.
  destruct (Row.tags (num:=string) (JList [JDict [("text", JStr "rocq")]])
              (JList [JDict [("text", JStr "TWTR")]])) as [ts|e] eqn:E;
    [|vm_compute in E; discriminate].
  destruct (tags_of_entities _ _ _ E) as (hts & cts & -> & Hh & Hc).
  inversion Hh as [|h t hs' hts' (s & Hs & ->) Hh']; subst.
  inversion Hh'; subst.
  inversion Hc as [|c t cs' cts' (s' & Hs' & ->) Hc']; subst.
  inversion Hc'; subst.
  injection Hs as <-. injection Hs' as <-. reflexivity.
Defined.

(** ** The store under the row strategy *)

Lemma find_snoc {A} (f : A -> bool) (l : list A) (x : A) :
  List.find f l = None -> f x = true -> List.find f (l ++ [x]) = Some x.
Proof.
  intros Hl Hx. induction l as [|a l IH]; simpl in *; [now rewrite Hx|].
  destruct (f a); [discriminate|]. exact (IH Hl).
Qed.

Section MoreStore.
Context {num : Type} `{PyOps num}.
#[local] Abbreviation value := (value num).
#[local] Abbreviation conn := (@Row.conn num).
#[local] Abbreviation store := (@Row.store num).
#[local] Abbreviation M := (@Row.M num).
Implicit Types (c : conn) (s : store) (tweet id url : value)
  (Q : store -> Prop).

Lemma get_id_urls_known url id (u : value) c :
  Row.find_key snd url (Row.tbl_urls (Row.db c)) = Some (id, u) ->
  Row.get_id_urls url c =
  (Ok id, {| Row.db := Row.db c;
             Row.log := (Row.log c ++ [Row.Execute "insert into urls" [("url", url)]])
                        ++ [Row.Execute "select id_urls from urls" [("url", url)]] |}).
Proof.
  intros Hf. unfold Row.get_id_urls, Row.insert_url, Row.select_url, Row.execute.
  unfold mbind, Row.M_bind. rewrite Hf. simpl. rewrite Hf. reflexivity.
Qed.

(** X16. [get_id_urls] always returns an id, and that id is the one the store
    holds for the URL afterwards. A URL that the store already holds gets its
    id without any change to the store; a new one adds one row to [urls].
    None of the six other relations is touched in either case. Resolving the
    same URL again returns the same id and changes nothing. *)
Theorem get_id_urls_resolves url c :
  exists id c',
    Row.get_id_urls url c = (Ok id, c') /\
    Row.find_key snd url (Row.tbl_urls (Row.db c')) = Some (id, url) /\
    (In url (map snd (Row.tbl_urls (Row.db c))) -> Row.db c' = Row.db c) /\
    (~ In url (map snd (Row.tbl_urls (Row.db c))) ->
     Row.tbl_urls (Row.db c') = Row.tbl_urls (Row.db c) ++ [(id, url)]) /\
    Row.tbl_users (Row.db c') = Row.tbl_users (Row.db c) /\
    Row.tbl_tweets (Row.db c') = Row.tbl_tweets (Row.db c) /\
    Row.tbl_tweet_urls (Row.db c') = Row.tbl_tweet_urls (Row.db c) /\
    Row.tbl_tweet_mentions (Row.db c') = Row.tbl_tweet_mentions (Row.db c) /\
    Row.tbl_tweet_tags (Row.db c') = Row.tbl_tweet_tags (Row.db c) /\
    Row.tbl_tweet_media (Row.db c') = Row.tbl_tweet_media (Row.db c) /\
    (exists c'', Row.get_id_urls url c' = (Ok id, c'') /\ Row.db c'' = Row.db c').
Proof.
  destruct (Row.find_key snd url (Row.tbl_urls (Row.db c))) as [[id u]|] eqn:Hf.
  - assert (u = url) as ->.
    { apply find_some in Hf as [_ Hu]. now apply bool_decide_eq_true in Hu. }
    exists id. eexists. split; [exact (get_id_urls_known _ _ _ _ Hf)|].
    cbn [Row.db]. split; [exact Hf|]. split; [reflexivity|]. split.
    { intros Hn. exfalso. apply Hn. apply find_some in Hf as [Hin _].
      now apply (in_map snd _ (id, url)). }
    do 6 (split; [reflexivity|]).
    eexists. split; [apply (get_id_urls_known _ id url)|reflexivity]. exact Hf.
  - set (id := JNum (num_of_nat (S (length (Row.tbl_urls (Row.db c)))))).
    assert (Hnew : Row.find_key snd url (Row.tbl_urls (Row.db c) ++ [(id, url)])
                   = Some (id, url)).
    { apply find_snoc; [exact Hf|]. now apply bool_decide_eq_true. }
    exists id. eexists. split.
    { unfold Row.get_id_urls, Row.insert_url, Row.execute, mbind, Row.M_bind.
      rewrite Hf. reflexivity. }
    cbn [Row.db Row.tbl_urls Row.tbl_users Row.tbl_tweets Row.tbl_tweet_urls
         Row.tbl_tweet_mentions Row.tbl_tweet_tags Row.tbl_tweet_media].
    split; [exact Hnew|]. split.
    { intros Hin. apply find_key_in in Hin as (r & Hr & _). congruence. }
    do 7 (split; [reflexivity|]).
    eexists. split; [apply (get_id_urls_known _ id url); exact Hnew|reflexivity].
Qed.

End MoreStore.

Lemma get_id_urls_resolves_witness :
  exists id c' c'',
    Row.get_id_urls (JStr "https://example.org/a") fresh_conn = (Ok id, c') /\
    Row.tbl_urls (Row.db c') = [(id, JStr "https://example.org/a")] /\
    Row.get_id_urls (JStr "https://example.org/a") c' = (Ok id, c'') /\
    Row.db c'' = Row.db c'.
Proof.
  destruct (get_id_urls_resolves (JStr "https://example.org/a") fresh_conn)
    as (id & c' & Hrun & _ & _ & Hnew & _ & _ & _ & _ & _ & _ & c'' & Hagain & Hsame).
  exists id, c', c''. split; [exact Hrun|]. split; [|split; assumption].
  apply Hnew. simpl. tauto.
Defined.

Section RowInvariants.
Context {num : Type} `{PyOps num}.
#[local] Abbreviation value := (value num).
#[local] Abbreviation conn := (@Row.conn num).
#[local] Abbreviation store := (@Row.store num).
#[local] Abbreviation M := (@Row.M num).
Implicit Types (c : conn) (s : store) (tweet id url : value)
  (Q : store -> Prop).

Lemma prefix_insert_if_absent {R K} `{EqDecision K} (key : R -> K) (r : R)
  (t : list R) :
  t `prefix_of` Row.insert_if_absent key r t.
Proof.
  unfold Row.insert_if_absent. destruct (existsb _ t); [reflexivity|].
  now apply prefix_app_r.
Qed.

Lemma store_le_refl s : store_le s s.
Proof. repeat split; reflexivity. Qed.

Lemma store_le_trans s1 s2 s3 : store_le s1 s2 -> store_le s2 s3 -> store_le s1 s3.
Proof.
  intros (A1 & A2 & A3 & A4 & A5 & A6 & A7) (B1 & B2 & B3 & B4 & B5 & B6 & B7).
  repeat split; etrans; eassumption.
Qed.

Lemma keeps_execute_up {A} stmt binds (run : store -> A * store) Q :
  upward Q -> (forall s, store_le s (snd (run s))) ->
  keeps Q (Row.execute stmt binds run).
Proof. intros Hup Hrun. apply keeps_execute. intros s. apply Hup, Hrun. Qed.

Ltac grows :=
  intros ?; unfold store_le; cbn;
  repeat match goal with
  | |- context [Row.find_key ?k ?u ?t] => destruct (Row.find_key k u t); cbn
  end;
  repeat split;
  first [reflexivity | apply prefix_insert_if_absent | now apply prefix_app_r].

Ltac keep_up Hup :=
  repeat first
    [ apply keeps_forM
    | apply keeps_lift
    | apply keeps_ret
    | (apply (keeps_execute_up _ _ _ _ Hup); grows)
    | apply keeps_bind
    | lazymatch goal with
      | |- keeps _ (match ?x with _ => _ end) => destruct x
      | |- keeps _ _ => fail
      | |- forall _, _ => intro
      end ].

Lemma keeps_load_up tweet Q : upward Q -> keeps Q (Row.load tweet).
Proof.
  intros Hup. unfold Row.load, Row.get_id_urls, Row.insert_url, Row.select_url,
    Row.insert_user, Row.insert_tweet_row, Row.insert_tweet_url,
    Row.insert_tweet_mention, Row.insert_tweet_tag, Row.insert_tweet_medium.
  keep_up Hup.
Qed.

Lemma insert_tweet_cases tweet c (r : result unit) c' :
  Row.insert_tweet tweet c = (r, c') ->
  Row.db c' = Row.db c \/
  exists c0 c1, Row.db c0 = Row.db c /\
                Row.load (Row.clean_dict tweet) c0 = (Ok (), c1) /\
                Row.db c' = Row.db c1.
Proof.
  unfold Row.insert_tweet, mbind, Row.M_bind, Row.lift, Row.select_tweet,
    Row.execute.
  destruct (getitem tweet "id") as [id|e]; [|intros [= _ <-]; now left].
  destruct (Row.find_key fst id (Row.tbl_tweets (Row.db c))); simpl;
    [intros [= _ <-]; now left|].
  unfold Row.transaction.
  match goal with |- context [Row.load ?t ?c0] =>
    destruct (Row.load t c0) as [[[]|e] c1] eqn:L end.
  - intros [= _ <-]. right. eexists _, c1. split; [|split; [exact L|]]; reflexivity.
  - intros [= _ <-]. now left.
Qed.

(** X17. [insert_tweet] only adds rows: however it ends, every relation of
    the store starts with the rows it had before, unchanged and in the same
    order. No row is deleted or updated. *)
Theorem insert_tweet_only_adds tweet c (r : result unit) c' :
  Row.insert_tweet tweet c = (r, c') -> store_le (Row.db c) (Row.db c').
Proof.
  intros Hrun. apply insert_tweet_cases in Hrun as [->|(c0 & c1 & H0 & L & ->)].
  - apply store_le_refl.
  - rewrite <- H0.
    refine (keeps_load_up _ (store_le (Row.db c0)) _ _ _ _ L (store_le_refl _)).
    intros s s' Hs Hq. exact (store_le_trans _ _ _ Hq Hs).
Qed.

End RowInvariants.

Lemma insert_tweet_only_adds_witness :
  exists c1 c2,
    Row.insert_tweet place_tweet fresh_conn = (Ok (), c1) /\
    Row.insert_tweet extended_tweet c1 = (Raise AttributeError, c2) /\
    store_le (Row.db fresh_conn) (Row.db c1) /\
    store_le (Row.db c1) (Row.db c2).
Proof.
  destruct (Row.insert_tweet place_tweet fresh_conn) as [r1 c1] eqn:E1.
  destruct (Row.insert_tweet extended_tweet c1) as [r2 c2] eqn:E2.
  exists c1, c2.
  pose proof (insert_tweet_only_adds _ _ _ _ E1) as H1.
  pose proof (insert_tweet_only_adds _ _ _ _ E2) as H2.
  assert (r1 = Ok ()) as -> by (vm_compute in E1; congruence).
  assert (r2 = Raise AttributeError) as ->.
  { vm_compute in E1. injection E1 as <-. vm_compute in E2. congruence. }
  split; [reflexivity|]. split; [exact E2|]. split; assumption.
Defined.

Section RowLoads.
Context {num : Type} `{PyOps num}.
#[local] Abbreviation value := (value num).
#[local] Abbreviation conn := (@Row.conn num).
#[local] Abbreviation store := (@Row.store num).
#[local] Abbreviation M := (@Row.M num).
Implicit Types (c : conn) (s : store) (tweet id url : value)
  (Q : store -> Prop).

Lemma lift_ok {A} (r : result A) (a : A) c c' :
  Row.lift r c = (Ok a, c') -> r = Ok a.
Proof. unfold Row.lift. now intros [= -> _]. Qed.

(** A load that returns has read the place name. *)
Lemma load_reads_place_name tweet c c' :
  Row.load tweet c = (Ok (), c') -> is_ok (Row.place_name tweet) = true.
Proof.
  unfold Row.load. intros L.
  do 11 (let a := fresh "a" in let c1 := fresh "c" in let Ha := fresh "Ha" in
         apply bind_ok in L as (a & c1 & Ha & L)).
  match goal with Hp : Row.lift (Row.place_name tweet) _ = _ |- _ =>
    apply lift_ok in Hp; now rewrite Hp end.
Qed.

(** X18. The row strategy cannot load a record whose [place] is [None]: the
    lookup of the place name with a default raises [AttributeError] on it, so
    [insert_tweet] leaves the store as it was, and returns only when the post
    is in the store already. *)
Theorem null_place_not_loaded tweet c (r : result unit) c' :
  getitem tweet "place" = Ok JNull ->
  Row.insert_tweet tweet c = (r, c') ->
  Row.place_name (Row.clean_dict tweet) = Raise AttributeError /\
  Row.db c' = Row.db c /\
  (r = Ok () ->
   exists id, getitem tweet "id" = Ok id /\ has_tweet id (Row.db c)).
Proof.
  intros Hp Hrun.
  assert (Hname : Row.place_name (Row.clean_dict tweet) = Raise AttributeError).
  { apply getitem_clean in Hp. unfold Row.place_name, get, get_with.
    destruct tweet as [ | | | | |d]; try discriminate. simpl in Hp |- *.
    destruct (dict_lookup "place" _) as [v|]; [|discriminate].
    injection Hp as ->. reflexivity. }
  split; [exact Hname|]. revert Hrun.
  unfold Row.insert_tweet, mbind, Row.M_bind, Row.lift, Row.select_tweet,
    Row.execute.
  destruct (getitem tweet "id") as [id|e]; [|intros [= <- <-]; split; [reflexivity|discriminate]].
  destruct (Row.find_key fst id (Row.tbl_tweets (Row.db c))) as [row|] eqn:F; simpl.
  - intros [= <- <-]. split; [reflexivity|]. intros _. exists id.
    split; [reflexivity|].
    apply find_some in F as [Hin Hk]. apply bool_decide_eq_true in Hk.
    unfold has_tweet. rewrite <- Hk. now apply in_map.
  - unfold Row.transaction.
    match goal with |- context [Row.load ?t ?c0] =>
      destruct (Row.load t c0) as [[[]|e] c1] eqn:L end.
    + apply load_reads_place_name in L. rewrite Hname in L. discriminate.
    + intros [= <- <-]. split; [reflexivity|discriminate].
Qed.

End RowLoads.

Lemma null_place_not_loaded_witness :
  exists c',
    Row.insert_tweet point_tweet fresh_conn = (Raise AttributeError, c') /\
    Row.db c' = Row.db fresh_conn.
Proof.
  destruct (Row.insert_tweet point_tweet fresh_conn) as [r c'] eqn:E.
  destruct (null_place_not_loaded point_tweet fresh_conn r c' eq_refl E)
    as (_ & Hdb & _).
  exists c'. split; [|exact Hdb]. vm_compute in E. congruence.
Defined.

Section RowUnique.
Context {num : Type} `{PyOps num}.
#[local] Abbreviation value := (value num).
#[local] Abbreviation conn := (@Row.conn num).
#[local] Abbreviation store := (@Row.store num).
#[local] Abbreviation M := (@Row.M num).
Implicit Types (c : conn) (s : store) (tweet id url : value)
  (Q : store -> Prop).

Lemma NoDup_insert_if_absent {R K} `{EqDecision K} (key : R -> K) (r : R)
  (t : list R) :
  List.NoDup (map key t) -> List.NoDup (map key (Row.insert_if_absent key r t)).
Proof.
  intros Hnd. unfold Row.insert_if_absent. destruct (existsb _ t) eqn:E; [exact Hnd|].
  rewrite map_app. apply List.NoDup_app; [exact Hnd| |].
  - repeat constructor. intros [].
  - intros k Hk [<-|[]]. apply in_map_iff in Hk as (x & Hx & Hin).
    assert (existsb (fun x => bool_decide (key x = key r)) t = true); [|congruence].
    apply existsb_exists. exists x. split; [exact Hin|]. now apply bool_decide_eq_true.
Qed.

Lemma NoDup_insert_row {R} `{EqDecision R} (r : R) (t : list R) :
  List.NoDup t -> List.NoDup (Row.insert_if_absent id r t).
Proof.
  intros Hnd. rewrite <- (map_id (Row.insert_if_absent id r t)).
  apply (NoDup_insert_if_absent id). now rewrite map_id.
Qed.

Lemma NoDup_new_url (t : list (value * value)) (i url : value) :
  Row.find_key snd url t = None ->
  List.NoDup (map snd t) -> List.NoDup (map snd (t ++ [(i, url)])).
Proof.
  intros Hf Hnd. rewrite map_app. apply List.NoDup_app; [exact Hnd| |].
  - repeat constructor. intros [].
  - intros k Hk [<-|[]]. apply find_key_in in Hk as (r & Hr & _).
    cbn [snd] in Hr. congruence.
Qed.

Ltac unique_step :=
  intros ? (? & ? & ? & ? & ? & ? & ?); unfold store_unique; cbn;
  repeat match goal with
  | |- context [Row.find_key ?k ?u ?t] =>
      let F := fresh "F" in destruct (Row.find_key k u t) eqn:F; cbn
  end;
  repeat split;
  first [ assumption
        | now apply NoDup_insert_if_absent
        | now apply NoDup_insert_row
        | now apply NoDup_new_url ].

Ltac keep_unique :=
  repeat first
    [ apply keeps_forM
    | apply keeps_lift
    | apply keeps_ret
    | (apply keeps_execute; unique_step)
    | apply keeps_bind
    | lazymatch goal with
      | |- keeps _ (match ?x with _ => _ end) => destruct x
      | |- keeps _ _ => fail
      | |- forall _, _ => intro
      end ].

Lemma keeps_load_unique tweet : keeps store_unique (Row.load tweet).
Proof.
  unfold Row.load, Row.get_id_urls, Row.insert_url, Row.select_url,
    Row.insert_user, Row.insert_tweet_row, Row.insert_tweet_url,
    Row.insert_tweet_mention, Row.insert_tweet_tag, Row.insert_tweet_medium.
  keep_unique.
Qed.

(** X19. [insert_tweet] keeps the keys of the store unique: when no relation
    has two rows with the same key before the call (one URL per row of [urls],
    one row per account id and per post id, no association row twice), none
    has afterwards, however the call ends. *)
Theorem insert_tweet_keeps_unique tweet c (r : result unit) c' :
  store_unique (Row.db c) ->
  Row.insert_tweet tweet c = (r, c') -> store_unique (Row.db c').
Proof.
  intros Hu Hrun. apply insert_tweet_cases in Hrun as [->|(c0 & c1 & H0 & L & ->)].
  - exact Hu.
  - rewrite <- H0 in Hu. exact (keeps_load_unique _ _ _ _ L Hu).
Qed.

End RowUnique.

Lemma insert_tweet_keeps_unique_witness :
  exists c1 c2,
    Row.insert_tweet place_tweet fresh_conn = (Ok (), c1) /\
    Row.insert_tweet place_tweet c1 = (Ok (), c2) /\
    store_unique (Row.db c2) /\
    length (Row.tbl_tweets (Row.db c2)) = 1.
Proof.
  destruct (Row.insert_tweet place_tweet fresh_conn) as [r1 c1] eqn:E1.
  destruct (Row.insert_tweet place_tweet c1) as [r2 c2] eqn:E2.
  exists c1, c2.
  assert (U0 : store_unique (Row.db fresh_conn))
    by (repeat split; constructor).
  pose proof (insert_tweet_keeps_unique _ _ _ _ U0 E1) as U1.
  pose proof (insert_tweet_keeps_unique _ _ _ _ U1 E2) as U2.
  vm_compute in E1. injection E1 as <- <-.
  vm_compute in E2. injection E2 as <- <-.
  split; [reflexivity|]. split; [reflexivity|]. split; [exact U2|reflexivity].
Defined.

Section RowTransaction.
Context {num : Type} `{PyOps num}.
#[local] Abbreviation value := (value num).
#[local] Abbreviation conn := (@Row.conn num).
#[local] Abbreviation store := (@Row.store num).
#[local] Abbreviation M := (@Row.M num).
Implicit Types (c : conn) (s : store) (tweet id url : value)
  (Q : store -> Prop).









End RowTransaction.


Section RowReferences.
Context {num : Type} `{PyOps num}.
#[local] Abbreviation value := (value num).
#[local] Abbreviation conn := (@Row.conn num).
#[local] Abbreviation store := (@Row.store num).
#[local] Abbreviation M := (@Row.M num).
Implicit Types (c : conn) (s : store) (tweet id url : value)
  (Q : store -> Prop).

Lemma has_user_upward id : upward (has_user id).
Proof.
  intros s s' (_ & [k Hk] & _) Hin. unfold has_user in *.
  rewrite Hk, map_app. apply in_or_app. now left.
Qed.

Ltac more_rows :=
  intros ?; unfold store_le; cbn;
  repeat match goal with
  | |- context [Row.find_key ?k ?u ?t] => destruct (Row.find_key k u t); cbn
  end;
  repeat split;
  first [reflexivity | apply prefix_insert_if_absent | now apply prefix_app_r].

Ltac keep_user :=
  repeat first
    [ apply keeps_forM
    | apply keeps_lift
    | apply keeps_ret
    | (apply keeps_execute_up; [apply has_user_upward|more_rows])
    | apply keeps_bind
    | lazymatch goal with
      | |- keeps _ (match ?x with _ => _ end) => destruct x
      | |- keeps _ _ => fail
      | |- forall _, _ => intro
      end ].

Lemma post_insert_user stmt binds id :
  post (Row.insert_user stmt binds id) (has_user id).
Proof.
  intros c [] c' E. unfold Row.insert_user, Row.execute in E.
  injection E as <-. unfold has_user. cbn.
  apply (key_in_insert_if_absent fst (id, binds)).
Qed.

Lemma post_forM_each {A} (f : A -> M unit) (P : A -> store -> Prop)
  (xs : list A) :
  (forall x, post (f x) (P x)) -> (forall x y, keeps (P x) (f y)) ->
  forall x, In x xs -> post (Row.forM f xs) (P x).
Proof.
  intros Hpost Hkeep x. induction xs as [|y xs IH]; [intros []|].
  intros [->|Hin]; simpl.
  - apply post_then_keeps; [apply Hpost|]. intros _. apply keeps_forM. intros z.
    apply Hkeep.
  - apply post_bind. intros _. exact (IH Hin).
Qed.

Ltac unfold_inserts :=
  unfold Row.get_id_urls, Row.insert_url, Row.select_url,
    Row.insert_tweet_row, Row.insert_tweet_url,
    Row.insert_tweet_mention, Row.insert_tweet_tag, Row.insert_tweet_medium.

(** A load that returns leaves a row in [users] for the author, for the
    account replied to and for every account mentioned. *)
Lemma load_accounts tweet c c' :
  Row.load tweet c = (Ok (), c') ->
  (forall user uid, getitem tweet "user" = Ok user -> getitem user "id" = Ok uid ->
                    has_user uid (Row.db c')) /\
  (forall reply, get tweet "in_reply_to_user_id" JNull = Ok reply ->
                 truthy reply = true -> has_user reply (Row.db c')) /\
  (forall ms m mid, Row.mentions tweet ≫= iterate = Ok ms -> In m ms ->
                    getitem m "id" = Ok mid -> has_user mid (Row.db c')).
Proof.
  intros L. split; [|split].
  - intros user uid Hu Hi. refine ((_ : post (Row.load tweet) (has_user uid)) c () c' L).
    clear L. unfold Row.load.
    apply post_lift_bind. intros user' Hu'. rewrite Hu in Hu'. injection Hu' as <-.
    do 3 (apply post_bind; intro).
    apply post_lift_bind. intros uid' Hi'. rewrite Hi in Hi'. injection Hi' as <-.
    apply post_then_keeps; [apply post_insert_user|].
    intros []. unfold_inserts. keep_user.
  - intros reply Hr Ht. refine ((_ : post (Row.load tweet) (has_user reply)) c () c' L).
    clear L. unfold Row.load.
    do 11 (apply post_bind; intro).
    apply post_lift_bind. intros reply' Hr'. rewrite Hr in Hr'. injection Hr' as <-.
    rewrite Ht.
    apply post_then_keeps; [apply post_insert_user|].
    intros []. unfold_inserts. keep_user.
  - intros ms m mid Hms Hm Hi. refine ((_ : post (Row.load tweet) (has_user mid)) c () c' L).
    clear L. unfold Row.load.
    do 18 (apply post_bind; intro).
    apply post_lift_bind. intros ms' Hms'. rewrite Hms in Hms'. injection Hms' as <-.
    apply post_then_keeps.
    + intros c0 [] c1 L.
      refine (post_forM_each _
                (fun m s => forall mid, getitem m "id" = Ok mid -> has_user mid s)
                ms _ _ m Hm c0 () c1 L mid Hi); clear L.
      * intros x c2 [] c3 L mid' Hx.
        refine ((_ : post _ (has_user mid')) c2 () c3 L). clear L.
        apply post_lift_bind. intros i Hx'. rewrite Hx in Hx'. injection Hx' as <-.
        apply post_then_keeps; [apply post_insert_user|].
        intros []. unfold_inserts. keep_user.
      * intros x y c2 [] c3 L Hq mid' Hx.
        refine ((_ : keeps (has_user mid') _) c2 () c3 L (Hq mid' Hx)). clear L.
        unfold Row.insert_user. unfold_inserts. keep_user.
    + intros []. unfold_inserts. keep_user.
Qed.

(** X21. When [insert_tweet] returns for a post that was not in the store,
    the [users] relation has a row for the author of the sanitized record,
    for the account it replies to when that id is truthy, and for every
    account it mentions: no row of [tweets] or [tweet_mentions] is left
    pointing at an account without a row. *)
Theorem load_accounts_exist tweet id c c' :
  getitem tweet "id" = Ok id ->
  ~ has_tweet id (Row.db c) ->
  Row.insert_tweet tweet c = (Ok (), c') ->
  (forall user uid,
     getitem (Row.clean_dict tweet) "user" = Ok user ->
     getitem user "id" = Ok uid -> has_user uid (Row.db c')) /\
  (forall reply,
     get (Row.clean_dict tweet) "in_reply_to_user_id" JNull = Ok reply ->
     truthy reply = true -> has_user reply (Row.db c')) /\
  (forall ms m mid,
     Row.mentions (Row.clean_dict tweet) ≫= iterate = Ok ms -> In m ms ->
     getitem m "id" = Ok mid -> has_user mid (Row.db c')).
Proof.
  intros Hid Hnew.
  unfold Row.insert_tweet, mbind, Row.M_bind, Row.lift, Row.select_tweet,
    Row.execute.
  rewrite Hid.
  destruct (Row.find_key fst id (Row.tbl_tweets (Row.db c))) as [row|] eqn:F; simpl.
  - intros _. exfalso. apply Hnew.
    apply find_some in F as [Hin Hk]. apply bool_decide_eq_true in Hk.
    unfold has_tweet. rewrite <- Hk. now apply in_map.
  - unfold Row.transaction.
    match goal with |- context [Row.load ?t ?c0] =>
      destruct (Row.load t c0) as [[[]|e] c1] eqn:L end.
    + intros [= <-]. exact (load_accounts _ _ _ L).
    + discriminate.
Qed.

End RowReferences.

Lemma load_accounts_exist_witness :
  exists c',
    Row.insert_tweet place_tweet fresh_conn = (Ok (), c') /\
    has_user (JNum "7") (Row.db c').
Proof.
  destruct (Row.insert_tweet place_tweet fresh_conn) as [r c'] eqn:E.
  assert (r = Ok ()) as -> by (vm_compute in E; congruence).
  exists c'. split; [reflexivity|].
  assert (Hnew : ~ has_tweet (JNum "1") (Row.db fresh_conn)) by (intros []).
  destruct (load_accounts_exist place_tweet (JNum "1") fresh_conn c' eq_refl Hnew E)
    as (Hauthor & _).
  exact (Hauthor ex_user (JNum "7") eq_refl eq_refl).
Defined.

(** ** The sanitizer and the WKT block on example records *)

Lemma clean_dict_lookups_witness :
  let d : value string :=
    JDict [("text", JStr (String "a" (String PyStr.NUL "b"))); ("lang", JStr "en")] in
  getitem (Row.clean_dict d) "text" = Ok (JStr "ab") /\
  getitem (Row.clean_dict d) "user" = Raise KeyError /\
  exists kvs', Row.clean_dict d = JDict kvs' /\ dict_keys kvs' = ["text"; "lang"].
Proof.
  intros d.
  destruct (clean_dict_lookups d "text" [] 0) as (Htext & _ & Hkeys).
  destruct (clean_dict_lookups d "user" [] 0) as (Huser & _).
  split; [rewrite Htext; reflexivity|]. split; [rewrite Huser; reflexivity|].
  exact (Hkeys _ eq_refl).
Defined.

Lemma geo_wkt_shape_witness :
  Row.geo_wkt point_tweet = Ok (JStr "POINT(-122.4 37.8)").
Proof.
  destruct (geo_wkt_shape point_tweet) as (w & Hw & _ & Hpoint).
  rewrite Hw. f_equal. apply Hpoint. reflexivity.
Defined.
